(** * AI-Tutor-Orchestrate: the decision-and-validation pipeline

    A shallow embedding of [orchestrator/gemini_agent.py],
    [orchestrator/orchestrator_core.py] and [orchestrator/tool_executor.py],
    with the Python built-ins they call ([str.split], [str.lower], [int],
    [re.search], [json.loads], [jsonschema.validate]) modelled next to them.

    Conventions.
    - A Python [str] is a [string]; its characters are code points below 256.
      Scanning code works on [chars s], the list of characters.
    - A JSON value is a [value]; a [dict] is an association list in insertion
      order without duplicate keys, as a Python dict is.  Numbers are
      integers: floats are not represented.
    - Raising is returning [Err e]; the network is an explicit [world]. *)

From Stdlib Require Import String Ascii List ZArith Lia Bool Arith.
From Stdlib Require Import DecimalString Permutation.
Import ListNotations.
Open Scope string_scope.
Open Scope list_scope.

Set Implicit Arguments.
Set Warnings "-register-all".

(* ------------------------------------------------------------------ *)
(** ** Characters and strings *)

Module PyStr.

Definition chars : string -> list ascii := list_ascii_of_string.
Definition str : list ascii -> string := string_of_list_ascii.

Definition code (c : ascii) : nat := nat_of_ascii c.

Definition in_range (lo hi : nat) (c : ascii) : bool :=
  (lo <=? code c)%nat && (code c <=? hi)%nat.

(** [\d], and the digits [int] reads, on code points below 256. *)
Definition is_digit (c : ascii) : bool := in_range 48 57 c.

(** [str.isspace], which is also [\s]: TAB..CR, FS..US, space, NEL, NBSP. *)
Definition is_space (c : ascii) : bool :=
  in_range 9 13 c || in_range 28 32 c || (code c =? 133)%nat || (code c =? 160)%nat.

Definition is_upper (c : ascii) : bool :=
  in_range 65 90 c || (in_range 192 222 c && negb (code c =? 215)%nat).

Definition lower_char (c : ascii) : ascii :=
  if is_upper c then ascii_of_nat (code c + 32) else c.

(** [s.lower()] *)
Definition lower (s : string) : string := str (map lower_char (chars s)).

Fixpoint drop_while (p : ascii -> bool) (l : list ascii) : list ascii :=
  match l with
  | [] => []
  | c :: l' => if p c then drop_while p l' else l
  end.

Fixpoint take_while (p : ascii -> bool) (l : list ascii) : list ascii :=
  match l with
  | [] => []
  | c :: l' => if p c then c :: take_while p l' else []
  end.

Definition strip_chars (l : list ascii) : list ascii :=
  rev (drop_while is_space (rev (drop_while is_space l))).

(** [s.strip()] *)
Definition strip (s : string) : string := str (strip_chars (chars s)).

(** [s.split()] with no separator: the maximal runs of non-space characters.
    [cur] is the run being read, reversed. *)
Fixpoint split_chars (cur : list ascii) (l : list ascii) : list string :=
  match l with
  | [] => match cur with [] => [] | _ => [str (rev cur)] end
  | c :: l' =>
      if is_space c
      then match cur with
           | [] => split_chars [] l'
           | _ => str (rev cur) :: split_chars [] l'
           end
      else split_chars (c :: cur) l'
  end.

Definition split (s : string) : list string := split_chars [] (chars s).

(** [sep.join(parts)] *)
Fixpoint join (sep : string) (parts : list string) : string :=
  match parts with
  | [] => ""
  | [p] => p
  | p :: rest => (p ++ sep ++ join sep rest)%string
  end.

Definition digit_val (c : ascii) : Z := Z.of_nat (code c - 48).

(** The digits of an [int] literal after its sign: decimal digits, single
    underscores allowed between two digits.  [prev] tells whether the last
    character read was a digit. *)
Fixpoint int_digits (acc : Z) (prev : bool) (l : list ascii) : option Z :=
  match l with
  | [] => if prev then Some acc else None
  | c :: l' =>
      if is_digit c then int_digits (acc * 10 + digit_val c) true l'
      else if (c =? "_")%char && prev then int_digits acc false l'
      else None
  end.

(** The interpreter's limit on the digits of an integer that [int] reads
    from a string: [sys.int_max_str_digits], 4300 unless it is reset. *)
Definition max_str_digits : nat := 4300.

(** The digits of a literal are counted one by one, leading zeros too;
    underscores, the sign and the surrounding spaces are not. *)
Definition within_digit_limit (l : list ascii) : bool :=
  (length (filter is_digit l) <=? max_str_digits)%nat.

(** [int(s)] for a string [s]; [None] is [ValueError], which is raised
    for a text that is no integer literal and for a literal of more than
    [max_str_digits] digits. *)
Definition int_of_str (s : string) : option Z :=
  let l := strip_chars (chars s) in
  if negb (within_digit_limit l) then None else
  match l with
  | [] => None
  | c :: l =>
      if (c =? "-")%char then option_map Z.opp (int_digits 0 false l)
      else if (c =? "+")%char then int_digits 0 false l
      else int_digits 0 false (c :: l)
  end.

(** [str(n)] for an [int]. *)
Definition str_of_int (n : Z) : string := NilZero.string_of_int (Z.to_int n).

(** [re.search(r"(\d+)", s)]: the first maximal run of digits. *)
Definition first_digit_run (s : string) : option string :=
  match drop_while (fun c => negb (is_digit c)) (chars s) with
  | [] => None
  | l => Some (str (take_while is_digit l))
  end.

End PyStr.

(* ------------------------------------------------------------------ *)
(** ** JSON values and dicts *)

Inductive value : Type :=
| VNone
| VBool (b : bool)
| VInt (n : Z)
| VStr (s : string)
| VList (l : list value)
| VDict (d : list (string * value)).

Definition dict : Type := list (string * value).

(** [d.get(k)] *)
Fixpoint dict_get (d : dict) (k : string) : option value :=
  match d with
  | [] => None
  | (k', v) :: d' => if (k' =? k)%string then Some v else dict_get d' k
  end.

(** [k in d] *)
Definition dict_has (d : dict) (k : string) : bool :=
  match dict_get d k with Some _ => true | None => false end.

(** [d.get(k, default)] *)
Definition dict_get_or (d : dict) (k : string) (default : value) : value :=
  match dict_get d k with Some v => v | None => default end.

(** [d[k] = v]: an existing key keeps its place, a new one goes last. *)
Fixpoint dict_set (d : dict) (k : string) (v : value) : dict :=
  match d with
  | [] => [(k, v)]
  | (k', v') :: d' =>
      if (k' =? k)%string then (k, v) :: d' else (k', v') :: dict_set d' k v
  end.

(** [d.setdefault(k, v)] *)
Definition dict_setdefault (d : dict) (k : string) (v : value) : dict :=
  if dict_has d k then d else dict_set d k v.

Definition dict_keys (d : dict) : list string := map fst d.

(** [dict(pairs)] *)
Definition dict_of_pairs (pairs : list (string * value)) : dict :=
  fold_left (fun d kv => dict_set d (fst kv) (snd kv)) pairs [].

(** [{k: v for k, v in d.items() if p(k)}] *)
Definition dict_filter (p : string -> bool) (d : dict) : dict :=
  filter (fun kv => p (fst kv)) d.

Definition mem (k : string) (l : list string) : bool :=
  existsb (String.eqb k) l.

Module PyRepr.
Import PyStr.

Definition hex_digit (n : nat) : ascii :=
  if (n <? 10)%nat then ascii_of_nat (48 + n) else ascii_of_nat (87 + n).

Definition dquote : ascii := ascii_of_nat 34.
Definition squote : ascii := ascii_of_nat 39.
Definition bslash : ascii := ascii_of_nat 92.

Definition printable (c : ascii) : bool :=
  in_range 32 126 c || (in_range 161 255 c && negb (code c =? 173)%nat).

Definition repr_char (quote : ascii) (c : ascii) : list ascii :=
  if (c =? bslash)%char || (c =? quote)%char then [bslash; c]
  else if (code c =? 10)%nat then [bslash; "n"%char]
  else if (code c =? 13)%nat then [bslash; "r"%char]
  else if (code c =? 9)%nat then [bslash; "t"%char]
  else if printable c then [c]
  else [bslash; "x"%char; hex_digit (code c / 16); hex_digit (code c mod 16)].

(** [repr(s)] for a string: single quotes unless the string holds a single
    quote and no double quote. *)
Definition repr_str (s : string) : string :=
  let l := chars s in
  let quote :=
    if existsb (Ascii.eqb squote) l && negb (existsb (Ascii.eqb dquote) l)
    then dquote else squote in
  str (quote :: flat_map (repr_char quote) l ++ [quote]).

(** [repr(v)] *)
Fixpoint repr (v : value) : string :=
  match v with
  | VNone => "None"
  | VBool true => "True"
  | VBool false => "False"
  | VInt n => str_of_int n
  | VStr s => repr_str s
  | VList l => ("[" ++ join ", " (map repr l) ++ "]")%string
  | VDict d =>
      ("{" ++ join ", "
         (map (fun kv => match kv with
                         | (k, x) => repr_str k ++ ": " ++ repr x
                         end) d) ++ "}")%string
  end.

(** [str(v)], what an f-string inserts. *)
Definition to_str (v : value) : string :=
  match v with
  | VStr s => s
  | _ => repr v
  end.

(** [int(v)]; [None] is [TypeError] or [ValueError]. *)
Definition to_int (v : value) : option Z :=
  match v with
  | VInt n => Some n
  | VBool b => Some (if b then 1 else 0)%Z
  | VStr s => int_of_str s
  | VNone | VList _ | VDict _ => None
  end.


End PyRepr.

(* ------------------------------------------------------------------ *)
(** ** [json.loads]

    The decoder of the Python standard library, for documents whose numbers
    are integers and whose strings stay below code point 256.  A number with
    a fraction or an exponent, [NaN], [Infinity] and a [\u] escape of 256 or
    more are outside this model and are answered [None]; so a statement
    that rests on a text not decoding holds of the code only for texts
    without these.  An integer of more than [max_str_digits] digits makes
    [int] raise inside the decoder and is answered [None], as the code
    sees it.  The interpreter's recursion limit, which makes the decoder
    raise on very deep nesting, is not modelled. *)

Module Json.
Import PyStr PyRepr.

Definition is_ws (c : ascii) : bool :=
  (code c =? 32)%nat || (code c =? 9)%nat || (code c =? 10)%nat || (code c =? 13)%nat.

Definition skip_ws (l : list ascii) : list ascii := drop_while is_ws l.

Definition hex_val (c : ascii) : option nat :=
  if in_range 48 57 c then Some (code c - 48)%nat
  else if in_range 97 102 c then Some (code c - 87)%nat
  else if in_range 65 70 c then Some (code c - 55)%nat
  else None.

Definition hex4 (a b c d : ascii) : option nat :=
  match hex_val a, hex_val b, hex_val c, hex_val d with
  | Some x, Some y, Some z, Some w => Some (((x * 16 + y) * 16 + z) * 16 + w)%nat
  | _, _, _, _ => None
  end.

Definition unescape (e : ascii) : option ascii :=
  if (e =? dquote)%char then Some dquote
  else if (e =? bslash)%char then Some bslash
  else if (e =? "/")%char then Some "/"%char
  else if (e =? "b")%char then Some (ascii_of_nat 8)
  else if (e =? "f")%char then Some (ascii_of_nat 12)
  else if (e =? "n")%char then Some (ascii_of_nat 10)
  else if (e =? "r")%char then Some (ascii_of_nat 13)
  else if (e =? "t")%char then Some (ascii_of_nat 9)
  else None.

(** The body of a string literal, after its opening quote. *)
Fixpoint scan_string (acc : list ascii) (l : list ascii)
  : option (string * list ascii) :=
  match l with
  | [] => None
  | c :: l' =>
      if (c =? dquote)%char then Some (str (rev acc), l')
      else if (c =? bslash)%char then
        match l' with
        | [] => None
        | e :: l'' =>
            if (e =? "u")%char then
              match l'' with
              | h1 :: h2 :: h3 :: h4 :: l3 =>
                  match hex4 h1 h2 h3 h4 with
                  | Some n =>
                      if (n <? 256)%nat
                      then scan_string (ascii_of_nat n :: acc) l3
                      else None
                  | None => None
                  end
              | _ => None
              end
            else
              match unescape e with
              | Some c' => scan_string (c' :: acc) l''
              | None => None
              end
        end
      else if (code c <? 32)%nat then None
      else scan_string (c :: acc) l'
  end.

Definition digits_value (l : list ascii) : Z :=
  fold_left (fun acc c => (acc * 10 + digit_val c)%Z) l 0%Z.

(** The integer part of a number: [0], or a digit run not starting with [0]. *)
Definition scan_nat (l : list ascii) : option (Z * list ascii) :=
  match l with
  | [] => None
  | c :: r =>
      if (c =? "0")%char then Some (0%Z, r)
      else if is_digit c
      then
        if within_digit_limit (take_while is_digit l)
        then Some (digits_value (take_while is_digit l), drop_while is_digit l)
        else None
      else None
  end.

Definition starts_float (l : list ascii) : bool :=
  match l with
  | c :: _ => (c =? ".")%char || (c =? "e")%char || (c =? "E")%char
  | [] => false
  end.

Definition scan_number (l : list ascii) : option (value * list ascii) :=
  let signed :=
    match l with
    | c :: r =>
        if (c =? "-")%char
        then match scan_nat r with
             | Some (n, r') => Some ((- n)%Z, r')
             | None => None
             end
        else scan_nat l
    | [] => None
    end in
  match signed with
  | Some (n, r) => if starts_float r then None else Some (VInt n, r)
  | None => None
  end.

Fixpoint strip_prefix (p l : list ascii) : option (list ascii) :=
  match p, l with
  | [], _ => Some l
  | a :: p', b :: l' => if (a =? b)%char then strip_prefix p' l' else None
  | _ :: _, [] => None
  end.

Definition scan_literal (l : list ascii) : option (value * list ascii) :=
  match strip_prefix (chars "null") l with
  | Some r => Some (VNone, r)
  | None =>
  match strip_prefix (chars "true") l with
  | Some r => Some (VBool true, r)
  | None =>
  match strip_prefix (chars "false") l with
  | Some r => Some (VBool false, r)
  | None => scan_number l
  end end end.

(** One value at the head of [l], and what follows it.  Every call spends
    one unit of [fuel]; [loads] gives twice the length of the text, which
    is more than any run needs ([parse_fuel_irrelevant]). *)
Fixpoint parse_value (fuel : nat) (l : list ascii) {struct fuel}
  : option (value * list ascii) :=
  match fuel with
  | O => None
  | S f =>
      match l with
      | [] => None
      | c :: r =>
          if (c =? "{")%char then
            match skip_ws r with
            | [] => None
            | c' :: r' =>
                if (c' =? "}")%char then Some (VDict [], r')
                else parse_members f [] (c' :: r')
            end
          else if (c =? "[")%char then
            match skip_ws r with
            | [] => None
            | c' :: r' =>
                if (c' =? "]")%char then Some (VList [], r')
                else parse_elements f [] (c' :: r')
            end
          else if (c =? dquote)%char then
            match scan_string [] r with
            | Some (s, r') => Some (VStr s, r')
            | None => None
            end
          else scan_literal l
      end
  end

with parse_members (fuel : nat) (acc : list (string * value)) (l : list ascii)
  {struct fuel} : option (value * list ascii) :=
  match fuel with
  | O => None
  | S f =>
      match l with
      | [] => None
      | q :: r =>
          if negb (q =? dquote)%char then None else
          match scan_string [] r with
          | None => None
          | Some (k, r1) =>
              match skip_ws r1 with
              | [] => None
              | colon :: r2 =>
                  if negb (colon =? ":")%char then None else
                  match parse_value f (skip_ws r2) with
                  | None => None
                  | Some (v, r3) =>
                      match skip_ws r3 with
                      | [] => None
                      | sep :: r4 =>
                          if (sep =? ",")%char
                          then parse_members f ((k, v) :: acc) (skip_ws r4)
                          else if (sep =? "}")%char
                          then Some (VDict (dict_of_pairs (rev ((k, v) :: acc))), r4)
                          else None
                      end
                  end
              end
          end
      end
  end

with parse_elements (fuel : nat) (acc : list value) (l : list ascii)
  {struct fuel} : option (value * list ascii) :=
  match fuel with
  | O => None
  | S f =>
      match parse_value f l with
      | None => None
      | Some (v, r1) =>
          match skip_ws r1 with
          | [] => None
          | sep :: r2 =>
              if (sep =? ",")%char
              then parse_elements f (v :: acc) (skip_ws r2)
              else if (sep =? "]")%char
              then Some (VList (rev (v :: acc)), r2)
              else None
          end
      end
  end.

Definition loads_chars (l : list ascii) : option value :=
  match parse_value (S (2 * length l)) (skip_ws l) with
  | Some (v, rest) =>
      match skip_ws rest with
      | [] => Some v
      | _ :: _ => None
      end
  | None => None
  end.

(** [json.loads(s)]; [None] is the exception it raises ([JSONDecodeError],
    or [ValueError] from [int]). *)
Definition loads (s : string) : option value := loads_chars (chars s).

(** Examples write a JSON text with ['] where the text has a double quote. *)
Definition dq (s : string) : string :=
  str (map (fun c => if (c =? squote)%char then dquote else c) (chars s)).

End Json.

(* ------------------------------------------------------------------ *)
(** ** [re.search]

    A backtracking matcher for the constructs the six topic patterns use:
    literals, character classes, ordered alternation, greedy repetition and
    one capturing group.  Alternatives are tried left to right and a
    repetition gives characters back, as Python's engine does. *)

Module Re.
Import PyStr.

Inductive regex : Type :=
| Lit (s : string)
| Cls (p : ascii -> bool)
| Seq (r1 r2 : regex)
| Alt (r1 r2 : regex)
| Rep (min : nat) (r : regex)
| Opt (r : regex)
| Grp (r : regex).

Section Matcher.
Variable R : Type.

(** [rmatch r l cap k]: match [r] at the head of [l], then hand the rest and
    the text of group 1 to [k]; [None] makes the matcher backtrack.  A turn
    of a repetition must consume a character, so [length l] turns are all
    a repetition can take. *)
Fixpoint rmatch (r : regex) (l : list ascii) (cap : option (list ascii))
  (k : list ascii -> option (list ascii) -> option R) {struct r} : option R :=
  match r with
  | Lit s =>
      match Json.strip_prefix (chars s) l with
      | Some rest => k rest cap
      | None => None
      end
  | Cls p =>
      match l with
      | c :: rest => if p c then k rest cap else None
      | [] => None
      end
  | Seq r1 r2 => rmatch r1 l cap (fun rest cap' => rmatch r2 rest cap' k)
  | Alt r1 r2 =>
      match rmatch r1 l cap k with
      | Some x => Some x
      | None => rmatch r2 l cap k
      end
  | Opt r1 =>
      match rmatch r1 l cap k with
      | Some x => Some x
      | None => k l cap
      end
  | Grp r1 =>
      rmatch r1 l cap
        (fun rest _ => k rest (Some (firstn (length l - length rest) l)))
  | Rep min r1 =>
      (fix loop (fuel n : nat) (l : list ascii) (cap : option (list ascii))
         {struct fuel} : option R :=
         let stop := if (min <=? n)%nat then k l cap else None in
         match fuel with
         | O => stop
         | S f =>
             match rmatch r1 l cap
                     (fun rest cap' =>
                        if (length rest <? length l)%nat
                        then loop f (S n) rest cap' else None) with
             | Some x => Some x
             | None => stop
             end
         end) (length l) O l cap
  end.

End Matcher.

(** The leftmost match of [r] in [l]; the result is the text of group 1. *)
Fixpoint search_chars (r : regex) (l : list ascii) : option (option (list ascii)) :=
  match rmatch r l None (fun _ cap => Some cap) with
  | Some cap => Some cap
  | None =>
      match l with
      | [] => None
      | _ :: l' => search_chars r l'
      end
  end.

(** [re.search(r, s).group(1)], [None] when there is no match. *)
Definition search_group1 (r : regex) (s : string) : option string :=
  match search_chars r (chars s) with
  | Some (Some g) => Some (str g)
  | _ => None
  end.

Definition is_trail_punct (c : ascii) : bool :=
  (c =? ".")%char || (c =? "?")%char || (c =? ",")%char || (c =? "!")%char.

(** [re.sub(r"[\.?,!]+$", "", s)]: the run of punctuation at the end of the
    string, or just before its final newline, is removed. *)
Definition sub_trailing_punct (s : string) : string :=
  match rev (chars s) with
  | [] => ""
  | c :: r =>
      if (code c =? 10)%nat
      then match r with
           | c' :: _ =>
               if is_trail_punct c'
               then str (rev (c :: drop_while is_trail_punct r))
               else s
           | [] => s
           end
      else str (rev (drop_while is_trail_punct (c :: r)))
  end.

End Re.

(* ------------------------------------------------------------------ *)
(** ** Errors, the call trace and the outside world *)

Import PyStr PyRepr.

(** The exceptions that leave the pipeline.  The source raises plain
    [Exception]s told apart by their message; the names are the spec's. *)
Inductive error : Type :=
| ModelUnavailable                 (* ask_gemini: every attempt failed *)
| NoJsonFound                      (* "Failed to extract JSON from Gemini output" *)
| MissingKeys                      (* "Gemini JSON missing required keys" *)
| UnknownTool (tool : value)       (* "Gemini suggested unknown tool" *)
| InferenceInvalid                 (* "... and inference couldn't recover" *)
| ValidationFailed                 (* "Gemini parameters failed validation" *)
| FinalValidationFailed            (* "Parameter validation failed before calling tool" *)
| UnconfiguredTool (tool : string) (* "No endpoint configured for tool" *)
| TypeError
| AttributeError
| ValueError
| KeyError.

Inductive result (A : Type) : Type :=
| Ok (a : A)
| Err (e : error).
Arguments Ok {A} a.
Arguments Err {A} e.

(** What a run does, in order: the calls it makes to the model, to the
    inferencer, to the validator and to a tool endpoint, and its warnings. *)
Inductive event : Type :=
| EvAsk
| EvInfer (tool : string) (missing : list string)
| EvValidate (instance : value) (ok : bool)
| EvPost (tool : string) (parameters : dict)
| EvWarn (tool : string).

(** A computation returns its trace and either a value or an exception. *)
Definition M (A : Type) : Type := (list event * result A)%type.

Definition ret {A} (a : A) : M A := ([], Ok a).
Definition raise {A} (e : error) : M A := ([], Err e).
Definition emit (ev : event) : M unit := ([ev], Ok tt).

Definition bind {A B} (m : M A) (f : A -> M B) : M B :=
  match m with
  | (t, Ok a) => let (t', r) := f a in (t ++ t', r)
  | (t, Err e) => (t, Err e)
  end.

Notation "x <- m ;; k" := (bind m (fun x => k))
  (at level 61, m at next level, right associativity).
Notation "m ;;; k" := (bind m (fun _ => k))
  (at level 61, right associativity).

Definition trace_of {A} (m : M A) : list event := fst m.
Definition outcome {A} (m : M A) : result A := snd m.

(** The user profile, [Dict[str, str]] as [get_user_context] returns it. *)
Definition context : Type := list (string * string).

Fixpoint ctx_get (c : context) (k : string) : option string :=
  match c with
  | [] => None
  | (k', v) :: c' => if (k' =? k)%string then Some v else ctx_get c' k
  end.

Definition ctx_get_or (c : context) (k default : string) : string :=
  match ctx_get c k with Some v => v | None => default end.

Definition ctx_value (c : context) : value :=
  VDict (map (fun kv => (fst kv, VStr (snd kv))) c).

(** The collaborators of one request: the model's answer to the prompt
    ([None] when every attempt failed), each tool endpoint's answer to a
    call ([None] for a timeout, a refused connection or an error status),
    and the order in which the interpreter iterates over a set of strings. *)
Record world : Type := {
  model_reply : option string;
  tool_reply : string -> dict -> option value;
  set_iter : list string -> list string
}.

Definition world_ok (w : world) : Prop :=
  forall l, Permutation (set_iter w l) l.

(* ------------------------------------------------------------------ *)
(** ** SchemaRegistry and SchemaValidator *)

Inductive jtype : Type := TString | TBoolean | TInteger | TObject.

Record prop_schema : Type := {
  p_type : jtype;
  p_enum : option (list string);
  p_minimum : option Z;
  p_maximum : option Z
}.

Record schema : Type := {
  required : list string;
  properties : list (string * prop_schema)
}.

Definition p_string : prop_schema := Build_prop_schema TString None None None.
Definition p_boolean : prop_schema := Build_prop_schema TBoolean None None None.
Definition p_object : prop_schema := Build_prop_schema TObject None None None.
Definition p_enum_of (vs : list string) : prop_schema :=
  Build_prop_schema TString (Some vs) None None.
Definition p_integer (lo hi : Z) : prop_schema :=
  Build_prop_schema TInteger None (Some lo) (Some hi).

Definition TOOL_PARAM_SCHEMAS : list (string * schema) :=
  [ ("note_maker",
     {| required := ["topic"; "subject"; "note_taking_style"];
        properties :=
          [ ("topic", p_string);
            ("subject", p_string);
            ("note_taking_style",
             p_enum_of ["outline"; "bullet_points"; "narrative"; "structured"]);
            ("include_examples", p_boolean);
            ("include_analogies", p_boolean) ] |});
    ("flashcard_generator",
     {| required := ["topic"; "count"; "difficulty"; "subject"];
        properties :=
          [ ("topic", p_string);
            ("count", p_integer 1 20);
            ("difficulty", p_enum_of ["easy"; "medium"; "hard"]);
            ("include_examples", p_boolean);
            ("subject", p_string) ] |});
    ("concept_explainer",
     {| required := ["concept_to_explain"; "current_topic"; "desired_depth"];
        properties :=
          [ ("concept_to_explain", p_string);
            ("current_topic", p_string);
            ("desired_depth",
             p_enum_of ["basic"; "intermediate"; "advanced"; "comprehensive"]);
            ("include_examples", p_boolean) ] |}) ].

Fixpoint assoc {A} (l : list (string * A)) (k : string) : option A :=
  match l with
  | [] => None
  | (k', a) :: l' => if (k' =? k)%string then Some a else assoc l' k
  end.

Definition check_type (t : jtype) (v : value) : bool :=
  match t, v with
  | TString, VStr _ => true
  | TBoolean, VBool _ => true
  | TInteger, VInt _ => true
  | TObject, VDict _ => true
  | _, _ => false
  end.

Definition check_enum (e : option (list string)) (v : value) : bool :=
  match e with
  | None => true
  | Some vs => match v with VStr s => mem s vs | _ => false end
  end.

(** [minimum] and [maximum] constrain numbers only; a [bool] is no number. *)
Definition check_range (lo hi : option Z) (v : value) : bool :=
  match v with
  | VInt n =>
      match lo with Some a => (a <=? n)%Z | None => true end &&
      match hi with Some b => (n <=? b)%Z | None => true end
  | _ => true
  end.

Definition check_prop (ps : prop_schema) (v : value) : bool :=
  check_type (p_type ps) v && check_enum (p_enum ps) v
  && check_range (p_minimum ps) (p_maximum ps) v.

(** [jsonschema.validate(instance, schema)] for an object schema: [true]
    when it returns, [false] when it raises [ValidationError].  Fields the
    schema does not name are allowed. *)
Definition validate (instance : value) (s : schema) : bool :=
  match instance with
  | VDict d =>
      forallb (dict_has d) (required s)
      && forallb (fun kp => match dict_get d (fst kp) with
                            | Some v => check_prop (snd kp) v
                            | None => true
                            end) (properties s)
  | _ => false
  end.

(* ------------------------------------------------------------------ *)
(** ** gemini_agent.py *)

(** [ask_gemini]: the retry loop talks to the network only; what reaches
    the pipeline is the text of a successful attempt or the final failure. *)
Definition ask_gemini (w : world) : M string :=
  emit EvAsk ;;;
  match model_reply w with
  | Some text => ret text
  | None => raise ModelUnavailable
  end.

Section Extractor.
(** The decoder applied to a candidate span. *)
Variable decode : string -> option value.

(** The loop of [_extract_first_json], at index [i] with [rest] still to
    read.  [stack] has one entry per open brace. *)
Fixpoint scan (text : string) (i : nat) (start : option nat)
  (stack : list ascii) (rest : list ascii) : option value :=
  match rest with
  | [] => None
  | ch :: rest' =>
      if (ch =? "{")%char then
        let start' := match start with None => Some i | Some _ => start end in
        scan text (S i) start' ("{"%char :: stack) rest'
      else if (ch =? "}")%char then
        match stack with
        | [] => scan text (S i) start stack rest'
        | _ :: stack' =>
            match stack', start with
            | [], Some s =>
                let candidate := substring s (S i - s) text in
                match decode candidate with
                | Some v => Some v
                | None => scan text (S i) None stack' rest'
                end
            | _, _ => scan text (S i) start stack' rest'
            end
        end
      else scan text (S i) start stack rest'
  end.

Definition extract_with (text : string) : option value :=
  scan text 0 None [] (chars text).

End Extractor.

(** [None] is the [ValueError] "No valid JSON object found". *)
Definition _extract_first_json (text : string) : option value :=
  extract_with Json.loads text.

Module Patterns.
Import Re.

Definition topic_char (c : ascii) : bool :=
  in_range 65 90 c || in_range 97 122 c || in_range 48 57 c
  || (c =? " ")%char || (c =? "_")%char || (c =? "-")%char || (c =? "/")%char.

Definition spaces : regex := Rep 1 (Cls is_space).
Definition topic : regex := Grp (Rep 2 (Cls topic_char)).

Definition patterns : list regex :=
  [ Seq (Alt (Lit "explain") (Seq (Lit "explain") (Seq spaces (Lit "about"))))
      (Seq spaces topic);
    Seq (Lit "what") (Seq (Alt (Lit "'s") (Alt (Lit " is") (Lit " are")))
      (Seq spaces (Seq topic (Opt (Lit "?")))));
    Seq (Lit "tell me about") (Seq spaces topic);
    Seq (Lit "struggling with") (Seq spaces topic);
    Seq (Lit "practice problems ") (Seq (Alt (Lit "on") (Lit "for"))
      (Seq spaces topic));
    Seq (Lit "need ") (Seq (Alt (Lit "help") (Lit "practice")) (Seq (Lit " ")
      (Seq (Alt (Lit "with") (Lit "on")) (Seq spaces topic)))) ].

End Patterns.

Fixpoint dedupe (seen : list string) (l : list string) : list string :=
  match l with
  | [] => []
  | c :: l' => if mem c seen then dedupe seen l' else c :: dedupe (c :: seen) l'
  end.

Definition _extract_candidates_for_concept (message : string) : list string :=
  let msg := strip message in
  let lower := PyStr.lower msg in
  let candidates :=
    flat_map (fun pat =>
                match Re.search_group1 pat lower with
                | Some g =>
                    let cand := strip (Re.sub_trailing_punct (strip g)) in
                    if (cand =? "")%string then [] else [cand]
                | None => []
                end) Patterns.patterns in
  let candidates :=
    match candidates with
    | [] =>
        if (length (split msg) <=? 6)%nat then [msg]
        else [join " " (firstn 6 (split msg))]
    | _ => candidates
    end in
  dedupe [] candidates.

Definition _get_mastery_level_int (user_context : context) : Z :=
  let s := ctx_get_or user_context "mastery_level_summary" "" in
  match first_digit_run s with
  | Some g => match int_of_str g with Some n => n | None => 4%Z end
  | None => 4%Z
  end.

(** [candidates[0] if candidates else user_message] *)
Definition first_candidate (candidates : list string) (fallback : string) : string :=
  match candidates with c :: _ => c | [] => fallback end.

Definition properties_of (tool : string) : list (string * prop_schema) :=
  match assoc TOOL_PARAM_SCHEMAS tool with
  | Some s => properties s
  | None => []
  end.

Section Inference.
Variables (user_message : string) (user_context : context).

Let candidates := _extract_candidates_for_concept user_message.

(** One turn of [for key in missing] in the branch of [tool]. *)
Definition infer_key (tool : string) (filled : dict) (key : string) : dict :=
  if (tool =? "concept_explainer")%string then
    if (key =? "concept_to_explain")%string then
      dict_set filled "concept_to_explain"
        (VStr (first_candidate candidates user_message))
    else if (key =? "current_topic")%string then
      dict_set filled "current_topic"
        (dict_get_or filled "concept_to_explain"
           (VStr (first_candidate candidates user_message)))
    else if (key =? "desired_depth")%string then
      let lvl := _get_mastery_level_int user_context in
      if (lvl <=? 3)%Z then dict_set filled "desired_depth" (VStr "basic")
      else if (lvl <=? 6)%Z then dict_set filled "desired_depth" (VStr "intermediate")
      else dict_set filled "desired_depth" (VStr "advanced")
    else if (key =? "include_examples")%string then
      dict_set filled "include_examples" (VBool true)
    else filled
  else if (tool =? "flashcard_generator")%string then
    if (key =? "topic")%string then
      dict_set filled "topic" (VStr (first_candidate candidates user_message))
    else if (key =? "count")%string then
      dict_set filled "count" (VInt 5)
    else if (key =? "difficulty")%string then
      let lvl := _get_mastery_level_int user_context in
      if (lvl <=? 3)%Z then dict_set filled "difficulty" (VStr "easy")
      else if (lvl <=? 6)%Z then dict_set filled "difficulty" (VStr "medium")
      else dict_set filled "difficulty" (VStr "hard")
    else if (key =? "subject")%string then
      dict_set filled "subject" (VStr (first_candidate candidates "general"))
    else if (key =? "include_examples")%string then
      dict_set filled "include_examples" (VBool true)
    else filled
  else if (tool =? "note_maker")%string then
    if (key =? "topic")%string then
      dict_set filled "topic" (VStr (first_candidate candidates user_message))
    else if (key =? "subject")%string then
      dict_set filled "subject" (VStr (first_candidate candidates "general"))
    else if (key =? "note_taking_style")%string then
      let pref := PyStr.lower (ctx_get_or user_context "preferred_teaching_style" "") in
      if (pref =? "visual")%string
      then dict_set filled "note_taking_style" (VStr "structured")
      else dict_set filled "note_taking_style" (VStr "outline")
    else if (key =? "include_examples")%string then
      dict_set filled "include_examples" (VBool true)
    else if (key =? "include_analogies")%string then
      let pref := PyStr.lower (ctx_get_or user_context "preferred_teaching_style" "") in
      dict_set filled "include_analogies" (VBool (pref =? "visual")%string)
    else filled
  else filled.

(** One turn of the final safety loop, for the item [(k, v)] of the
    snapshot [list(filled.items())]. *)
Definition safety_item (tool : string) (filled : dict) (kv : string * value) : dict :=
  match snd kv with
  | VNone =>
      match option_map p_type (assoc (properties_of tool) (fst kv)) with
      | Some TString => dict_set filled (fst kv) (VStr user_message)
      | Some TBoolean => dict_set filled (fst kv) (VBool true)
      | Some TInteger => dict_set filled (fst kv) (VInt 1)
      | _ => filled
      end
  | _ => filled
  end.

(** [missing] is the set in the order the interpreter iterates over it. *)
Definition _infer_missing_parameters (tool : string) (missing : list string)
  (params : dict) : dict :=
  let filled := params in
  let filled := fold_left (infer_key tool) missing filled in
  fold_left (safety_item tool) filled filled.

End Inference.

Record decision : Type := {
  d_tool : string;
  d_parameters : dict
}.

(** A call of [validate], recorded in the trace. *)
Definition validated (instance : value) (s : schema) : M bool :=
  let ok := validate instance s in
  emit (EvValidate instance ok) ;;; ret ok.

Definition get_tool_decision (w : world) (user_message : string)
  (chat_history : list value) (user_context : context) : M decision :=
  raw <- ask_gemini w ;;
  match _extract_first_json raw with
  | None => raise NoJsonFound
  | Some parsed =>
  match parsed with
  | VDict p =>
      match dict_get p "tool", dict_get p "parameters" with
      | Some tool, Some params =>
          (* [tool not in TOOL_PARAM_SCHEMAS]: a list or a dict cannot be hashed *)
          match tool with
          | VList _ | VDict _ => raise TypeError
          | VStr name =>
              match assoc TOOL_PARAM_SCHEMAS name with
              | None => raise (UnknownTool tool)
              | Some s =>
                  match params with
                  | VDict ps =>
                      let missing :=
                        set_iter w
                          (filter (fun k => negb (dict_has ps k)) (required s)) in
                      match missing with
                      | _ :: _ =>
                          emit (EvInfer name missing) ;;;
                          let inferred :=
                            _infer_missing_parameters user_message user_context
                              name missing ps in
                          ok <- validated (VDict inferred) s ;;
                          if ok then ret {| d_tool := name; d_parameters := inferred |}
                          else raise InferenceInvalid
                      | [] =>
                          ok <- validated params s ;;
                          if ok then ret {| d_tool := name; d_parameters := ps |}
                          else raise ValidationFailed
                      end
                  | _ => raise AttributeError   (* [params.items()] *)
                  end
              end
          | _ => raise (UnknownTool tool)
          end
      | _, _ => raise MissingKeys
      end
  | _ => raise MissingKeys
  end
  end.

(* ------------------------------------------------------------------ *)
(** ** tool_executor.py *)

Definition TOOL_ENDPOINTS : list (string * string) :=
  [ ("note_maker", "http://localhost:8101/note_maker");
    ("flashcard_generator", "http://localhost:8102/flashcards");
    ("concept_explainer", "http://localhost:8103/explain") ].

Definition fmt (d : dict) (k default : string) : string :=
  to_str (dict_get_or d k (VStr default)).

Definition flashcard (params : dict) (i : nat) : value :=
  let n := str_of_int (Z.of_nat i + 1) in
  VDict [ ("title", VStr (fmt params "topic" "Q" ++ " #" ++ n)%string);
          ("question", VStr ("Q" ++ n)%string);
          ("answer", VStr ("A" ++ n)%string);
          ("example", VStr "") ].

Definition _mock_response (tool_name : string) (params : dict) : result value :=
  if (tool_name =? "note_maker")%string then
    Ok (VDict
      [ ("topic", dict_get_or params "topic" (VStr "general"));
        ("title", VStr ("Notes: " ++ fmt params "topic" "general")%string);
        ("summary",
         VStr ("Auto-generated notes for " ++ fmt params "topic" "general" ++ ".")%string);
        ("note_sections",
         VList [ VDict [ ("title", VStr "Key idea");
                         ("content", VStr "Concept explained");
                         ("key_points", VList [VStr "p1"; VStr "p2"]);
                         ("examples", VList []) ] ]);
        ("note_taking_style", dict_get_or params "note_taking_style" (VStr "structured")) ])
  else if (tool_name =? "flashcard_generator")%string then
    match dict_get_or params "count" (VInt 5) with
    | VNone | VList _ | VDict _ => Err TypeError
    | c =>
        match to_int c with
        | None => Err ValueError
        | Some count =>
            Ok (VDict
              [ ("topic", dict_get_or params "topic" (VStr "general"));
                ("flashcards",
                 VList (map (flashcard params) (seq 0 (Z.to_nat (Z.min 20 count)))));
                ("difficulty", dict_get_or params "difficulty" (VStr "medium"));
                ("adaptation_details", VStr "mocked") ])
        end
    end
  else if (tool_name =? "concept_explainer")%string then
    Ok (VDict
      [ ("explanation",
         VStr ("A concise explanation of "
               ++ fmt params "concept_to_explain" "the concept" ++ ".")%string);
        ("examples", VList [VStr "Example 1"; VStr "Example 2"]);
        ("related_concepts", VList [VStr "related 1"; VStr "related 2"]);
        ("practice_questions", VList [VStr "Q1"; VStr "Q2"]) ])
  else Ok (VDict [("result", VStr "unknown tool")]).

Definition lift {A} (r : result A) : M A := ([], r).

Definition execute_tool (w : world) (tool_name : string) (parameters : dict) : M value :=
  match assoc TOOL_ENDPOINTS tool_name with
  | None => raise (UnconfiguredTool tool_name)
  | Some endpoint =>
      if (endpoint =? "")%string then raise (UnconfiguredTool tool_name) else
      emit (EvPost tool_name parameters) ;;;
      match tool_reply w endpoint parameters with
      | Some response => ret response
      | None =>
          emit (EvWarn tool_name) ;;;
          lift (_mock_response tool_name parameters)
      end
  end.

(* ------------------------------------------------------------------ *)
(** ** orchestrator_core.py *)

(** [int(user_context.get("mastery_level_summary", "Level 4").split()[1])]
    under [try], with [lvl = 4] in the handler; the source has this block
    once for the flashcard branch and once for the explainer branch. *)
Definition second_token_level (user_context : context) : Z :=
  match nth_error (split (ctx_get_or user_context "mastery_level_summary" "Level 4")) 1 with
  | Some token =>
      match int_of_str token with
      | Some n => n
      | None => 4%Z
      end
  | None => 4%Z
  end.

Definition _infer_defaults (parameters : dict) (tool : string)
  (user_context : context) : dict :=
  let params := parameters in
  let params :=
    if (tool =? "flashcard_generator")%string then
      let params := dict_setdefault params "count" (VInt 5) in
      let lvl := second_token_level user_context in
      if (lvl <=? 3)%Z then dict_setdefault params "difficulty" (VStr "easy")
      else if (lvl <=? 6)%Z then dict_setdefault params "difficulty" (VStr "medium")
      else dict_setdefault params "difficulty" (VStr "hard")
    else params in
  let params :=
    if (tool =? "note_maker")%string then
      let pref := PyStr.lower (ctx_get_or user_context "preferred_teaching_style" "") in
      if (pref =? "visual")%string then
        let params := dict_setdefault params "note_taking_style" (VStr "structured") in
        let params := dict_setdefault params "include_examples" (VBool true) in
        dict_setdefault params "include_analogies" (VBool true)
      else
        let params :=
          dict_setdefault params "note_taking_style"
            (dict_get_or params "note_taking_style" (VStr "outline")) in
        let params := dict_setdefault params "include_examples" (VBool true) in
        dict_setdefault params "include_analogies" (VBool false)
    else params in
  let params :=
    if (tool =? "concept_explainer")%string then
      let lvl := second_token_level user_context in
      let params :=
        if (lvl <=? 3)%Z then dict_setdefault params "desired_depth" (VStr "basic")
        else if (lvl <=? 6)%Z then dict_setdefault params "desired_depth" (VStr "intermediate")
        else dict_setdefault params "desired_depth" (VStr "advanced") in
      dict_setdefault params "include_examples" (VBool true)
    else params in
  params.

Record orchestration : Type := {
  o_tool : string;
  o_parameters : dict;
  o_result : value
}.

Definition user_info_schema : schema :=
  {| required := ["user_info"]; properties := [("user_info", p_object)] |}.

Definition any_object_schema : schema :=
  {| required := []; properties := [] |}.

(** The fields of [parameters] that the tool's schema names. *)
Definition tool_scoped (s : schema) (parameters : dict) : dict :=
  dict_filter (fun k => match assoc (properties s) k with
                        | Some _ => true
                        | None => false
                        end) parameters.

(** The MERGE_CONTEXT step: the decision's parameters with the profile
    and the history attached, after the second layer of defaulting. *)
Definition final_parameters (d : decision) (chat_history : list value)
  (user_context : context) : dict :=
  let parameters := d_parameters d in
  let parameters := dict_set parameters "user_info" (ctx_value user_context) in
  let parameters := dict_set parameters "chat_history" (VList chat_history) in
  _infer_defaults parameters (d_tool d) user_context.

Definition orchestrate_with_gemini (w : world) (message : string)
  (chat_history : list value) (user_context : context) : M orchestration :=
  d <- get_tool_decision w message chat_history user_context ;;
  let tool_name := d_tool d in
  let parameters := final_parameters d chat_history user_context in
  ok1 <- validated (VDict parameters) user_info_schema ;;
  if negb ok1 then raise FinalValidationFailed else
  ok2 <- validated (VDict parameters) any_object_schema ;;
  if negb ok2 then raise FinalValidationFailed else
  match assoc TOOL_PARAM_SCHEMAS tool_name with
  | None => raise KeyError
  | Some tool_schema =>
      let tool_params := tool_scoped tool_schema parameters in
      ok3 <- validated (VDict tool_params) tool_schema ;;
      if negb ok3 then raise FinalValidationFailed else
      r <- execute_tool w tool_name parameters ;;
      ret {| o_tool := tool_name; o_parameters := parameters; o_result := r |}
  end.

(* ------------------------------------------------------------------ *)
(** ** Notions the properties are stated with *)

Definition is_open (c : ascii) : bool := (c =? "{")%char.
Definition is_close (c : ascii) : bool := (c =? "}")%char.

(** The top-level spans of a text, in the spec's words: read left to
    right and keep the balance of [{] against [}]; a span opens at a [{]
    met at balance zero and closes at the [}] that brings the balance back
    to zero.  Every brace character counts, also one inside a string
    literal; a [}] at balance zero is skipped.  [cur] is the open span,
    reversed. *)
Fixpoint spans (depth : nat) (cur : list ascii) (l : list ascii) : list string :=
  match l with
  | [] => []
  | ch :: l' =>
      if is_open ch then spans (S depth) (ch :: cur) l'
      else if is_close ch then
        match depth with
        | 0 => spans 0 [] l'
        | 1 => str (rev (ch :: cur)) :: spans 0 [] l'
        | S d => spans d (ch :: cur) l'
        end
      else
        match depth with
        | 0 => spans 0 [] l'
        | _ => spans depth (ch :: cur) l'
        end
  end.

Definition top_level_spans (text : string) : list string :=
  spans 0 [] (chars text).

(** The value of the first span that decodes. *)
Fixpoint first_decoded (decode : string -> option value) (l : list string)
  : option value :=
  match l with
  | [] => None
  | s :: l' =>
      match decode s with
      | Some v => Some v
      | None => first_decoded decode l'
      end
  end.

(** [closes_at_end depth l]: reading [l] at balance [depth], the balance
    first reaches zero on the last character of [l]. *)
Fixpoint closes_at_end (depth : nat) (l : list ascii) : bool :=
  match l with
  | [] => false
  | ch :: l' =>
      if is_open ch then closes_at_end (S depth) l'
      else if is_close ch then
        match depth with
        | 0 => false
        | 1 => match l' with [] => true | _ :: _ => false end
        | S d => closes_at_end d l'
        end
      else closes_at_end depth l'
  end.

(** A brace-balanced object text: it opens with [{] and its last character
    is the [}] that closes that brace. *)
Definition balanced_object (s : string) : bool :=
  match chars s with
  | ch :: l => is_open ch && closes_at_end 1 l
  | [] => false
  end.

Definition no_open_brace (s : string) : bool :=
  forallb (fun c => negb (is_open c)) (chars s).

Definition no_close_brace (s : string) : bool :=
  forallb (fun c => negb (is_close c)) (chars s).

(** Equality of two texts up to the case of the letters A to Z. *)
Definition fold_case (c : ascii) : ascii :=
  if in_range 65 90 c then ascii_of_nat (code c + 32) else c.

Fixpoint same_chars_ignoring_case (a b : list ascii) : bool :=
  match a, b with
  | [], [] => true
  | x :: a', y :: b' =>
      (fold_case x =? fold_case y)%char && same_chars_ignoring_case a' b'
  | _, _ => false
  end.

Definition equals_ignoring_case (a b : string) : bool :=
  same_chars_ignoring_case (chars a) (chars b).

(** A dict as Python has it: no key twice. *)
Definition wf_dict (d : dict) : Prop := NoDup (dict_keys d).

(** Every field the mapping holds meets what the schema says of it. *)
Definition fields_conform (s : schema) (d : dict) : Prop :=
  forall k ps v,
    assoc (properties s) k = Some ps -> dict_get d k = Some v ->
    check_prop ps v = true.

(** The same, entry by entry. *)
Definition entries_conform (s : schema) (d : dict) : Prop :=
  Forall (fun kv => forall ps, assoc (properties s) (fst kv) = Some ps ->
                               check_prop ps (snd kv) = true) d.

(** The fields the post-merge pass may fill. *)
Definition default_targets : list string :=
  ["count"; "difficulty"; "desired_depth"; "note_taking_style";
   "include_examples"; "include_analogies"].

(** The three tiers, by the thresholds of the mastery mapping. *)
Inductive tier : Type := Low | Mid | High.

Definition tier_of (lvl : Z) : tier :=
  if (lvl <=? 3)%Z then Low else if (lvl <=? 6)%Z then Mid else High.

Definition difficulty_of (t : tier) : string :=
  match t with Low => "easy" | Mid => "medium" | High => "hard" end.

Definition depth_of (t : tier) : string :=
  match t with Low => "basic" | Mid => "intermediate" | High => "advanced" end.

Definition is_post (ev : event) : bool :=
  match ev with EvPost _ _ => true | _ => false end.

Definition is_infer (ev : event) : bool :=
  match ev with EvInfer _ _ => true | _ => false end.

Definition is_inner_call (ev : event) : bool :=
  match ev with
  | EvInfer _ _ | EvValidate _ _ | EvPost _ _ => true
  | _ => false
  end.

(* ------------------------------------------------------------------ *)
(** ** [json.dumps]

    The encoder with its default options: [", "] and [": "] as separators
    and every character outside the printable ASCII range escaped. *)

Definition hex4_of (n : nat) : list ascii :=
  [hex_digit (n / 4096); hex_digit (n / 256 mod 16);
   hex_digit (n / 16 mod 16); hex_digit (n mod 16)].

Definition dumps_char (c : ascii) : list ascii :=
  if (c =? dquote)%char then [bslash; dquote]
  else if (c =? bslash)%char then [bslash; bslash]
  else if (code c =? 10)%nat then [bslash; "n"%char]
  else if (code c =? 13)%nat then [bslash; "r"%char]
  else if (code c =? 9)%nat then [bslash; "t"%char]
  else if (code c =? 8)%nat then [bslash; "b"%char]
  else if (code c =? 12)%nat then [bslash; "f"%char]
  else if in_range 32 126 c then [c]
  else bslash :: "u"%char :: hex4_of (code c).

Definition dumps_str (s : string) : string :=
  str (dquote :: flat_map dumps_char (chars s) ++ [dquote]).

(** [json.dumps(v)] *)
Fixpoint json_dumps (v : value) : string :=
  match v with
  | VNone => "null"
  | VBool true => "true"
  | VBool false => "false"
  | VInt n => str_of_int n
  | VStr s => dumps_str s
  | VList l => ("[" ++ join ", " (map json_dumps l) ++ "]")%string
  | VDict d =>
      ("{" ++ join ", "
         (map (fun kv => match kv with
                         | (k, x) => dumps_str k ++ ": " ++ json_dumps x
                         end) d) ++ "}")%string
  end.

(* ------------------------------------------------------------------ *)
(** ** gemini_agent.py: the model gateway, attempt by attempt

    [ask_gemini] above gives the pipeline the gateway's final outcome.
    Here is the loop that produces it: each attempt posts the same body,
    and the body of its [try] either returns or raises into the handler,
    which lets the loop go on. *)

(** What one POST gives: [HttpError] when the request, [raise_for_status]
    or [r.json()] raises, the decoded envelope otherwise. *)
Inductive http_outcome : Type :=
| HttpError
| HttpJson (data : value).

(** [v.get(k, default)]; [None] is [AttributeError]. *)
Definition py_get (v : value) (k : string) (default : value) : option value :=
  match v with
  | VDict d => Some (dict_get_or d k default)
  | _ => None
  end.

(** [v[0]]; [None] is [IndexError], [KeyError] or [TypeError].  The keys
    of a decoded object are strings, so [0] is never one of them. *)
Definition py_index0 (v : value) : option value :=
  match v with
  | VList (x :: _) => Some x
  | VStr s =>
      match chars s with
      | c :: _ => Some (VStr (str [c]))
      | [] => None
      end
  | _ => None
  end.

Definition and_then {A B} (o : option A) (f : A -> option B) : option B :=
  match o with Some a => f a | None => None end.

(** [data.get("candidates", [{}])[0].get("content", {})
         .get("parts", [{}])[0].get("text", json.dumps(data))] *)
Definition envelope_text (data : value) : option value :=
  and_then (py_get data "candidates" (VList [VDict []])) (fun candidates =>
  and_then (py_index0 candidates) (fun candidate =>
  and_then (py_get candidate "content" (VDict [])) (fun content =>
  and_then (py_get content "parts" (VList [VDict []])) (fun parts =>
  and_then (py_index0 parts) (fun part =>
  py_get part "text" (VStr (json_dumps data))))))).

(** [for attempt in range(...)], at attempt [i] with [n] attempts left.
    The result is the number of requests sent and what [ask_gemini]
    returns; [None] is the exception raised after the loop. *)
Fixpoint ask_loop (post : nat -> http_outcome) (i n : nat) : nat * option value :=
  match n with
  | O => (i, None)
  | S n' =>
      match post i with
      | HttpJson data =>
          match envelope_text data with
          | Some text => (S i, Some text)
          | None => ask_loop post (S i) n'
          end
      | HttpError => ask_loop post (S i) n'
      end
  end.

(** [range(MAX_RETRIES + 1)] has no element when [MAX_RETRIES] is negative. *)
Definition ask_gemini_attempts (MAX_RETRIES : Z) (post : nat -> http_outcome)
  : nat * option value :=
  ask_loop post 0 (Z.to_nat (MAX_RETRIES + 1)).

(** An attempt that makes [ask_gemini] return. *)
Definition attempt_text (o : http_outcome) : option value :=
  match o with
  | HttpJson data => envelope_text data
  | HttpError => None
  end.

(* ------------------------------------------------------------------ *)
(** ** state_manager.py and main.py *)

Definition get_user_context (user_id : string) : context :=
  [ ("user_id", user_id);
    ("name", "Student");
    ("grade_level", "10");
    ("learning_style_summary", "Prefers visual explanations and structured notes");
    ("emotional_state_summary", "Confused");
    ("mastery_level_summary", "Level 4: Building foundational knowledge");
    ("preferred_teaching_style", "visual") ].

Record ChatMessage : Type := {
  role : string;
  content : string
}.

Record OrchestrateRequest : Type := {
  user_id : string;
  message : string;
  chat_history : option (list ChatMessage)
}.

(** [m.dict()] *)
Definition message_dict (m : ChatMessage) : value :=
  VDict [("role", VStr (role m)); ("content", VStr (content m))].

(** What the endpoint answers: the body of a 200, or the [HTTPException]
    with status 500 built from the exception caught. *)
Inductive http_response : Type :=
| Http200 (body : value)
| Http500 (cause : error).

Definition orchestration_value (o : orchestration) : value :=
  VDict [ ("tool", VStr (o_tool o));
          ("parameters", VDict (o_parameters o));
          ("result", o_result o) ].

Definition orchestrate_endpoint (w : world) (payload : OrchestrateRequest)
  : list event * http_response :=
  let user_context := get_user_context (user_id payload) in
  let history :=
    map message_dict
      (match chat_history payload with Some l => l | None => [] end) in
  match orchestrate_with_gemini w (message payload) history user_context with
  | (t, Ok result) =>
      (t, Http200 (VDict [("ok", VBool true); ("data", orchestration_value result)]))
  | (t, Err e) => (t, Http500 e)
  end.

(* ------------------------------------------------------------------ *)
(** ** Further notions the properties are stated with *)

Definition count_events (p : event -> bool) (t : list event) : nat :=
  length (filter p t).

Definition is_ask (ev : event) : bool :=
  match ev with EvAsk => true | _ => false end.

Definition is_warn (ev : event) : bool :=
  match ev with EvWarn _ => true | _ => false end.

(** The errors the decision step can end with. *)
Definition decision_error (e : error) : bool :=
  match e with
  | ModelUnavailable | NoJsonFound | MissingKeys | UnknownTool _
  | InferenceInvalid | ValidationFailed | TypeError | AttributeError => true
  | _ => false
  end.

(** Two dicts that Python's [==] holds equal: the same value under every key. *)
Definition dict_equiv (d d' : dict) : Prop :=
  forall k, dict_get d k = dict_get d' k.

(** What the safety pass of the inferencer puts in the place of a null. *)
Definition null_fallback (tool : string) (user_message : string) (k : string)
  : option value :=
  match option_map p_type (assoc (properties_of tool) k) with
  | Some TString => Some (VStr user_message)
  | Some TBoolean => Some (VBool true)
  | Some TInteger => Some (VInt 1)
  | _ => None
  end.

(** The value the safety pass of the inferencer leaves in the place of
    [v] under the key [k]. *)
Definition without_null (tool user_message k : string) (v : value) : value :=
  match v with
  | VNone =>
      match null_fallback tool user_message k with
      | Some v' => v'
      | None => VNone
      end
  | _ => v
  end.

(** A value as the interpreter holds it: no dict in it has a key twice. *)
Fixpoint wf_value (v : value) : Prop :=
  match v with
  | VList l =>
      (fix all (l : list value) : Prop :=
         match l with
         | [] => True
         | x :: l' => wf_value x /\ all l'
         end) l
  | VDict d =>
      wf_dict d
      /\ (fix all (d : list (string * value)) : Prop :=
            match d with
            | [] => True
            | (_, x) :: d' => wf_value x /\ all d'
            end) d
  | _ => True
  end.

(** A topic as the patterns capture it: two or more characters of the
    topic class, the first and the last not a space. *)
Definition topic_text (x : string) : bool :=
  let l := chars x in
  forallb Patterns.topic_char l && (2 <=? length l)%nat
  && match l with c :: _ => negb (is_space c) | [] => false end
  && match rev l with c :: _ => negb (is_space c) | [] => false end.

(** What may follow a captured topic: nothing, or a character outside the
    topic class. *)
Definition ends_topic (tail : string) : bool :=
  match chars tail with
  | [] => true
  | c :: _ => negb (Patterns.topic_char c)
  end.

(** The openings the six patterns recognise, with a single space before
    the topic. *)
Definition topic_prefixes : list string :=
  [ "explain "; "what's "; "what is "; "what are "; "tell me about ";
    "struggling with "; "practice problems on "; "practice problems for ";
    "need help with "; "need help on "; "need practice with ";
    "need practice on " ].

(** The fields the inferencer fills with the first candidate. *)
Definition topic_fields : list (string * string) :=
  [ ("concept_explainer", "concept_to_explain");
    ("flashcard_generator", "topic"); ("flashcard_generator", "subject");
    ("note_maker", "topic"); ("note_maker", "subject") ].

(* ------------------------------------------------------------------ *)
(** * Properties *)

Unset Implicit Arguments.

(** ** Tactics *)

(** Case analysis on every test of a chain of conditionals. *)
Ltac split_ifs :=
  repeat match goal with
    | |- context [if (?a =? ?b)%string then _ else _] =>
        destruct (String.eqb_spec a b)
    | |- context [if (?a <=? ?b)%Z then _ else _] => destruct (a <=? b)%Z
    end.

(** Case analysis on the innermost scrutinee first. *)
Ltac split_match :=
  repeat match goal with
    | |- context [match ?x with _ => _ end] =>
        lazymatch x with
        | context [match _ with _ => _ end] => fail
        | _ => destruct x eqn:?
        end
    end.


(* ------------------------------------------------------------------ *)
(** ** The embedding on concrete inputs *)

Example split_stub_summary :
  split "Level 4: Building foundational knowledge"
  = ["Level"; "4:"; "Building"; "foundational"; "knowledge"].
Proof. reflexivity. Qed.

Example int_of_str_cases :
  map int_of_str [" 42 "; "-7"; "+5"; "1_000"; "007"; "4:"; "1__0"; "_1"; ""; "four"]
  = [Some 42; Some (-7); Some 5; Some 1000; Some 7; None; None; None; None; None]%Z.
Proof. reflexivity. Qed.

Example int_of_str_digit_limit :
  int_of_str (str (repeat "7"%char 4301)) = None
  /\ int_of_str (str ("-"%char :: repeat "0"%char 4299 ++ ["7"%char])) = Some (-7)%Z.
Proof. split; vm_compute; reflexivity. Qed.

Example loads_nested :
  Json.loads (Json.dq " {'a': [1, -2, true, null, {}], 'b': 'x\u0041}', 'a': 3} ")
  = Some (VDict [("a", VInt 3); ("b", VStr "xA}")]).
Proof. reflexivity. Qed.

Example loads_rejects :
  map Json.loads
    (map Json.dq ["{'a': 1,}"; "{'a': 01}"; "{'a' 1}"; "[1, 2"; "{'a': '}"; "{} x"])
  = [None; None; None; None; None; None].
Proof. reflexivity. Qed.

Example extract_skips_unparseable_span :
  _extract_first_json (Json.dq "Use {curly} braces: {'tool': 'note_maker'} } done")
  = Some (VDict [("tool", VStr "note_maker")]).
Proof. reflexivity. Qed.

Example candidates_first_pattern_wins :
  _extract_candidates_for_concept "Please explain about chain rule! And what is a limit?"
  = ["about chain rule"; "a limit"].
Proof. reflexivity. Qed.

Example candidates_backtracking :
  _extract_candidates_for_concept "Explain  a" = ["a"].
Proof. reflexivity. Qed.

Example candidates_fallback :
  _extract_candidates_for_concept "one two three four five six seven"
  = ["one two three four five six"].
Proof. reflexivity. Qed.

Example mock_flashcards :
  _mock_response "flashcard_generator" [("topic", VStr "sets"); ("count", VInt 2)]
  = Ok (VDict
          [("topic", VStr "sets");
           ("flashcards",
            VList [VDict [("title", VStr "sets #1"); ("question", VStr "Q1");
                          ("answer", VStr "A1"); ("example", VStr "")];
                   VDict [("title", VStr "sets #2"); ("question", VStr "Q2");
                          ("answer", VStr "A2"); ("example", VStr "")]]);
           ("difficulty", VStr "medium");
           ("adaptation_details", VStr "mocked")]).
Proof. reflexivity. Qed.

(* ------------------------------------------------------------------ *)
(** ** Strings *)

Section StringFacts.

Lemma chars_str (l : list ascii) : chars (str l) = l.
Proof. apply list_ascii_of_string_of_list_ascii. Qed.

Lemma str_chars (s : string) : str (chars s) = s.
Proof. apply string_of_list_ascii_of_string. Qed.

Lemma chars_app (a b : string) : chars (a ++ b)%string = chars a ++ chars b.
Proof.
  induction a as [|c a IH]; simpl; [reflexivity|].
  unfold chars in *; simpl; now rewrite IH.
Qed.

Lemma chars_inj (a b : string) : chars a = chars b -> a = b.
Proof.
  intros H. rewrite <- (str_chars a), <- (str_chars b). now rewrite H.
Qed.

Lemma substring_chars (s : string) :
  forall n m, substring n m s = str (firstn m (skipn n (chars s))).
Proof.
  induction s as [|c s IH]; intros n m.
  - destruct n, m; reflexivity.
  - destruct n as [|n].
    + destruct m as [|m]; simpl; [reflexivity|].
      rewrite IH. reflexivity.
    + simpl. rewrite IH. reflexivity.
Qed.

End StringFacts.

(* ------------------------------------------------------------------ *)
(** ** The decoder *)

Section DecoderFacts.
Import Json.

Lemma drop_while_length (p : ascii -> bool) (l : list ascii) :
  length (drop_while p l) <= length l.
Proof.
  induction l as [|c l IH]; simpl; [lia|]. destruct (p c); simpl; lia.
Qed.

Lemma skip_ws_length (l : list ascii) : length (skip_ws l) <= length l.
Proof. apply drop_while_length. Qed.

Lemma scan_string_shorter_upto (k : nat) :
  forall l acc s r,
    length l <= k -> scan_string acc l = Some (s, r) -> length r < length l.
Proof.
  induction k as [|k IH]; intros l acc s r Hk.
  - destruct l; [discriminate|simpl in Hk; lia].
  - destruct l as [|c l]; simpl; [discriminate|]. simpl in Hk.
    destruct (c =? dquote)%char.
    + intros [= <- <-]. lia.
    + destruct (c =? bslash)%char.
      * destruct l as [|e l]; [discriminate|].
        destruct (e =? "u")%char.
        -- destruct l as [|h1 [|h2 [|h3 [|h4 l]]]]; try discriminate.
           destruct (hex4 h1 h2 h3 h4); [|discriminate].
           destruct (_ <? 256)%nat; [|discriminate].
           intros H. apply IH in H; simpl in *; lia.
        -- destruct (unescape e); [|discriminate].
           intros H. apply IH in H; simpl in *; lia.
      * destruct (code c <? 32)%nat; [discriminate|].
        intros H. apply IH in H; simpl in *; lia.
Qed.

Lemma scan_string_shorter (l : list ascii) acc s r :
  scan_string acc l = Some (s, r) -> length r < length l.
Proof. now apply (scan_string_shorter_upto (length l)). Qed.

Lemma strip_prefix_length (p l r : list ascii) :
  strip_prefix p l = Some r -> length l = length p + length r.
Proof.
  revert l. induction p as [|a p IH]; intros l; simpl.
  - now intros [= ->].
  - destruct l as [|b l]; [discriminate|].
    destruct (a =? b)%char; [|discriminate].
    intros H. apply IH in H. simpl. lia.
Qed.

Lemma scan_nat_shorter (l : list ascii) n r :
  scan_nat l = Some (n, r) -> length r < length l.
Proof.
  unfold scan_nat. destruct l as [|c l]; [discriminate|].
  destruct (c =? "0")%char; [intros [= <- <-]; simpl; lia|].
  destruct (is_digit c) eqn:E; [|discriminate].
  destruct (within_digit_limit _); [|discriminate].
  intros [= <- <-]. simpl. rewrite E.
  pose proof (drop_while_length is_digit l). simpl. lia.
Qed.

Lemma scan_literal_shorter (l : list ascii) v r :
  scan_literal l = Some (v, r) -> length r < length l.
Proof.
  unfold scan_literal.
  destruct (strip_prefix (chars "null") l) eqn:E1.
  { intros [= <- <-]. apply strip_prefix_length in E1. simpl in E1. lia. }
  destruct (strip_prefix (chars "true") l) eqn:E2.
  { intros [= <- <-]. apply strip_prefix_length in E2. simpl in E2. lia. }
  destruct (strip_prefix (chars "false") l) eqn:E3.
  { intros [= <- <-]. apply strip_prefix_length in E3. simpl in E3. lia. }
  unfold scan_number. destruct l as [|c l']; [discriminate|].
  destruct (c =? "-")%char.
  - destruct (scan_nat l') as [[n r']|] eqn:E; [|discriminate].
    destruct (starts_float r'); [discriminate|].
    intros [= <- <-]. apply scan_nat_shorter in E. simpl. lia.
  - destruct (scan_nat (c :: l')) as [[n r']|] eqn:E; [|discriminate].
    destruct (starts_float r'); [discriminate|].
    intros [= <- <-]. now apply scan_nat_shorter in E.
Qed.

(** What a parser returns is shorter than what it was given. *)
Lemma parse_shorter (n : nat) :
  (forall l v r, parse_value n l = Some (v, r) -> length r < length l)
  /\ (forall acc l v r, parse_members n acc l = Some (v, r) -> length r < length l)
  /\ (forall acc l v r, parse_elements n acc l = Some (v, r) -> length r < length l).
Proof.
  induction n as [|f (IHv & IHm & IHe)]; [repeat split; discriminate|].
  repeat split.
  - intros l v r. cbn [parse_value].
    destruct l as [|c l']; [discriminate|].
    destruct (c =? "{")%char.
    { pose proof (skip_ws_length l') as W.
      destruct (skip_ws l') as [|c' r']; [discriminate|].
      destruct (c' =? "}")%char.
      - intros [= <- <-]. simpl in *. lia.
      - intros H. apply IHm in H. simpl in *. lia. }
    destruct (c =? "[")%char.
    { pose proof (skip_ws_length l') as W.
      destruct (skip_ws l') as [|c' r']; [discriminate|].
      destruct (c' =? "]")%char.
      - intros [= <- <-]. simpl in *. lia.
      - intros H. apply IHe in H. simpl in *. lia. }
    destruct (c =? dquote)%char.
    { destruct (scan_string [] l') as [[s r']|] eqn:E; [|discriminate].
      intros [= <- <-]. apply scan_string_shorter in E. simpl. lia. }
    apply scan_literal_shorter.
  - intros acc l v r. cbn [parse_members].
    destruct l as [|q l']; [discriminate|].
    destruct (negb (q =? dquote)%char); [discriminate|].
    destruct (scan_string [] l') as [[k r1]|] eqn:E1; [|discriminate].
    apply scan_string_shorter in E1.
    pose proof (skip_ws_length r1) as W1.
    destruct (skip_ws r1) as [|colon r2]; [discriminate|].
    destruct (negb (colon =? ":")%char); [discriminate|].
    pose proof (skip_ws_length r2) as W2.
    destruct (parse_value f (skip_ws r2)) as [[x r3]|] eqn:E3; [|discriminate].
    apply IHv in E3.
    pose proof (skip_ws_length r3) as W3.
    destruct (skip_ws r3) as [|sep r4]; [discriminate|].
    pose proof (skip_ws_length r4) as W4.
    destruct (sep =? ",")%char.
    + intros H. apply IHm in H. simpl in *. lia.
    + destruct (sep =? "}")%char; [|discriminate].
      intros [= <- <-]. simpl in *. lia.
  - intros acc l v r. cbn [parse_elements].
    destruct (parse_value f l) as [[x r1]|] eqn:E1; [|discriminate].
    apply IHv in E1.
    pose proof (skip_ws_length r1) as W1.
    destruct (skip_ws r1) as [|sep r2]; [discriminate|].
    pose proof (skip_ws_length r2) as W2.
    destruct (sep =? ",")%char.
    + intros H. apply IHe in H. simpl in *. lia.
    + destruct (sep =? "]")%char; [|discriminate].
      intros [= <- <-]. simpl in *. lia.
Qed.

(** Fuel beyond twice the length of the text changes nothing: the decoder
    never stops for want of fuel. *)
Lemma parse_fuel_irrelevant (n : nat) :
  forall m,
    (forall l, 2 * length l < n -> 2 * length l < m ->
               parse_value n l = parse_value m l)
    /\ (forall acc l, 2 * length l < n -> 2 * length l < m ->
                      parse_members n acc l = parse_members m acc l)
    /\ (forall acc l, 2 * length l + 1 < n -> 2 * length l + 1 < m ->
                      parse_elements n acc l = parse_elements m acc l).
Proof.
  induction n as [|f IH]; intros m; [repeat split; intros; lia|].
  destruct m as [|g]; [repeat split; intros; lia|].
  destruct (IH g) as (IHv & IHm & IHe).
  repeat split.
  - intros l Hn Hm. cbn [parse_value].
    destruct l as [|c l']; [reflexivity|]. simpl in Hn, Hm.
    pose proof (skip_ws_length l') as W.
    destruct (c =? "{")%char.
    { destruct (skip_ws l') as [|c' r']; [reflexivity|].
      destruct (c' =? "}")%char; [reflexivity|].
      apply IHm; simpl in *; lia. }
    destruct (c =? "[")%char.
    { destruct (skip_ws l') as [|c' r']; [reflexivity|].
      destruct (c' =? "]")%char; [reflexivity|].
      apply IHe; simpl in *; lia. }
    reflexivity.
  - intros acc l Hn Hm. cbn [parse_members].
    destruct l as [|q l']; [reflexivity|]. simpl in Hn, Hm.
    destruct (negb (q =? dquote)%char); [reflexivity|].
    destruct (scan_string [] l') as [[k r1]|] eqn:E1; [|reflexivity].
    apply scan_string_shorter in E1.
    pose proof (skip_ws_length r1) as W1.
    destruct (skip_ws r1) as [|colon r2]; [reflexivity|].
    destruct (negb (colon =? ":")%char); [reflexivity|].
    pose proof (skip_ws_length r2) as W2.
    rewrite (IHv (skip_ws r2)) by (simpl in *; lia).
    destruct (parse_value g (skip_ws r2)) as [[x r3]|] eqn:E3; [|reflexivity].
    apply (proj1 (parse_shorter g)) in E3.
    pose proof (skip_ws_length r3) as W3.
    destruct (skip_ws r3) as [|sep r4]; [reflexivity|].
    pose proof (skip_ws_length r4) as W4.
    destruct (sep =? ",")%char; [|reflexivity].
    apply IHm; simpl in *; lia.
  - intros acc l Hn Hm. cbn [parse_elements].
    rewrite (IHv l) by lia.
    destruct (parse_value g l) as [[x r1]|] eqn:E1; [|reflexivity].
    apply (proj1 (parse_shorter g)) in E1.
    pose proof (skip_ws_length r1) as W1.
    destruct (skip_ws r1) as [|sep r2]; [reflexivity|].
    pose proof (skip_ws_length r2) as W2.
    destruct (sep =? ",")%char; [|reflexivity].
    apply IHe; simpl in *; lia.
Qed.

(** [loads_chars] with any larger fuel decodes the same. *)
Lemma loads_chars_fuel (l : list ascii) (n : nat) :
  2 * length l < n ->
  parse_value n (skip_ws l) = parse_value (S (2 * length l)) (skip_ws l).
Proof.
  intros H. pose proof (skip_ws_length l).
  apply parse_fuel_irrelevant; lia.
Qed.

End DecoderFacts.

(* ------------------------------------------------------------------ *)
(** ** ResponseExtractor *)

Section ExtractorFacts.
Variable decode : string -> option value.

(** The loop state of [scan] against the state of [spans]. *)
Lemma scan_spans (text : string) :
  forall rest i start stack cur p0,
    chars text = p0 ++ rev cur ++ rest ->
    i = length p0 + length cur ->
    match start with
    | None => stack = [] /\ cur = []
    | Some s => s = length p0 /\ stack <> []
    end ->
    scan decode text i start stack rest
    = first_decoded decode (spans (length stack) cur rest).
Proof.
  induction rest as [|ch rest IH]; intros i start stack cur p0 Htext Hi Hst.
  - reflexivity.
  - cbn [scan spans]. unfold is_open, is_close.
    destruct (ch =? "{")%char eqn:Eo.
    + (* an opening brace *)
      destruct start as [s|].
      * destruct Hst as [Hs Hne].
        apply (IH (S i) (Some s) ("{"%char :: stack) (ch :: cur) p0).
        -- rewrite Htext. simpl. now rewrite <- app_assoc.
        -- simpl. lia.
        -- split; [assumption|discriminate].
      * destruct Hst as [-> ->]. simpl in *.
        apply (IH (S i) (Some i) ["{"%char] [ch] p0).
        -- rewrite Htext. reflexivity.
        -- simpl. lia.
        -- split; [lia|discriminate].
    + destruct (ch =? "}")%char eqn:Ec.
      * destruct stack as [|top stack'].
        -- (* a closing brace at balance zero *)
           destruct start as [s|]; [now destruct Hst|].
           destruct Hst as [_ ->]. simpl in *.
           apply (IH (S i) None [] [] (p0 ++ [ch])).
           ++ rewrite Htext. simpl. now rewrite <- app_assoc.
           ++ rewrite length_app. simpl. lia.
           ++ now split.
        -- destruct start as [s|]; [|now destruct Hst].
           destruct Hst as [Hs _].
           destruct stack' as [|top' stack''].
           ++ (* the span closes *)
              cbn [length first_decoded].
              assert (Hc : substring s (S i - s) text = str (rev (ch :: cur))).
              { rewrite substring_chars, Htext, Hs.
                replace (S i - length p0) with (length (rev cur ++ [ch]))
                  by (rewrite length_app, length_rev; cbn [length]; lia).
                rewrite skipn_app, skipn_all, Nat.sub_diag.
                change (rev (ch :: cur)) with (rev cur ++ [ch]).
                change ([] ++ skipn 0 (rev cur ++ ch :: rest))
                  with (rev cur ++ [ch] ++ rest).
                rewrite app_assoc, firstn_app, firstn_all, Nat.sub_diag.
                cbn [firstn]. now rewrite app_nil_r. }
              rewrite Hc.
              destruct (decode (str (rev (ch :: cur)))); [reflexivity|].
              apply (IH (S i) None [] [] (p0 ++ rev cur ++ [ch])).
              ** rewrite Htext. simpl. now rewrite <- !app_assoc.
              ** rewrite !length_app, length_rev. simpl. lia.
              ** now split.
           ++ cbn [length].
              apply (IH (S i) (Some s) (top' :: stack'') (ch :: cur) p0).
              ** rewrite Htext. simpl. now rewrite <- app_assoc.
              ** simpl. lia.
              ** split; [assumption|discriminate].
      * (* any other character *)
        destruct start as [s|].
        -- destruct Hst as [Hs Hne].
           destruct stack as [|top stack']; [congruence|].
           cbn [length].
           apply (IH (S i) (Some s) (top :: stack') (ch :: cur) p0).
           ++ rewrite Htext. simpl. now rewrite <- app_assoc.
           ++ simpl. lia.
           ++ split; [assumption|discriminate].
        -- destruct Hst as [-> ->]. simpl in *.
           apply (IH (S i) None [] [] (p0 ++ [ch])).
           ++ rewrite Htext. simpl. now rewrite <- app_assoc.
           ++ rewrite length_app. simpl. lia.
           ++ now split.
Qed.

Lemma extract_with_spans (text : string) :
  extract_with decode text = first_decoded decode (top_level_spans text).
Proof.
  unfold extract_with, top_level_spans.
  apply (scan_spans text (chars text) 0 None [] [] []); simpl; auto.
Qed.

End ExtractorFacts.

Section SpanFacts.

Lemma spans_skip_prefix (pre l : list ascii) :
  forallb (fun c => negb (is_open c)) pre = true ->
  spans 0 [] (pre ++ l) = spans 0 [] l.
Proof.
  induction pre as [|c pre IH]; intros H; [reflexivity|].
  simpl in H. apply andb_true_iff in H as [Hc Hpre].
  simpl. apply negb_true_iff in Hc. rewrite Hc.
  destruct (is_close c); auto.
Qed.

Lemma spans_closing (l : list ascii) :
  forall depth cur post,
    closes_at_end (S depth) l = true ->
    spans (S depth) cur (l ++ post) = str (rev cur ++ l) :: spans 0 [] post.
Proof.
  induction l as [|ch l IH]; intros depth cur post H; [discriminate|].
  simpl in *.
  destruct (is_open ch).
  - rewrite (IH _ _ _ H). simpl. now rewrite <- app_assoc.
  - destruct (is_close ch).
    + destruct depth as [|d].
      * destruct l; [|discriminate]. reflexivity.
      * rewrite (IH _ _ _ H). simpl. now rewrite <- app_assoc.
    + rewrite (IH _ _ _ H). simpl. now rewrite <- app_assoc.
Qed.

Lemma spans_embedded_object (pre obj post : string) :
  no_open_brace pre = true ->
  balanced_object obj = true ->
  top_level_spans (pre ++ obj ++ post) = obj :: top_level_spans post.
Proof.
  unfold no_open_brace, balanced_object, top_level_spans.
  intros Hpre Hobj. rewrite !chars_app, (spans_skip_prefix _ _ Hpre).
  destruct (chars obj) as [|ch l] eqn:E; [discriminate|].
  apply andb_true_iff in Hobj as [Ho Hc].
  cbn [app spans]. rewrite Ho, (spans_closing _ _ _ _ Hc).
  cbn [rev app]. rewrite <- E, str_chars. reflexivity.
Qed.

End SpanFacts.

Lemma first_decoded_none (decode : string -> option value) (l : list string) :
  first_decoded decode l = None <-> Forall (fun s => decode s = None) l.
Proof.
  induction l as [|s l IH]; simpl.
  - split; [constructor|reflexivity].
  - destruct (decode s) eqn:E.
    + split; [discriminate|]. intros H. inversion H; subst. congruence.
    + rewrite IH. split; intros H; [now constructor|now inversion H].
Qed.

(** C1 (amended): [extract_json] returns the value of the first top-level
    brace-balanced span of the text that decodes as JSON, where the balance
    counts every brace character, also those inside string literals, and it
    fails exactly when no top-level span decodes.  In particular an object
    text that is balanced in this sense and decodes is returned whatever
    text without an opening brace precedes it and whatever text follows.
    This holds of the scan with any decoder in the place of [json.loads];
    [_extract_first_json] is [extract_with Json.loads]. *)
Theorem extract_first_json_top_level_span :
  forall decode,
    (forall text,
        extract_with decode text = first_decoded decode (top_level_spans text))
    /\ (forall text,
          extract_with decode text = None
          <-> Forall (fun s => decode s = None) (top_level_spans text))
    /\ (forall pre obj post v,
          no_open_brace pre = true ->
          balanced_object obj = true ->
          decode obj = Some v ->
          extract_with decode (pre ++ obj ++ post) = Some v).
Proof.
  intros decode. split; [|split].
  - intros text. apply extract_with_spans.
  - intros text. rewrite extract_with_spans. apply first_decoded_none.
  - intros pre obj post v Hpre Hobj Hv.
    rewrite extract_with_spans, (spans_embedded_object _ _ _ Hpre Hobj).
    simpl. now rewrite Hv.
Qed.

Lemma extract_first_json_top_level_span_witness :
  _extract_first_json
    ("Here is the plan: "
     ++ Json.dq "{'tool': 'note_maker', 'parameters': {'topic': 'sets {}'}}"
     ++ " } hope {it helps")
  = Some (VDict [("tool", VStr "note_maker");
                 ("parameters", VDict [("topic", VStr "sets {}")])]).
Proof.
  apply (proj2 (proj2 (extract_first_json_top_level_span Json.loads)));
    reflexivity.
Defined.

(** C1 as stated fails: a text that is one valid JSON object whose string
    value holds a closing brace is not extracted; the scan closes the span
    at the brace inside the string. *)
Lemma extract_first_json_brace_in_string :
  Json.loads (Json.dq "{'a': '}'}") = Some (VDict [("a", VStr "}")])
  /\ _extract_first_json (Json.dq "{'a': '}'}") = None.
Proof. split; reflexivity. Qed.

(* ------------------------------------------------------------------ *)
(** ** Dicts *)

Section DictFacts.

Lemma dict_get_set_eq (d : dict) k v : dict_get (dict_set d k v) k = Some v.
Proof.
  induction d as [|[k' v'] d IH]; simpl.
  - now rewrite String.eqb_refl.
  - destruct (k' =? k)%string eqn:E; simpl.
    + now rewrite String.eqb_refl.
    + now rewrite E.
Qed.

Lemma dict_get_set_ne (d : dict) k v k' :
  k <> k' -> dict_get (dict_set d k v) k' = dict_get d k'.
Proof.
  intros Hne. induction d as [|[k0 v0] d IH]; simpl.
  - apply String.eqb_neq in Hne. now rewrite Hne.
  - destruct (k0 =? k)%string eqn:E; simpl.
    + apply String.eqb_eq in E. subst k0.
      apply String.eqb_neq in Hne. now rewrite Hne.
    + destruct (k0 =? k')%string; auto.
Qed.

Lemma dict_get_set (d : dict) k v k' :
  dict_get (dict_set d k v) k' = if (k =? k')%string then Some v else dict_get d k'.
Proof.
  destruct (k =? k')%string eqn:E.
  - apply String.eqb_eq in E. subst. apply dict_get_set_eq.
  - apply String.eqb_neq in E. now apply dict_get_set_ne.
Qed.

Lemma dict_setdefault_has (d : dict) k v :
  dict_has d k = true -> dict_setdefault d k v = d.
Proof. unfold dict_setdefault. now intros ->. Qed.

Lemma dict_get_setdefault (d : dict) k v k' :
  dict_get (dict_setdefault d k v) k'
  = if (k =? k')%string && negb (dict_has d k) then Some v else dict_get d k'.
Proof.
  unfold dict_setdefault. destruct (dict_has d k) eqn:H.
  - now rewrite andb_false_r.
  - rewrite andb_true_r. apply dict_get_set.
Qed.

Lemma dict_get_setdefault_kept (d : dict) k v k' x :
  dict_get d k' = Some x -> dict_get (dict_setdefault d k v) k' = Some x.
Proof.
  intros H. rewrite dict_get_setdefault.
  destruct (k =? k')%string eqn:E; simpl; [|assumption].
  apply String.eqb_eq in E. subst k'.
  unfold dict_has. now rewrite H.
Qed.

Lemma dict_get_setdefault_ne (d : dict) k v k' :
  k <> k' -> dict_get (dict_setdefault d k v) k' = dict_get d k'.
Proof.
  intros H. rewrite dict_get_setdefault.
  apply String.eqb_neq in H. now rewrite H.
Qed.

Lemma dict_get_setdefault_new (d : dict) k v :
  dict_has d k = false -> dict_get (dict_setdefault d k v) k = Some v.
Proof.
  intros H. rewrite dict_get_setdefault, String.eqb_refl, H. reflexivity.
Qed.

Lemma dict_has_setdefault_ne (d : dict) k v k' :
  k <> k' -> dict_has (dict_setdefault d k v) k' = dict_has d k'.
Proof. intros H. unfold dict_has. now rewrite dict_get_setdefault_ne. Qed.


Lemma dict_get_in (d : dict) k v : dict_get d k = Some v -> In (k, v) d.
Proof.
  induction d as [|[k' v'] d IH]; simpl; [discriminate|].
  destruct (String.eqb_spec k' k) as [->|Hne].
  - intros [= ->]. now left.
  - intros H. right. auto.
Qed.

Lemma dict_get_none_keys (d : dict) k : dict_get d k = None -> ~ In k (dict_keys d).
Proof.
  induction d as [|[k' v'] d IH]; simpl; [tauto|].
  destruct (String.eqb_spec k' k) as [->|Hne]; [discriminate|].
  intros H [E|HIn]; [congruence|]. now apply IH.
Qed.

Lemma in_wf_dict_get (d : dict) k v : wf_dict d -> In (k, v) d -> dict_get d k = Some v.
Proof.
  unfold wf_dict. induction d as [|[k' v'] d IH]; simpl; [tauto|].
  intros Hnd [E|HIn].
  - injection E as -> ->. now rewrite String.eqb_refl.
  - inversion Hnd as [|? ? Hk Hd]; subst.
    destruct (String.eqb_spec k' k) as [->|Hne]; [|auto].
    exfalso. apply Hk. change k with (fst (k, v)). now apply in_map.
Qed.

Lemma dict_keys_set (d : dict) k v :
  dict_keys (dict_set d k v)
  = if dict_has d k then dict_keys d else dict_keys d ++ [k].
Proof.
  unfold dict_has. induction d as [|[k' v'] d IH]; simpl; [reflexivity|].
  destruct (String.eqb_spec k' k) as [->|Hne]; simpl; [reflexivity|].
  rewrite IH. now destruct (dict_get d k).
Qed.

Lemma wf_dict_set (d : dict) k v : wf_dict d -> wf_dict (dict_set d k v).
Proof.
  unfold wf_dict. intros H. rewrite dict_keys_set.
  unfold dict_has. destruct (dict_get d k) eqn:E; [assumption|].
  apply NoDup_app; [assumption|repeat constructor; simpl; tauto|].
  intros x Hx [Ex|[]]. subst x. now apply (dict_get_none_keys d k E).
Qed.

Lemma dict_has_set (d : dict) k v k' :
  dict_has (dict_set d k v) k' = (k =? k')%string || dict_has d k'.
Proof.
  unfold dict_has. rewrite dict_get_set. now destruct (k =? k')%string.
Qed.

Lemma Forall_dict_set (P : string * value -> Prop) (d : dict) k v :
  Forall P d -> P (k, v) -> Forall P (dict_set d k v).
Proof.
  intros Hd Hkv. induction d as [|[k' v'] d IH]; simpl.
  - now constructor.
  - inversion Hd; subst. destruct (k' =? k)%string; constructor; auto.
Qed.

Lemma dict_get_filter (p : string -> bool) (d : dict) k :
  dict_get (dict_filter p d) k = if p k then dict_get d k else None.
Proof.
  unfold dict_filter. induction d as [|[k' v'] d IH]; simpl.
  - now destruct (p k).
  - destruct (p k') eqn:Ek'; simpl.
    + destruct (String.eqb_spec k' k) as [->|Hne]; [now rewrite Ek'|assumption].
    + destruct (String.eqb_spec k' k) as [->|Hne]; [now rewrite IH, Ek'|assumption].
Qed.

Lemma assoc_in {A} (l : list (string * A)) k a : assoc l k = Some a -> In (k, a) l.
Proof.
  induction l as [|[k' a'] l IH]; simpl; [discriminate|].
  destruct (String.eqb_spec k' k) as [->|Hne].
  - intros [= ->]. now left.
  - intros H. right. auto.
Qed.

Lemma fold_left_fixed {A B} (f : A -> B -> A) (l : list B) (a : A) :
  (forall x b, In b l -> f x b = x) -> fold_left f l a = a.
Proof.
  induction l as [|b l IH]; intros H; simpl; [reflexivity|].
  rewrite (H a b) by now left. apply IH. intros x b' Hb. apply H. now right.
Qed.

End DictFacts.

(* ------------------------------------------------------------------ *)
(** ** The post-merge defaulting pass *)

Section DefaultsFacts.

Lemma tier_cases (lvl : Z) (A : Type) (a b c : A) :
  (if (lvl <=? 3)%Z then a else if (lvl <=? 6)%Z then b else c)
  = match tier_of lvl with Low => a | Mid => b | High => c end.
Proof. unfold tier_of. destruct (lvl <=? 3)%Z, (lvl <=? 6)%Z; reflexivity. Qed.

Lemma infer_defaults_flashcard params ctx :
  _infer_defaults params "flashcard_generator" ctx
  = dict_setdefault (dict_setdefault params "count" (VInt 5)) "difficulty"
      (VStr (difficulty_of (tier_of (second_token_level ctx)))).
Proof.
  unfold _infer_defaults. cbn [String.eqb Ascii.eqb Bool.eqb].
  rewrite tier_cases. now destruct (tier_of _).
Qed.

Lemma infer_defaults_explainer params ctx :
  _infer_defaults params "concept_explainer" ctx
  = dict_setdefault
      (dict_setdefault params "desired_depth"
         (VStr (depth_of (tier_of (second_token_level ctx)))))
      "include_examples" (VBool true).
Proof.
  unfold _infer_defaults. cbn [String.eqb Ascii.eqb Bool.eqb].
  rewrite tier_cases. now destruct (tier_of _).
Qed.

Lemma infer_defaults_note_maker params ctx :
  _infer_defaults params "note_maker" ctx
  = let visual :=
      (PyStr.lower (ctx_get_or ctx "preferred_teaching_style" "") =? "visual")%string in
    dict_setdefault
      (dict_setdefault
         (dict_setdefault params "note_taking_style"
            (if visual then VStr "structured"
             else dict_get_or params "note_taking_style" (VStr "outline")))
         "include_examples" (VBool true))
      "include_analogies" (VBool visual).
Proof.
  unfold _infer_defaults. cbn [String.eqb Ascii.eqb Bool.eqb].
  now destruct (_ =? "visual")%string.
Qed.

Lemma infer_defaults_other params tool ctx :
  tool <> "flashcard_generator" -> tool <> "note_maker" ->
  tool <> "concept_explainer" ->
  _infer_defaults params tool ctx = params.
Proof.
  intros H1 H2 H3. unfold _infer_defaults.
  apply String.eqb_neq in H1, H2, H3. now rewrite H1, H2, H3.
Qed.

End DefaultsFacts.

Lemma infer_defaults_keeps params tool ctx k v :
  dict_get params k = Some v ->
  dict_get (_infer_defaults params tool ctx) k = Some v.
Proof.
  intros Hv.
  destruct (String.eqb_spec tool "flashcard_generator") as [->|H1];
    [|destruct (String.eqb_spec tool "note_maker") as [->|H2];
      [|destruct (String.eqb_spec tool "concept_explainer") as [->|H3]]].
  - rewrite infer_defaults_flashcard. now repeat apply dict_get_setdefault_kept.
  - rewrite infer_defaults_note_maker. cbv zeta.
    now repeat apply dict_get_setdefault_kept.
  - rewrite infer_defaults_explainer. now repeat apply dict_get_setdefault_kept.
  - now rewrite infer_defaults_other.
Qed.

Lemma infer_defaults_untouched params tool ctx k :
  ~ In k default_targets ->
  dict_get (_infer_defaults params tool ctx) k = dict_get params k.
Proof.
  intros Hk. unfold default_targets in Hk. simpl in Hk.
  destruct (String.eqb_spec tool "flashcard_generator") as [->|H1];
    [|destruct (String.eqb_spec tool "note_maker") as [->|H2];
      [|destruct (String.eqb_spec tool "concept_explainer") as [->|H3]]].
  - rewrite infer_defaults_flashcard. rewrite !dict_get_setdefault_ne; intuition.
  - rewrite infer_defaults_note_maker. cbv zeta.
    rewrite !dict_get_setdefault_ne; intuition.
  - rewrite infer_defaults_explainer. rewrite !dict_get_setdefault_ne; intuition.
  - now rewrite infer_defaults_other.
Qed.

(** C7: the post-merge defaulting pass keeps every field the mapping
    already holds, and changes no field outside its default targets
    (count, difficulty, desired_depth, note_taking_style, include_examples,
    include_analogies). *)
Theorem infer_defaults_frame :
  forall params tool ctx k,
    (forall v, dict_get params k = Some v ->
               dict_get (_infer_defaults params tool ctx) k = Some v)
    /\ (~ In k default_targets ->
        dict_get (_infer_defaults params tool ctx) k = dict_get params k).
Proof.
  intros params tool ctx k. split.
  - intros v. apply infer_defaults_keeps.
  - apply infer_defaults_untouched.
Qed.

Lemma infer_defaults_frame_witness :
  let params := [("topic", VStr "limits"); ("difficulty", VStr "hard")] in
  let ctx := [("mastery_level_summary", "Level 2")] in
  dict_get (_infer_defaults params "flashcard_generator" ctx) "difficulty"
  = Some (VStr "hard")
  /\ dict_get (_infer_defaults params "flashcard_generator" ctx) "topic"
     = dict_get params "topic".
Proof.
  intros params ctx. split.
  - apply (proj1 (infer_defaults_frame params "flashcard_generator" ctx "difficulty")).
    reflexivity.
  - apply (proj2 (infer_defaults_frame params "flashcard_generator" ctx "topic")).
    unfold default_targets. simpl. intuition discriminate.
Defined.

(* ------------------------------------------------------------------ *)
(** ** Tokens and integer literals *)

Section SplitFacts.

Lemma split_chars_run (run : list ascii) :
  forall cur l,
    forallb (fun c => negb (is_space c)) run = true ->
    split_chars cur (run ++ l) = split_chars (rev run ++ cur) l.
Proof.
  induction run as [|c run IH]; intros cur l H; [reflexivity|].
  simpl in H. apply andb_true_iff in H as [Hc Hrun].
  apply negb_true_iff in Hc. simpl. rewrite Hc, (IH _ _ Hrun).
  now rewrite <- app_assoc.
Qed.

(** With a token under way, the next token is that one, continued up to
    the next space. *)
Lemma split_chars_head (l : list ascii) :
  forall cur, cur <> [] ->
    exists toks,
      split_chars cur l
      = str (rev cur ++ take_while (fun c => negb (is_space c)) l) :: toks.
Proof.
  induction l as [|c l IH]; intros cur Hcur.
  - destruct cur; [congruence|]. exists []. simpl. now rewrite app_nil_r.
  - simpl. destruct (is_space c) eqn:Ec; simpl.
    + destruct cur; [congruence|]. eexists. now rewrite app_nil_r.
    + destruct (IH (c :: cur)) as [toks E]; [discriminate|].
      exists toks. rewrite E. simpl. now rewrite <- app_assoc.
Qed.

Lemma take_while_all (p : ascii -> bool) (l : list ascii) :
  forallb p (take_while p l) = true.
Proof.
  induction l as [|c l IH]; simpl; [reflexivity|].
  destruct (p c) eqn:E; simpl; [now rewrite E|reflexivity].
Qed.

Lemma drop_while_none (p : ascii -> bool) (c : ascii) (l : list ascii) :
  p c = false -> drop_while p (c :: l) = c :: l.
Proof. intros H. simpl. now rewrite H. Qed.

Lemma strip_chars_no_space (l : list ascii) :
  forallb (fun c => negb (is_space c)) l = true -> strip_chars l = l.
Proof.
  intros H. unfold strip_chars.
  assert (D : forall m, forallb (fun c => negb (is_space c)) m = true ->
                        drop_while is_space m = m).
  { intros [|c m] Hm; [reflexivity|]. simpl in Hm.
    apply andb_true_iff in Hm as [Hc _]. apply negb_true_iff in Hc.
    now apply drop_while_none. }
  rewrite (D l H), D, rev_involutive; [reflexivity|].
  apply forallb_forall. intros x Hx. apply in_rev in Hx.
  now apply (proj1 (forallb_forall _ l) H).
Qed.

Lemma int_digits_colon (ds : list ascii) :
  forall acc prev more,
    forallb is_digit ds = true ->
    int_digits acc prev (ds ++ ":"%char :: more) = None.
Proof.
  induction ds as [|d ds IH]; intros acc prev more H.
  - reflexivity.
  - simpl in H. apply andb_true_iff in H as [Hd Hds].
    simpl. rewrite Hd. now apply IH.
Qed.

Lemma digit_not_space (c : ascii) : is_digit c = true -> is_space c = false.
Proof.
  unfold is_digit, is_space, in_range. intros H.
  apply andb_true_iff in H as [H1 H2].
  apply Nat.leb_le in H1, H2.
  repeat rewrite orb_false_iff. repeat split.
  - apply andb_false_iff. right. apply Nat.leb_gt. lia.
  - apply andb_false_iff. right. apply Nat.leb_gt. lia.
  - apply Nat.eqb_neq. lia.
  - apply Nat.eqb_neq. lia.
Qed.

Lemma digit_not_sign (c : ascii) :
  is_digit c = true -> (c =? "-")%char = false /\ (c =? "+")%char = false.
Proof.
  intros H. split; apply Ascii.eqb_neq; intros ->; discriminate.
Qed.

(** A token made of digits, a colon and more text is no [int] literal. *)
Lemma int_of_str_colon (ds more : list ascii) :
  forallb is_digit ds = true ->
  forallb (fun c => negb (is_space c)) more = true ->
  int_of_str (str (ds ++ ":"%char :: more)) = None.
Proof.
  intros Hds Hmore. unfold int_of_str. cbv zeta.
  rewrite chars_str, strip_chars_no_space.
  - destruct (negb (within_digit_limit _)); [reflexivity|].
    destruct ds as [|d ds]; [reflexivity|].
    simpl in Hds. apply andb_true_iff in Hds as [Hd Hds].
    destruct (digit_not_sign d Hd) as [E1 E2].
    cbn [app]. rewrite E1, E2.
    apply (int_digits_colon (d :: ds)). simpl. now rewrite Hd.
  - rewrite forallb_app. apply andb_true_iff. split.
    + apply forallb_forall. intros x Hx. apply negb_true_iff, digit_not_space.
      now apply (proj1 (forallb_forall _ ds) Hds).
    + simpl. now rewrite Hmore.
Qed.

Lemma split_level_colon (N rest : string) :
  forallb is_digit (chars N) = true ->
  exists tok toks,
    split ("Level " ++ N ++ ":" ++ rest) = "Level" :: tok :: toks
    /\ int_of_str tok = None.
Proof.
  intros HN. unfold split. rewrite !chars_app.
  change (chars "Level ") with (chars "Level" ++ [" "%char]).
  rewrite <- app_assoc.
  rewrite (split_chars_run (chars "Level")) by reflexivity.
  cbn [app split_chars rev]. change (is_space " ") with true. cbn iota.
  rewrite split_chars_run.
  2:{ apply forallb_forall. intros x Hx. apply negb_true_iff, digit_not_space.
      now apply (proj1 (forallb_forall _ _) HN). }
  change (chars ":" ++ chars rest) with (":"%char :: chars rest).
  cbn [split_chars]. change (is_space ":") with false. cbn iota.
  destruct (split_chars_head (chars rest) (":"%char :: rev (chars N) ++ []))
    as [toks E]; [discriminate|].
  rewrite E. eexists. exists toks. split; [reflexivity|].
  cbn [rev]. rewrite app_nil_r, rev_involutive, <- app_assoc.
  apply int_of_str_colon; [assumption|apply take_while_all].
Qed.

End SplitFacts.

(** C10: the post-merge pass reads the level as the integer value of the
    second whitespace-separated token of [mastery_level_summary] ("Level 4"
    when the profile has no summary), and 4 when there is no second token
    or [int] does not convert it; by that level it defaults a difficulty
    or a desired_depth that is absent: "easy" / "basic" up to 3, "medium" /
    "intermediate" up to 6, "hard" / "advanced" above.  When the second
    token is no integer literal, as in the documented "Level N: ..." where
    the colon is attached to the digits, the level is 4 and the pass
    defaults to the middle tier, whatever N is. *)
Theorem post_merge_level_is_second_token :
  forall ctx params,
    let summary := ctx_get_or ctx "mastery_level_summary" "Level 4" in
    let level :=
      match nth_error (split summary) 1 with
      | Some token =>
          match int_of_str token with
          | Some n => n
          | None => 4%Z
          end
      | None => 4%Z
      end in
    dict_get (_infer_defaults params "flashcard_generator" ctx) "difficulty"
    = Some (dict_get_or params "difficulty"
              (VStr (if (level <=? 3)%Z then "easy"
                     else if (level <=? 6)%Z then "medium" else "hard")))
    /\ dict_get (_infer_defaults params "concept_explainer" ctx) "desired_depth"
       = Some (dict_get_or params "desired_depth"
                 (VStr (if (level <=? 3)%Z then "basic"
                        else if (level <=? 6)%Z then "intermediate"
                        else "advanced")))
    /\ ((forall tok, nth_error (split summary) 1 = Some tok -> int_of_str tok = None)
        \/ (exists N rest,
              forallb is_digit (chars N) = true
              /\ summary = ("Level " ++ N ++ ":" ++ rest)%string) ->
        level = 4%Z
        /\ dict_get (_infer_defaults params "flashcard_generator" ctx) "difficulty"
           = Some (dict_get_or params "difficulty" (VStr "medium"))
        /\ dict_get (_infer_defaults params "concept_explainer" ctx) "desired_depth"
           = Some (dict_get_or params "desired_depth" (VStr "intermediate"))).
Proof.
  intros ctx params summary level.
  assert (Hlvl : second_token_level ctx = level) by reflexivity.
  assert (Hf : dict_get (_infer_defaults params "flashcard_generator" ctx) "difficulty"
               = Some (dict_get_or params "difficulty"
                         (VStr (if (level <=? 3)%Z then "easy"
                                else if (level <=? 6)%Z then "medium" else "hard")))).
  { rewrite infer_defaults_flashcard, Hlvl. rewrite dict_get_setdefault.
    cbn [String.eqb Ascii.eqb Bool.eqb andb].
    unfold dict_has. rewrite dict_get_setdefault_ne by discriminate.
    unfold dict_get_or, tier_of.
    destruct (dict_get params "difficulty"); [reflexivity|].
    now destruct (level <=? 3)%Z, (level <=? 6)%Z. }
  assert (He : dict_get (_infer_defaults params "concept_explainer" ctx) "desired_depth"
               = Some (dict_get_or params "desired_depth"
                         (VStr (if (level <=? 3)%Z then "basic"
                                else if (level <=? 6)%Z then "intermediate"
                                else "advanced")))).
  { rewrite infer_defaults_explainer, Hlvl.
    rewrite dict_get_setdefault_ne by discriminate.
    rewrite dict_get_setdefault.
    cbn [String.eqb Ascii.eqb Bool.eqb andb].
    unfold dict_has, dict_get_or, tier_of.
    destruct (dict_get params "desired_depth"); [reflexivity|].
    now destruct (level <=? 3)%Z, (level <=? 6)%Z. }
  split; [exact Hf|]. split; [exact He|].
  intros H.
  assert (H4 : level = 4%Z).
  { unfold level. destruct H as [H|(N & rest & HN & E)].
    - destruct (nth_error (split summary) 1) as [tok|]; [|reflexivity].
      now rewrite (H tok eq_refl).
    - rewrite E.
      destruct (split_level_colon N rest HN) as (tok & toks & -> & Et).
      simpl. now rewrite Et. }
  split; [exact H4|].
  rewrite Hf, He, H4. split; reflexivity.
Qed.

Lemma post_merge_level_is_second_token_witness :
  let ctx := [("mastery_level_summary", "Level 9: Mastery of the subject")] in
  let ctx' := [("mastery_level_summary", "Level 7 and rising")] in
  dict_get (_infer_defaults [] "flashcard_generator" ctx) "difficulty"
  = Some (VStr "medium")
  /\ dict_get (_infer_defaults [] "concept_explainer" ctx) "desired_depth"
     = Some (VStr "intermediate")
  /\ dict_get (_infer_defaults [] "flashcard_generator" ctx') "difficulty"
     = Some (VStr "hard")
  /\ dict_get (_infer_defaults [] "concept_explainer" ctx') "desired_depth"
     = Some (VStr "advanced").
Proof.
  intros ctx ctx'.
  split; [|split; [|split]].
  - apply (proj2 (proj2 (post_merge_level_is_second_token ctx []))).
    right. exists "9", " Mastery of the subject". split; reflexivity.
  - apply (proj2 (proj2 (post_merge_level_is_second_token ctx []))).
    right. exists "9", " Mastery of the subject". split; reflexivity.
  - apply (proj1 (post_merge_level_is_second_token ctx' [])).
  - apply (proj1 (proj2 (post_merge_level_is_second_token ctx' []))).
Defined.


(* ------------------------------------------------------------------ *)
(** ** SchemaValidator *)

Section SchemaFacts.

Lemma registered_tools tool s :
  assoc TOOL_PARAM_SCHEMAS tool = Some s ->
  tool = "note_maker" \/ tool = "flashcard_generator" \/ tool = "concept_explainer".
Proof.
  unfold TOOL_PARAM_SCHEMAS. cbn [assoc].
  destruct (String.eqb_spec "note_maker" tool); [now left|].
  destruct (String.eqb_spec "flashcard_generator" tool); [now (right; left)|].
  destruct (String.eqb_spec "concept_explainer" tool); [now (right; right)|].
  discriminate.
Qed.

Lemma registered_props tool s k ps :
  assoc TOOL_PARAM_SCHEMAS tool = Some s ->
  In (k, ps) (properties s) -> assoc (properties s) k = Some ps.
Proof.
  intros Hs. destruct (registered_tools _ _ Hs) as [->|[->| ->]];
    injection Hs as <-; simpl;
    intros H; repeat (destruct H as [[= <- <-]|H]; [reflexivity|]); destruct H.
Qed.

Lemma registered_required tool s k :
  assoc TOOL_PARAM_SCHEMAS tool = Some s ->
  In k (required s) -> exists ps, assoc (properties s) k = Some ps.
Proof.
  intros Hs. destruct (registered_tools _ _ Hs) as [->|[->| ->]];
    injection Hs as <-; simpl;
    intros H; repeat (destruct H as [<-|H]; [eexists; reflexivity|]); destruct H.
Qed.

Lemma check_prop_none ps : check_prop ps VNone = false.
Proof. unfold check_prop. now destruct (p_type ps). Qed.

Lemma validate_intro (s : schema) (d : dict) :
  (forall k, In k (required s) -> dict_has d k = true) ->
  fields_conform s d ->
  (forall k ps, In (k, ps) (properties s) -> assoc (properties s) k = Some ps) ->
  validate (VDict d) s = true.
Proof.
  intros Hreq Hconf Hprops. unfold validate. apply andb_true_iff. split.
  - apply forallb_forall. exact Hreq.
  - apply forallb_forall. intros [k ps] Hin. simpl.
    destruct (dict_get d k) as [v|] eqn:E; [|reflexivity].
    apply (Hconf k ps v); auto.
Qed.

Lemma validate_elim (s : schema) (d : dict) :
  validate (VDict d) s = true ->
  (forall k, In k (required s) -> dict_has d k = true) /\ fields_conform s d.
Proof.
  unfold validate. intros H. apply andb_true_iff in H as [Hreq Hprops].
  split.
  - now apply forallb_forall.
  - intros k ps v Ha Hg. apply assoc_in in Ha.
    pose proof (proj1 (forallb_forall _ _) Hprops (k, ps) Ha) as Hc.
    simpl in Hc. now rewrite Hg in Hc.
Qed.

Lemma forallb_pointwise {A} (f g : A -> bool) (l : list A) :
  (forall a, f a = g a) -> forallb f l = forallb g l.
Proof. intros H. induction l as [|a l IH]; simpl; [reflexivity|]. now rewrite H, IH. Qed.

(** [validate] reads the instance through its lookups only. *)
Lemma validate_ext (s : schema) (d d' : dict) :
  (forall k, dict_get d k = dict_get d' k) ->
  validate (VDict d) s = validate (VDict d') s.
Proof.
  intros H. unfold validate. f_equal.
  - apply forallb_pointwise. intros k. unfold dict_has. now rewrite H.
  - apply forallb_pointwise. intros [k ps]. simpl. now rewrite H.
Qed.

End SchemaFacts.

(* ------------------------------------------------------------------ *)
(** ** ParameterInferencer *)

Section InferenceFacts.
Variables (msg : string) (ctx : context).


(** A turn of the loop writes the key it is at, or nothing. *)
Lemma infer_key_shape tool f key :
  infer_key msg ctx tool f key = f
  \/ exists v, infer_key msg ctx tool f key = dict_set f key v.
Proof.
  unfold infer_key. cbv beta zeta. split_ifs; subst;
    solve [now left | right; eexists; reflexivity].
Qed.

Lemma infer_key_get_other tool f key k :
  key <> k ->
  dict_get (infer_key msg ctx tool f key) k = dict_get f k.
Proof.
  intros Hne. destruct (infer_key_shape tool f key) as [->|[v ->]]; [reflexivity|].
  now apply dict_get_set_ne.
Qed.

Lemma infer_key_wf tool f key :
  wf_dict f -> wf_dict (infer_key msg ctx tool f key).
Proof.
  intros H. destruct (infer_key_shape tool f key) as [->|[v ->]]; [assumption|].
  now apply wf_dict_set.
Qed.

Lemma infer_key_has tool f key k :
  dict_has f k = true -> dict_has (infer_key msg ctx tool f key) k = true.
Proof.
  intros H. destruct (infer_key_shape tool f key) as [->|[v ->]]; [assumption|].
  rewrite dict_has_set, H. apply orb_true_r.
Qed.

(** Every required field of a registered tool has a rule. *)
Lemma infer_key_writes tool s f key :
  assoc TOOL_PARAM_SCHEMAS tool = Some s ->
  In key (required s) ->
  dict_has (infer_key msg ctx tool f key) key = true.
Proof.
  intros Hs. destruct (registered_tools _ _ Hs) as [->|[->| ->]];
    injection Hs as <-; simpl;
    intros H; repeat (destruct H as [<-|H]; [|]); try destruct H;
    unfold infer_key; cbv beta zeta; cbn [String.eqb Ascii.eqb Bool.eqb];
    split_ifs; rewrite dict_has_set; reflexivity.
Qed.

Lemma infer_key_conform tool s f key :
  assoc TOOL_PARAM_SCHEMAS tool = Some s ->
  entries_conform s f -> entries_conform s (infer_key msg ctx tool f key).
Proof.
  intros Hs Hf. unfold entries_conform in *.
  destruct (registered_tools _ _ Hs) as [->|[->| ->]];
    injection Hs as <-;
    unfold infer_key; cbv beta zeta; cbn [String.eqb Ascii.eqb Bool.eqb];
    split_ifs; subst; try assumption;
    apply Forall_dict_set; try assumption;
    intros ps; cbn [fst snd assoc properties String.eqb Ascii.eqb Bool.eqb];
    intros [= <-]; try reflexivity.
  (* current_topic takes over the value of concept_to_explain *)
  unfold dict_get_or.
  destruct (dict_get f "concept_to_explain") as [v|] eqn:E; [|reflexivity].
  apply dict_get_in in E.
  apply (proj1 (Forall_forall _ _) Hf _ E). reflexivity.
Qed.

Lemma fold_infer_get_other tool missing :
  forall f k, ~ In k missing ->
    dict_get (fold_left (infer_key msg ctx tool) missing f) k = dict_get f k.
Proof.
  induction missing as [|a m IH]; intros f k Hk; [reflexivity|].
  simpl. rewrite IH by (intros H; apply Hk; now right).
  apply infer_key_get_other. intros ->. apply Hk. now left.
Qed.

Lemma fold_infer_wf tool missing :
  forall f, wf_dict f -> wf_dict (fold_left (infer_key msg ctx tool) missing f).
Proof.
  induction missing as [|a m IH]; intros f H; [assumption|].
  simpl. apply IH. now apply infer_key_wf.
Qed.

Lemma fold_infer_has tool missing :
  forall f k, dict_has f k = true ->
    dict_has (fold_left (infer_key msg ctx tool) missing f) k = true.
Proof.
  induction missing as [|a m IH]; intros f k H; [assumption|].
  simpl. apply IH. now apply infer_key_has.
Qed.

Lemma fold_infer_conform tool s missing :
  assoc TOOL_PARAM_SCHEMAS tool = Some s ->
  forall f, entries_conform s f ->
    entries_conform s (fold_left (infer_key msg ctx tool) missing f).
Proof.
  intros Hs. induction missing as [|a m IH]; intros f H; [assumption|].
  simpl. apply IH. now apply infer_key_conform.
Qed.

Lemma fold_infer_writes tool s missing :
  assoc TOOL_PARAM_SCHEMAS tool = Some s ->
  forall f k, In k (required s) -> In k missing ->
    dict_has (fold_left (infer_key msg ctx tool) missing f) k = true.
Proof.
  intros Hs. induction missing as [|a m IH]; intros f k Hreq Hin; [destruct Hin|].
  simpl. destruct Hin as [->|Hin].
  - apply fold_infer_has. now apply (infer_key_writes tool s).
  - now apply IH.
Qed.

(** A key whose rule writes the same value wherever it runs ends with it. *)
Lemma fold_infer_const tool key v :
  (forall f, infer_key msg ctx tool f key = dict_set f key v) ->
  forall missing f, In key missing ->
    dict_get (fold_left (infer_key msg ctx tool) missing f) key = Some v.
Proof.
  intros Hw. induction missing as [|a m IH]; intros f Hin; [destruct Hin|].
  simpl. destruct (in_dec string_dec key m) as [Hm|Hm]; [now apply IH|].
  destruct Hin as [->|Hin]; [|contradiction].
  rewrite fold_infer_get_other by assumption.
  rewrite Hw. apply dict_get_set_eq.
Qed.

(** The safety loop leaves a mapping alone when no typed field is null. *)
Lemma safety_fixed tool s f :
  assoc TOOL_PARAM_SCHEMAS tool = Some s ->
  entries_conform s f ->
  fold_left (safety_item msg tool) f f = f.
Proof.
  intros Hs Hf. apply fold_left_fixed. intros x [k v] Hin.
  unfold safety_item. cbn [fst snd].
  destruct v; try reflexivity.
  unfold properties_of. rewrite Hs.
  destruct (assoc (properties s) k) as [ps|] eqn:E; [|reflexivity].
  pose proof (proj1 (Forall_forall _ _) Hf _ Hin ps E) as Hc.
  cbn [snd] in Hc. now rewrite check_prop_none in Hc.
Qed.

Lemma safety_item_shape tool x kv :
  safety_item msg tool x kv = x
  \/ (snd kv = VNone /\ exists v, safety_item msg tool x kv = dict_set x (fst kv) v).
Proof.
  unfold safety_item. destruct (snd kv); try (now left).
  destruct (option_map p_type _) as [[]|]; try (now left);
    right; split; try reflexivity; eexists; reflexivity.
Qed.

(** The safety loop keeps every field that is not null. *)
Lemma safety_keeps tool f k v :
  wf_dict f -> dict_get f k = Some v -> v <> VNone ->
  dict_get (fold_left (safety_item msg tool) f f) k = Some v.
Proof.
  intros Hwf Hg Hv.
  assert (G : forall snap x,
             (forall kv, In kv snap -> In kv f) ->
             dict_get x k = Some v ->
             dict_get (fold_left (safety_item msg tool) snap x) k = Some v).
  { induction snap as [|kv snap IH]; intros x Hsub Hx; [assumption|].
    simpl. apply IH; [intros; apply Hsub; now right|].
    destruct (safety_item_shape tool x kv) as [->|[Hnone [w ->]]]; [assumption|].
    rewrite dict_get_set_ne; [assumption|].
    intros Ek. destruct kv as [k' v']. cbn [fst snd] in *. subst.
    assert (Hin : In (k, VNone) f) by (apply Hsub; now left).
    rewrite (in_wf_dict_get f k VNone Hwf Hin) in Hg. congruence. }
  apply G; auto.
Qed.

Lemma conform_entries (s : schema) (d : dict) :
  wf_dict d -> fields_conform s d -> entries_conform s d.
Proof.
  intros Hwf Hc. apply Forall_forall. intros [k v] Hin ps Hps.
  cbn [fst snd] in *. apply (Hc k ps v Hps). now apply in_wf_dict_get.
Qed.

Lemma entries_conform_fields (s : schema) (d : dict) :
  entries_conform s d -> fields_conform s d.
Proof.
  intros He k ps v Hps Hg. apply dict_get_in in Hg.
  apply (proj1 (Forall_forall _ _) He _ Hg ps Hps).
Qed.

(** The inferencer's output for a mapping whose fields conform: the loop's
    result, untouched by the safety pass, and valid. *)
Lemma infer_valid tool s missing params :
  assoc TOOL_PARAM_SCHEMAS tool = Some s ->
  wf_dict params ->
  fields_conform s params ->
  (forall k, In k (required s) -> dict_has params k = false -> In k missing) ->
  _infer_missing_parameters msg ctx tool missing params
  = fold_left (infer_key msg ctx tool) missing params
  /\ validate (VDict (_infer_missing_parameters msg ctx tool missing params)) s = true.
Proof.
  intros Hs Hwf Hc Hmiss.
  pose proof (fold_infer_conform tool s missing Hs params (conform_entries _ _ Hwf Hc))
    as He.
  assert (E : _infer_missing_parameters msg ctx tool missing params
              = fold_left (infer_key msg ctx tool) missing params).
  { unfold _infer_missing_parameters. cbv zeta. now apply (safety_fixed tool s). }
  split; [assumption|]. rewrite E.
  apply validate_intro.
  - intros k Hk. destruct (dict_has params k) eqn:Ek.
    + now apply fold_infer_has.
    + apply (fold_infer_writes tool s); auto.
  - now apply entries_conform_fields.
  - intros k ps. now apply (registered_props tool).
Qed.

End InferenceFacts.

Section CaseFacts.

Lemma fold_case_lowercase (y : ascii) : in_range 97 122 y = true -> fold_case y = y.
Proof.
  intros Hy. unfold fold_case. 
  destruct (in_range 65 90 y) eqn:E; [|reflexivity].
  unfold in_range in *. apply andb_true_iff in Hy as [H1 _], E as [_ H2].
  apply Nat.leb_le in H1, H2. lia.
Qed.

Lemma code_ascii_of_nat (n : nat) : n < 256 -> code (ascii_of_nat n) = n.
Proof. intros H. unfold code. now apply nat_ascii_embedding. Qed.

Lemma code_bound (c : ascii) : code c < 256.
Proof. apply nat_ascii_bounded. Qed.

Lemma lower_char_lowercase (x y : ascii) :
  in_range 97 122 y = true ->
  (lower_char x =? y)%char = (fold_case x =? fold_case y)%char.
Proof.
  intros Hy. rewrite (fold_case_lowercase y Hy).
  unfold lower_char, fold_case, is_upper.
  destruct (in_range 65 90 x) eqn:E1; [reflexivity|]. cbn [orb].
  destruct (in_range 192 222 x && negb (code x =? 215)%nat) eqn:E2; [|reflexivity].
  apply andb_true_iff in E2 as [E2 _].
  unfold in_range in *. apply andb_true_iff in Hy as [_ Hy], E2 as [Hx1 Hx2].
  apply Nat.leb_le in Hy, Hx1, Hx2.
  transitivity false; [|symmetry]; apply Ascii.eqb_neq; intros Heq.
  - apply (f_equal code) in Heq. rewrite code_ascii_of_nat in Heq by lia. lia.
  - subst y. lia.
Qed.

Lemma lower_eqb_lowercase (t : list ascii) :
  forallb (in_range 97 122) t = true ->
  forall l,
    (str (map lower_char l) =? str t)%string = same_chars_ignoring_case l t.
Proof.
  induction t as [|y t IH]; intros Ht l.
  - destruct l; reflexivity.
  - simpl in Ht. apply andb_true_iff in Ht as [Hy Ht].
    destruct l as [|x l]; [reflexivity|].
    cbn [map same_chars_ignoring_case]. unfold str in *. cbn [string_of_list_ascii String.eqb].
    rewrite (lower_char_lowercase x y Hy), (IH Ht l).
    now destruct (fold_case x =? fold_case y)%char.
Qed.

Lemma lower_is_visual (s : string) :
  (PyStr.lower s =? "visual")%string = equals_ignoring_case s "visual".
Proof.
  unfold PyStr.lower, equals_ignoring_case.
  change "visual" with (str (chars "visual")) at 1.
  now apply lower_eqb_lowercase.
Qed.

End CaseFacts.

(** C4: in both defaulting layers, a preferred_teaching_style that equals
    "visual" in any letter case gives note_maker the defaults
    note_taking_style = "structured" and include_analogies = true, and every
    other value (or none) gives "outline" and false. *)
Theorem note_maker_defaults_follow_teaching_style :
  forall msg ctx params missing,
    let visual :=
      equals_ignoring_case (ctx_get_or ctx "preferred_teaching_style" "") "visual" in
    let style := VStr (if visual then "structured" else "outline") in
    (dict_has params "note_taking_style" = false ->
     dict_get (_infer_defaults params "note_maker" ctx) "note_taking_style"
     = Some style)
    /\ (dict_has params "include_analogies" = false ->
        dict_get (_infer_defaults params "note_maker" ctx) "include_analogies"
        = Some (VBool visual))
    /\ (wf_dict params -> In "note_taking_style" missing ->
        dict_get (_infer_missing_parameters msg ctx "note_maker" missing params)
          "note_taking_style" = Some style)
    /\ (wf_dict params -> In "include_analogies" missing ->
        dict_get (_infer_missing_parameters msg ctx "note_maker" missing params)
          "include_analogies" = Some (VBool visual)).
Proof.
  intros msg ctx params missing visual style.
  assert (Hv : (PyStr.lower (ctx_get_or ctx "preferred_teaching_style" "")
                =? "visual")%string = visual) by apply lower_is_visual.
  repeat split.
  - intros Habs. rewrite infer_defaults_note_maker. cbv zeta. rewrite Hv.
    rewrite !dict_get_setdefault_ne by discriminate.
    rewrite dict_get_setdefault_new by assumption.
    unfold style, dict_get_or. unfold dict_has in Habs.
    destruct visual; [reflexivity|].
    now destruct (dict_get params "note_taking_style").
  - intros Habs. rewrite infer_defaults_note_maker. cbv zeta. rewrite Hv.
    apply dict_get_setdefault_new.
    now rewrite !dict_has_setdefault_ne by discriminate.
  - intros Hwf Hin. unfold _infer_missing_parameters. cbv zeta.
    apply safety_keeps; [now apply fold_infer_wf| |unfold style; discriminate].
    apply fold_infer_const; [|assumption].
    intros f. unfold infer_key. cbv beta zeta.
    cbn [String.eqb Ascii.eqb Bool.eqb]. rewrite Hv.
    unfold style. now destruct visual.
  - intros Hwf Hin. unfold _infer_missing_parameters. cbv zeta.
    apply safety_keeps; [now apply fold_infer_wf| |discriminate].
    apply fold_infer_const; [|assumption].
    intros f. unfold infer_key. cbv beta zeta.
    cbn [String.eqb Ascii.eqb Bool.eqb]. now rewrite Hv.
Qed.

Lemma note_maker_defaults_follow_teaching_style_witness :
  let ctx := [("preferred_teaching_style", "ViSuAl")] in
  let params := [("topic", VStr "cell division")] in
  dict_get (_infer_defaults params "note_maker" ctx) "note_taking_style"
  = Some (VStr "structured")
  /\ dict_get (_infer_defaults params "note_maker" ctx) "include_analogies"
     = Some (VBool true)
  /\ dict_get (_infer_missing_parameters "explain cell division" ctx "note_maker"
                 ["note_taking_style"; "include_analogies"] params)
       "note_taking_style" = Some (VStr "structured")
  /\ dict_get (_infer_missing_parameters "explain cell division" ctx "note_maker"
                 ["note_taking_style"; "include_analogies"] params)
       "include_analogies" = Some (VBool true).
Proof.
  intros ctx params.
  destruct (note_maker_defaults_follow_teaching_style
              "explain cell division" ctx params
              ["note_taking_style"; "include_analogies"])
    as (H1 & H2 & H3 & H4).
  assert (Hwf : wf_dict params) by (repeat constructor; simpl; tauto).
  split; [|split; [|split]].
  - apply H1. reflexivity.
  - apply H2. reflexivity.
  - apply H3; [exact Hwf|simpl; tauto].
  - apply H4; [exact Hwf|simpl; tauto].
Defined.

Lemma infer_nothing_missing msg ctx tool s params :
  assoc TOOL_PARAM_SCHEMAS tool = Some s ->
  wf_dict params ->
  validate (VDict params) s = true ->
  _infer_missing_parameters msg ctx tool [] params = params.
Proof.
  intros Hs Hwf Hv. apply validate_elim in Hv as [_ Hc].
  unfold _infer_missing_parameters. cbv zeta. cbn [fold_left].
  apply (safety_fixed msg tool s); [assumption|].
  now apply conform_entries.
Qed.

(** C8 (amended): for a registered tool and a mapping whose present fields
    each conform to the schema, inference over the required fields the
    mapping lacks yields a mapping that satisfies the schema, and running
    inference again on that output with nothing missing changes nothing;
    in general, with nothing missing, inference returns a schema-valid
    mapping unchanged. *)
Theorem inference_completes_conforming_mapping :
  forall msg ctx tool s params,
    assoc TOOL_PARAM_SCHEMAS tool = Some s ->
    wf_dict params ->
    (forall missing,
        fields_conform s params ->
        (forall k, In k (required s) -> dict_has params k = false -> In k missing) ->
        let inferred := _infer_missing_parameters msg ctx tool missing params in
        validate (VDict inferred) s = true
        /\ _infer_missing_parameters msg ctx tool [] inferred = inferred)
    /\ (validate (VDict params) s = true ->
        _infer_missing_parameters msg ctx tool [] params = params).
Proof.
  intros msg ctx tool s params Hs Hwf. split.
  - intros missing Hc Hm inferred.
    destruct (infer_valid msg ctx tool s missing params Hs Hwf Hc Hm) as [E Hv].
    split; [exact Hv|].
    apply (infer_nothing_missing msg ctx tool s); [assumption| |exact Hv].
    unfold inferred. rewrite E. now apply fold_infer_wf.
  - now apply infer_nothing_missing.
Qed.

Lemma inference_completes_conforming_mapping_witness :
  let ctx := [("mastery_level_summary", "Level 7: Confident")] in
  let partial := [("include_examples", VBool false)] in
  let complete :=
    [("concept_to_explain", VStr "entropy"); ("current_topic", VStr "physics");
     ("desired_depth", VStr "comprehensive")] in
  match assoc TOOL_PARAM_SCHEMAS "concept_explainer" with
  | Some s =>
      validate
        (VDict (_infer_missing_parameters "explain entropy" ctx "concept_explainer"
                  ["desired_depth"; "concept_to_explain"; "current_topic"] partial))
        s = true
      /\ _infer_missing_parameters "explain entropy" ctx "concept_explainer" [] complete
         = complete
  | None => False
  end.
Proof.
  intros ctx partial complete.
  destruct (assoc TOOL_PARAM_SCHEMAS "concept_explainer") as [s|] eqn:Hs;
    [|discriminate Hs].
  split.
  - apply (proj1 (inference_completes_conforming_mapping
                    "explain entropy" ctx "concept_explainer" s partial Hs
                    ltac:(repeat constructor; simpl; tauto))
             ["desired_depth"; "concept_to_explain"; "current_topic"]).
    + injection Hs as <-. intros k ps v Hps Hg.
      unfold partial in Hg. cbn [dict_get] in Hg. revert Hg.
      destruct (String.eqb_spec "include_examples" k); [|intros; discriminate].
      subst k. intros [= <-]. cbn in Hps. now injection Hps as <-.
    + injection Hs as <-. cbn. tauto.
  - apply (proj2 (inference_completes_conforming_mapping
                    "explain entropy" ctx "concept_explainer" s complete Hs
                    ltac:(repeat constructor; simpl; intuition discriminate))).
    injection Hs as <-. reflexivity.
Defined.

(** C8 as stated fails: a mapping that lacks exactly the required fields
    but holds an ill-typed optional field is not repaired by inference. *)
Lemma inference_keeps_ill_typed_field :
  let params := [("include_examples", VStr "yes"); ("include_analogies", VBool false)] in
  option_map
    (validate (VDict (_infer_missing_parameters "explain sets" [] "note_maker"
                        ["topic"; "subject"; "note_taking_style"] params)))
    (assoc TOOL_PARAM_SCHEMAS "note_maker")
  = Some false.
Proof. reflexivity. Qed.



(* ------------------------------------------------------------------ *)
(** ** The pipeline *)

Section PipelineFacts.
Variables (w : world) (msg : string) (hist : list value) (ctx : context).


Lemma get_tool_decision_no_post :
  forallb (fun ev => negb (is_post ev))
    (trace_of (get_tool_decision w msg hist ctx)) = true.
Proof.
  unfold get_tool_decision, ask_gemini, validated, bind, emit, ret, raise, trace_of.
  split_match; reflexivity.
Qed.

Lemma execute_tool_posts tool params t p :
  In (EvPost t p) (trace_of (execute_tool w tool params)) ->
  t = tool /\ p = params.
Proof.
  unfold execute_tool, bind, emit, ret, raise, lift, trace_of.
  split_match; simpl; intros H;
    repeat (destruct H as [H|H]; [try discriminate; now injection H as <- <-|]);
    destruct H.
Qed.

End PipelineFacts.

(** C5: when the model names a tool outside the registry, the decision
    step raises the unknown-tool error straight after the model call:
    no inference, no validation and no dispatch takes place, whatever the
    parameters, the message and the profile are. *)
Theorem unknown_tool_rejected_first :
  forall w msg hist ctx raw p name params,
    model_reply w = Some raw ->
    _extract_first_json raw = Some (VDict p) ->
    dict_get p "tool" = Some (VStr name) ->
    dict_get p "parameters" = Some params ->
    assoc TOOL_PARAM_SCHEMAS name = None ->
    get_tool_decision w msg hist ctx = ([EvAsk], Err (UnknownTool (VStr name)))
    /\ orchestrate_with_gemini w msg hist ctx
       = ([EvAsk], Err (UnknownTool (VStr name)))
    /\ forallb (fun ev => negb (is_inner_call ev))
         (trace_of (orchestrate_with_gemini w msg hist ctx)) = true.
Proof.
  intros w msg hist ctx raw p name params Hreply Hjson Htool Hparams Hreg.
  assert (E : get_tool_decision w msg hist ctx
              = ([EvAsk], Err (UnknownTool (VStr name)))).
  { unfold get_tool_decision, ask_gemini.
    rewrite Hreply. cbn [bind emit ret app].
    now rewrite Hjson, Htool, Hparams, Hreg. }
  assert (E' : orchestrate_with_gemini w msg hist ctx
               = ([EvAsk], Err (UnknownTool (VStr name)))).
  { unfold orchestrate_with_gemini. now rewrite E. }
  repeat split; try assumption. now rewrite E'.
Qed.

Lemma unknown_tool_rejected_first_witness :
  let w := {| model_reply :=
                Some (Json.dq "{'tool': 'quiz_maker', 'parameters': 'ten questions'}");
              tool_reply := fun _ _ => None;
              set_iter := fun l => l |} in
  orchestrate_with_gemini w "quiz me" [] []
  = ([EvAsk], Err (UnknownTool (VStr "quiz_maker"))).
Proof.
  intros w.
  apply (unknown_tool_rejected_first w "quiz me" [] []
           (Json.dq "{'tool': 'quiz_maker', 'parameters': 'ten questions'}")
           [("tool", VStr "quiz_maker"); ("parameters", VStr "ten questions")]
           "quiz_maker" (VStr "ten questions"));
    reflexivity.
Defined.

(** The parameters that the pipeline hands to the dispatcher. *)
Lemma orchestrate_cases w msg hist ctx :
  match get_tool_decision w msg hist ctx with
  | (t, Err e) => orchestrate_with_gemini w msg hist ctx = (t, Err e)
  | (t, Ok d) =>
      let final := final_parameters d hist ctx in
      match assoc TOOL_PARAM_SCHEMAS (d_tool d) with
      | None =>
          orchestrate_with_gemini w msg hist ctx
          = (t ++ [EvValidate (VDict final) true; EvValidate (VDict final) true],
             Err KeyError)
      | Some s =>
          if validate (VDict (tool_scoped s final)) s
          then orchestrate_with_gemini w msg hist ctx
               = (let (t', r) := execute_tool w (d_tool d) final in
                  (t ++ [EvValidate (VDict final) true; EvValidate (VDict final) true;
                         EvValidate (VDict (tool_scoped s final)) true] ++ t',
                   match r with
                   | Ok x => Ok {| o_tool := d_tool d; o_parameters := final;
                                   o_result := x |}
                   | Err e => Err e
                   end))
          else orchestrate_with_gemini w msg hist ctx
               = (t ++ [EvValidate (VDict final) true; EvValidate (VDict final) true;
                        EvValidate (VDict (tool_scoped s final)) false],
                  Err FinalValidationFailed)
      end
  end.
Proof.
  unfold orchestrate_with_gemini.
  destruct (get_tool_decision w msg hist ctx) as [t [d|e]]; [|reflexivity].
  cbv zeta.
  assert (H1 : validate (VDict (final_parameters d hist ctx)) user_info_schema = true).
  { unfold validate, user_info_schema. cbn [required properties forallb fst snd].
    assert (G : dict_get (final_parameters d hist ctx) "user_info"
                = Some (ctx_value ctx)).
    { apply infer_defaults_keeps. rewrite dict_get_set_ne by discriminate.
      apply dict_get_set_eq. }
    unfold dict_has. rewrite G. reflexivity. }
  assert (H2 : validate (VDict (final_parameters d hist ctx)) any_object_schema
               = true) by reflexivity.
  unfold validated. cbv zeta. cbn [bind emit ret raise app].
  rewrite H1. cbn [bind emit ret raise negb app]. rewrite H2.
  cbn [bind emit ret raise negb app].
  destruct (assoc TOOL_PARAM_SCHEMAS (d_tool d)) as [s|].
  - destruct (validate (VDict (tool_scoped s (final_parameters d hist ctx))) s);
      cbn [negb bind ret raise app].
    + destruct (execute_tool w (d_tool d) (final_parameters d hist ctx))
        as [t' [x|e]]; cbn [bind ret raise app]; rewrite ?app_nil_r; reflexivity.
    + reflexivity.
  - reflexivity.
Qed.

Lemma no_post_in (l : list event) t p :
  forallb (fun ev => negb (is_post ev)) l = true -> ~ In (EvPost t p) l.
Proof.
  intros H Hin. apply (proj1 (forallb_forall _ _) H) in Hin. discriminate.
Qed.

Lemma execute_tool_trace w tool params :
  trace_of (execute_tool w tool params) = []
  \/ exists t', trace_of (execute_tool w tool params) = EvPost tool params :: t'
                /\ forallb (fun ev => negb (is_post ev)) t' = true.
Proof.
  unfold execute_tool, bind, emit, ret, raise, lift, trace_of.
  split_match; cbn [fst app]; try (now left); right; eexists; split; reflexivity.
Qed.

Lemma execute_tool_errors w tool params e :
  outcome (execute_tool w tool params) = Err e ->
  e = UnconfiguredTool tool \/ e = TypeError \/ e = ValueError.
Proof.
  unfold execute_tool, bind, emit, ret, raise, lift, outcome.
  unfold _mock_response.
  split_match; cbn [snd]; intros [= <-]; auto.
Qed.


Lemma get_tool_decision_infer w msg hist ctx tool missing :
  In (EvInfer tool missing) (trace_of (get_tool_decision w msg hist ctx)) ->
  exists s ps,
    assoc TOOL_PARAM_SCHEMAS tool = Some s
    /\ get_tool_decision w msg hist ctx
       = (let inferred := _infer_missing_parameters msg ctx tool missing ps in
          ([EvAsk; EvInfer tool missing;
            EvValidate (VDict inferred) (validate (VDict inferred) s)],
           if validate (VDict inferred) s
           then Ok {| d_tool := tool; d_parameters := inferred |}
           else Err InferenceInvalid)).
Proof.
  unfold get_tool_decision, ask_gemini, validated, bind, emit, ret, raise, trace_of.
  split_match; cbn [fst app]; intros H;
    repeat match goal with
      | H : _ \/ _ |- _ => destruct H
      | H : In _ [] |- _ => destruct H
      | H : In _ (_ :: _) |- _ => destruct H
      | H : EvInfer _ _ = EvInfer _ _ |- _ => injection H as <- <-
      | H : _ = EvInfer _ _ |- _ => discriminate H
      end;
    do 2 eexists; (split; [eassumption|]); cbv zeta;
    match goal with E : validate _ _ = _ |- _ => rewrite E end; reflexivity.
Qed.

Lemma execute_tool_no_infer w tool params :
  forallb (fun ev => negb (is_infer ev)) (trace_of (execute_tool w tool params)) = true.
Proof.
  unfold execute_tool, bind, emit, ret, raise, lift, trace_of.
  split_match; reflexivity.
Qed.

Lemma no_infer_in (l : list event) t m :
  forallb (fun ev => negb (is_infer ev)) l = true -> ~ In (EvInfer t m) l.
Proof.
  intros H Hin. apply (proj1 (forallb_forall _ _) H) in Hin. discriminate.
Qed.

(** A run's trace is the decision's trace and then no further inference;
    a failed decision is the run's failure. *)
Lemma orchestrate_after_decision w msg hist ctx :
  exists t',
    trace_of (orchestrate_with_gemini w msg hist ctx)
    = trace_of (get_tool_decision w msg hist ctx) ++ t'
    /\ forallb (fun ev => negb (is_infer ev)) t' = true
    /\ (forall e, outcome (get_tool_decision w msg hist ctx) = Err e ->
                  outcome (orchestrate_with_gemini w msg hist ctx) = Err e).
Proof.
  pose proof (orchestrate_cases w msg hist ctx) as C.
  destruct (get_tool_decision w msg hist ctx) as [t [d|e0]].
  - cbv zeta in C. unfold trace_of, outcome. cbn [fst snd].
    destruct (assoc TOOL_PARAM_SCHEMAS (d_tool d)) as [s|].
    + destruct (validate _ s).
      * pose proof (execute_tool_no_infer w (d_tool d) (final_parameters d hist ctx))
          as N.
        destruct (execute_tool w (d_tool d) (final_parameters d hist ctx)) as [t' r].
        rewrite C. eexists. split; [reflexivity|]. split; [|discriminate].
        unfold trace_of in N. cbn [fst] in N. cbn [forallb app is_infer negb andb].
        exact N.
      * rewrite C. eexists. split; [reflexivity|]. split; [reflexivity|discriminate].
    + rewrite C. eexists. split; [reflexivity|]. split; [reflexivity|discriminate].
  - rewrite C. exists []. unfold trace_of, outcome. cbn [fst snd].
    rewrite app_nil_r. repeat split. now intros e [= <-].
Qed.

Lemma posts_and_validation_errors w msg hist ctx :
  (forall tool params,
      In (EvPost tool params) (trace_of (orchestrate_with_gemini w msg hist ctx)) ->
      exists t d s t1 t2,
        get_tool_decision w msg hist ctx = (t, Ok d)
        /\ tool = d_tool d
        /\ params = final_parameters d hist ctx
        /\ assoc TOOL_PARAM_SCHEMAS tool = Some s
        /\ validate (VDict (tool_scoped s params)) s = true
        /\ trace_of (orchestrate_with_gemini w msg hist ctx)
           = t1 ++ EvValidate (VDict (tool_scoped s params)) true
                :: EvPost tool params :: t2)
  /\ (forall e,
        outcome (orchestrate_with_gemini w msg hist ctx) = Err e ->
        e = InferenceInvalid \/ e = ValidationFailed \/ e = FinalValidationFailed ->
        forallb (fun ev => negb (is_post ev))
          (trace_of (orchestrate_with_gemini w msg hist ctx)) = true).
Proof.
  pose proof (orchestrate_cases w msg hist ctx) as C.
  pose proof (get_tool_decision_no_post w msg hist ctx) as NP.
  destruct (get_tool_decision w msg hist ctx) as [t [d|e0]] eqn:E;
    unfold trace_of in NP; cbn [fst] in NP.
  - cbv zeta in C.
    destruct (assoc TOOL_PARAM_SCHEMAS (d_tool d)) as [s|] eqn:Hs.
    + destruct (validate (VDict (tool_scoped s (final_parameters d hist ctx))) s)
        eqn:Hv.
      * (* the run reaches the dispatcher *)
        pose proof (execute_tool_trace w (d_tool d) (final_parameters d hist ctx))
          as Sh.
        pose proof (execute_tool_errors w (d_tool d) (final_parameters d hist ctx))
          as Er.
        destruct (execute_tool w (d_tool d) (final_parameters d hist ctx))
          as [t' r] eqn:Ex.
        unfold trace_of, outcome in *. cbn [fst snd] in *. rewrite C. cbn [fst snd].
        split.
        -- intros tool params Hin.
           apply in_app_or in Hin as [Hin|Hin]; [now apply no_post_in in Hin|].
           destruct Sh as [->|(t'' & -> & Ht'')].
           { simpl in Hin. intuition discriminate. }
           simpl in Hin.
           destruct Hin as [Hin|[Hin|[Hin|[Hin|Hin]]]]; try discriminate.
           ++ injection Hin as <- <-.
              exists t, d, s,
                (t ++ [EvValidate (VDict (final_parameters d hist ctx)) true;
                       EvValidate (VDict (final_parameters d hist ctx)) true]), t''.
              repeat split; try assumption.
              now rewrite <- app_assoc.
           ++ now apply no_post_in in Hin.
        -- intros e He Hcases. destruct r as [x|e']; [discriminate|].
           injection He as ->.
           destruct (Er e eq_refl) as [->|[->| ->]];
             destruct Hcases as [?|[?|?]]; discriminate.
      * rewrite C. unfold trace_of, outcome. cbn [fst snd]. split.
        -- intros tool params Hin.
           apply in_app_or in Hin as [Hin|Hin]; [now apply no_post_in in Hin|].
           simpl in Hin. intuition discriminate.
        -- intros _ _ _. rewrite forallb_app, NP. reflexivity.
    + rewrite C. unfold trace_of, outcome. cbn [fst snd]. split.
      * intros tool params Hin.
        apply in_app_or in Hin as [Hin|Hin]; [now apply no_post_in in Hin|].
        simpl in Hin. intuition discriminate.
      * intros _ _ _. rewrite forallb_app, NP. reflexivity.
  - rewrite C. unfold trace_of, outcome. cbn [fst snd]. split.
    + intros tool params Hin. now apply no_post_in in Hin.
    + intros; assumption.
Qed.


Lemma inference_is_validated w msg hist ctx tool missing :
  In (EvInfer tool missing) (trace_of (orchestrate_with_gemini w msg hist ctx)) ->
  exists s ps t2,
    assoc TOOL_PARAM_SCHEMAS tool = Some s
    /\ trace_of (orchestrate_with_gemini w msg hist ctx)
       = EvAsk :: EvInfer tool missing
         :: EvValidate (VDict (_infer_missing_parameters msg ctx tool missing ps))
              (validate (VDict (_infer_missing_parameters msg ctx tool missing ps)) s)
         :: t2
    /\ (validate (VDict (_infer_missing_parameters msg ctx tool missing ps)) s = false ->
        orchestrate_with_gemini w msg hist ctx
        = ([EvAsk; EvInfer tool missing;
            EvValidate (VDict (_infer_missing_parameters msg ctx tool missing ps)) false],
           Err InferenceInvalid)).
Proof.
  intros Hin.
  destruct (orchestrate_after_decision w msg hist ctx) as (t' & Ht & Hno & _).
  rewrite Ht in Hin. apply in_app_or in Hin as [Hin|Hin];
    [|now apply no_infer_in in Hin].
  destruct (get_tool_decision_infer w msg hist ctx tool missing Hin)
    as (s & ps & Hs & Hd).
  cbv zeta in Hd. exists s, ps, t'. split; [assumption|]. split.
  - rewrite Ht, Hd. reflexivity.
  - intros Hv. pose proof (orchestrate_cases w msg hist ctx) as C.
    rewrite Hd, Hv in C. exact C.
Qed.

(** C6: whenever a run reaches the dispatcher, the parameters it posts are
    the decision's parameters after the context merge and the second
    defaulting pass, and their tool-scoped subset has just passed
    validation against the tool's schema; a run that ends in a validation
    error posts nothing; and every inference is followed at once by the
    validation of its output, whose failure ends the run. *)
Theorem dispatch_only_after_validation :
  forall w msg hist ctx,
    (forall tool params,
        In (EvPost tool params) (trace_of (orchestrate_with_gemini w msg hist ctx)) ->
        exists t d s t1 t2,
          get_tool_decision w msg hist ctx = (t, Ok d)
          /\ tool = d_tool d
          /\ params = final_parameters d hist ctx
          /\ assoc TOOL_PARAM_SCHEMAS tool = Some s
          /\ validate (VDict (tool_scoped s params)) s = true
          /\ trace_of (orchestrate_with_gemini w msg hist ctx)
             = t1 ++ EvValidate (VDict (tool_scoped s params)) true
                  :: EvPost tool params :: t2)
    /\ (forall e,
          outcome (orchestrate_with_gemini w msg hist ctx) = Err e ->
          e = InferenceInvalid \/ e = ValidationFailed \/ e = FinalValidationFailed ->
          forallb (fun ev => negb (is_post ev))
            (trace_of (orchestrate_with_gemini w msg hist ctx)) = true)
    /\ (forall tool missing,
          In (EvInfer tool missing)
             (trace_of (orchestrate_with_gemini w msg hist ctx)) ->
          exists s ps t2,
            assoc TOOL_PARAM_SCHEMAS tool = Some s
            /\ trace_of (orchestrate_with_gemini w msg hist ctx)
               = EvAsk :: EvInfer tool missing
                 :: EvValidate
                      (VDict (_infer_missing_parameters msg ctx tool missing ps))
                      (validate
                         (VDict (_infer_missing_parameters msg ctx tool missing ps)) s)
                 :: t2
            /\ (validate (VDict (_infer_missing_parameters msg ctx tool missing ps)) s
                = false ->
                orchestrate_with_gemini w msg hist ctx
                = ([EvAsk; EvInfer tool missing;
                    EvValidate
                      (VDict (_infer_missing_parameters msg ctx tool missing ps))
                      false],
                   Err InferenceInvalid))).
Proof.
  intros w msg hist ctx.
  destruct (posts_and_validation_errors w msg hist ctx) as [Hposts Herrors].
  split; [exact Hposts|]. split; [exact Herrors|].
  intros tool missing. apply inference_is_validated.
Qed.

Lemma dispatch_only_after_validation_witness :
  let w := {| model_reply :=
                Some (Json.dq "{'tool': 'concept_explainer', 'parameters': {'concept_to_explain': 'recursion'}}");
              tool_reply := fun _ _ => Some (VDict [("explanation", VStr "...")]);
              set_iter := fun l => l |} in
  let ctx := [("mastery_level_summary", "Level 2: Beginner")] in
  exists params s,
    In (EvPost "concept_explainer" params)
       (trace_of (orchestrate_with_gemini w "explain recursion" [] ctx))
    /\ assoc TOOL_PARAM_SCHEMAS "concept_explainer" = Some s
    /\ validate (VDict (tool_scoped s params)) s = true.
Proof.
  intros w ctx.
  destruct (proj1 (dispatch_only_after_validation w "explain recursion" [] ctx)
              "concept_explainer"
              [("concept_to_explain", VStr "recursion");
               ("current_topic", VStr "recursion");
               ("desired_depth", VStr "basic");
               ("user_info", ctx_value ctx);
               ("chat_history", VList []);
               ("include_examples", VBool true)])
    as (t & d & s & t1 & t2 & _ & _ & _ & Hs & Hv & _).
  - vm_compute. tauto.
  - eexists. exists s. split; [|split; eassumption].
    vm_compute. tauto.
Defined.

(* ------------------------------------------------------------------ *)
(** ** ToolDispatcher *)

Section ExecutorFacts.

Lemma configured_tools tool endpoint :
  assoc TOOL_ENDPOINTS tool = Some endpoint ->
  (tool = "note_maker" \/ tool = "flashcard_generator" \/ tool = "concept_explainer")
  /\ (endpoint =? "")%string = false.
Proof.
  unfold TOOL_ENDPOINTS. cbn [assoc].
  destruct (String.eqb_spec "note_maker" tool); [intros [= <-]; auto|].
  destruct (String.eqb_spec "flashcard_generator" tool); [intros [= <-]; auto|].
  destruct (String.eqb_spec "concept_explainer" tool); [intros [= <-]; auto|].
  discriminate.
Qed.

Lemma mock_response_flashcards params n :
  to_int (dict_get_or params "count" (VInt 5)) = Some n ->
  exists mock, _mock_response "flashcard_generator" params = Ok mock.
Proof.
  intros H. unfold _mock_response. cbn [String.eqb Ascii.eqb Bool.eqb].
  destruct (dict_get_or params "count" (VInt 5)); try discriminate H;
    rewrite H; eexists; reflexivity.
Qed.

Lemma mock_response_others tool params :
  tool <> "flashcard_generator" ->
  exists mock, _mock_response tool params = Ok mock.
Proof.
  intros H. unfold _mock_response. apply String.eqb_neq in H. rewrite H.
  destruct (tool =? "note_maker")%string; [eexists; reflexivity|].
  destruct (tool =? "concept_explainer")%string; eexists; reflexivity.
Qed.

End ExecutorFacts.




(* ------------------------------------------------------------------ *)
(** ** The end-to-end scenario *)

Section ScenarioFacts.

Lemma scenario_candidates :
  _extract_candidates_for_concept "I need practice problems on derivatives"
  = ["derivatives"].
Proof. reflexivity. Qed.

Lemma mastery_level_4 ctx rest :
  ctx_get ctx "mastery_level_summary" = Some ("Level 4" ++ rest)%string ->
  match chars rest with c :: _ => is_digit c = false | [] => True end ->
  _get_mastery_level_int ctx = 4%Z.
Proof.
  intros Hs Hrest. unfold _get_mastery_level_int, ctx_get_or. rewrite Hs.
  unfold first_digit_run. rewrite chars_app.
  change (chars "Level 4") with (chars "Level " ++ ["4"%char]).
  rewrite <- app_assoc. cbn [app chars list_ascii_of_string].
  cbn [drop_while]. 
  change (is_digit "L") with false. change (is_digit "e") with false.
  change (is_digit "v") with false. change (is_digit "l") with false.
  change (is_digit " ") with false. change (is_digit "4") with true.
  cbn [negb take_while].
  change (is_digit "4") with true. cbn iota.
  destruct (chars rest) as [|c r]; [reflexivity|].
  cbn [take_while]. rewrite Hrest. reflexivity.
Qed.


Lemma forallb_forall_eq {A} (f g : A -> bool) (l : list A) :
  (forall a, In a l -> f a = g a) -> forallb f l = forallb g l.
Proof.
  induction l as [|a l IH]; intros H; simpl; [reflexivity|].
  rewrite (H a) by now left. rewrite IH; [reflexivity|].
  intros b Hb. apply H. now right.
Qed.

Lemma validate_ext_on (s : schema) (d d' : dict) :
  (forall k, In k (required s) \/ In k (map fst (properties s)) ->
             dict_get d k = dict_get d' k) ->
  validate (VDict d) s = validate (VDict d') s.
Proof.
  intros H. unfold validate. f_equal.
  - apply forallb_forall_eq. intros k Hk. unfold dict_has. now rewrite H by auto.
  - apply forallb_forall_eq. intros [k ps] Hk. cbn [fst snd].
    rewrite H; [reflexivity|]. right. change k with (fst (k, ps)). now apply in_map.
Qed.

Lemma execute_tool_ok w tool params endpoint :
  assoc TOOL_ENDPOINTS tool = Some endpoint ->
  (exists mock, _mock_response tool params = Ok mock) ->
  exists r t', execute_tool w tool params = (EvPost tool params :: t', Ok r).
Proof.
  intros He [mock Hm].
  destruct (configured_tools tool endpoint He) as [_ Hne].
  unfold execute_tool. rewrite He, Hne. cbn [bind emit ret app].
  destruct (tool_reply w endpoint params) as [response|].
  - now exists response, [].
  - rewrite Hm. now exists mock, [EvWarn tool].
Qed.

Lemma get_tool_decision_inferred w msg hist ctx raw p name s ps :
  model_reply w = Some raw ->
  _extract_first_json raw = Some (VDict p) ->
  dict_get p "tool" = Some (VStr name) ->
  dict_get p "parameters" = Some (VDict ps) ->
  assoc TOOL_PARAM_SCHEMAS name = Some s ->
  forall missing,
    set_iter w (filter (fun k => negb (dict_has ps k)) (required s)) = missing ->
    missing <> [] ->
    validate (VDict (_infer_missing_parameters msg ctx name missing ps)) s = true ->
    get_tool_decision w msg hist ctx
    = ([EvAsk; EvInfer name missing;
        EvValidate (VDict (_infer_missing_parameters msg ctx name missing ps)) true],
       Ok {| d_tool := name;
             d_parameters := _infer_missing_parameters msg ctx name missing ps |}).
Proof.
  intros Hreply Hjson Htool Hparams Hs missing Hm Hne Hv.
  unfold get_tool_decision, ask_gemini.
  rewrite Hreply. cbn [bind emit ret app].
  rewrite Hjson, Htool, Hparams, Hs, Hm.
  destruct missing as [|a m]; [congruence|].
  unfold validated. cbv zeta. cbn [bind emit ret app]. rewrite Hv. reflexivity.
Qed.

End ScenarioFacts.

(** C9: for the message "I need practice problems on derivatives", a
    profile of level 4, whose mastery_level_summary begins "Level 4" and
    does not go on with a further digit, and the model decision
    flashcard_generator with parameters topic = "derivatives" only, the run
    reaches the dispatcher and the parameters it posts hold count = 5,
    difficulty = "medium" and subject = "derivatives", the extracted topic
    candidate. *)
Theorem flashcard_scenario_defaults :
  forall w hist ctx rest,
    world_ok w ->
    model_reply w
    = Some (Json.dq "{'tool':'flashcard_generator','parameters':{'topic':'derivatives'}}") ->
    ctx_get ctx "mastery_level_summary" = Some ("Level 4" ++ rest)%string ->
    match chars rest with c :: _ => is_digit c = false | [] => True end ->
    exists o,
      outcome (orchestrate_with_gemini w "I need practice problems on derivatives"
                 hist ctx) = Ok o
      /\ o_tool o = "flashcard_generator"
      /\ dict_get (o_parameters o) "topic" = Some (VStr "derivatives")
      /\ dict_get (o_parameters o) "count" = Some (VInt 5)
      /\ dict_get (o_parameters o) "difficulty" = Some (VStr "medium")
      /\ dict_get (o_parameters o) "subject" = Some (VStr "derivatives")
      /\ In (EvPost "flashcard_generator" (o_parameters o))
           (trace_of (orchestrate_with_gemini w
                        "I need practice problems on derivatives" hist ctx)).
Proof.
  intros w hist ctx rest Hw Hreply Hsum Hrest.
  set (msg := "I need practice problems on derivatives").
  set (ps := [("topic", VStr "derivatives")] : dict).
  destruct (assoc TOOL_PARAM_SCHEMAS "flashcard_generator") as [s|] eqn:Hs;
    [|discriminate Hs].
  remember (set_iter w ["count"; "difficulty"; "subject"]) as missing eqn:Hm.
  assert (Hperm : Permutation missing ["count"; "difficulty"; "subject"])
    by (subst missing; apply Hw).
  assert (Hin : forall k, In k missing <-> In k ["count"; "difficulty"; "subject"]).
  { intros k. split; apply Permutation_in; [assumption|now apply Permutation_sym]. }
  assert (Hne : missing <> []).
  { intros ->. apply Permutation_nil in Hperm. discriminate. }
  assert (Hwf : wf_dict ps) by (repeat constructor; simpl; tauto).
  (* the inferencer *)
  destruct (infer_valid msg ctx "flashcard_generator" s missing ps Hs Hwf)
    as [Hfold Hvalid].
  { injection Hs as <-. intros k sch v Hk Hg. unfold ps in Hg.
    cbn [dict_get] in Hg. revert Hg.
    destruct (String.eqb_spec "topic" k); [|intros; discriminate].
    subst k. intros [= <-]. cbn in Hk. now injection Hk as <-. }
  { injection Hs as <-. intros k Hk Habs. apply Hin.
    cbn in Hk. destruct Hk as [<-|[<-|[<-|[<-|[]]]]]; cbn; auto.
    discriminate Habs. }
  set (inferred := _infer_missing_parameters msg ctx "flashcard_generator" missing ps)
    in *.
  assert (Htopic : dict_get inferred "topic" = Some (VStr "derivatives")).
  { rewrite Hfold, fold_infer_get_other; [reflexivity|].
    intros H. apply Hin in H. simpl in H. intuition discriminate. }
  assert (Hcount : dict_get inferred "count" = Some (VInt 5)).
  { rewrite Hfold. apply fold_infer_const; [reflexivity|]. apply Hin. simpl. auto. }
  assert (Hdiff : dict_get inferred "difficulty" = Some (VStr "medium")).
  { rewrite Hfold. apply fold_infer_const; [|apply Hin; simpl; auto].
    intros f. unfold infer_key. cbv beta zeta.
    cbn [String.eqb Ascii.eqb Bool.eqb].
    now rewrite (mastery_level_4 ctx rest Hsum Hrest). }
  assert (Hsubj : dict_get inferred "subject" = Some (VStr "derivatives")).
  { rewrite Hfold. apply fold_infer_const; [|apply Hin; simpl; auto].
    intros f. unfold infer_key. cbv beta zeta.
    cbn [String.eqb Ascii.eqb Bool.eqb]. unfold msg.
    now rewrite scenario_candidates. }
  (* the decision *)
  pose proof (get_tool_decision_inferred w msg hist ctx _
                [("tool", VStr "flashcard_generator"); ("parameters", VDict ps)]
                "flashcard_generator" s ps Hreply eq_refl eq_refl eq_refl Hs missing)
    as Hdec.
  rewrite Hm in Hdec at 1. pose proof Hs as Hs0. injection Hs0 as Hs'.
  rewrite <- Hs' in Hdec at 1.
  specialize (Hdec eq_refl Hne Hvalid). fold inferred in Hdec.
  (* the merge and the second defaulting pass *)
  set (d := {| d_tool := "flashcard_generator"; d_parameters := inferred |}) in *.
  assert (Hfinal : final_parameters d hist ctx
                   = dict_set (dict_set inferred "user_info" (ctx_value ctx))
                       "chat_history" (VList hist)).
  { unfold final_parameters. cbn [d d_tool d_parameters].
    rewrite infer_defaults_flashcard.
    rewrite (dict_setdefault_has _ "count").
    2:{ unfold dict_has. rewrite !dict_get_set_ne by discriminate. now rewrite Hcount. }
    rewrite (dict_setdefault_has _ "difficulty"); [reflexivity|].
    unfold dict_has. rewrite !dict_get_set_ne by discriminate. now rewrite Hdiff. }
  assert (Hget : forall k, k <> "user_info" -> k <> "chat_history" ->
                           dict_get (final_parameters d hist ctx) k = dict_get inferred k).
  { intros k H1 H2. rewrite Hfinal. rewrite !dict_get_set_ne; auto. }
  assert (Hscoped : validate (VDict (tool_scoped s (final_parameters d hist ctx))) s
                    = true).
  { rewrite <- Hvalid. apply validate_ext_on. intros k Hk.
    unfold tool_scoped. rewrite dict_get_filter. rewrite <- Hs' in *.
    cbn in Hk.
    destruct Hk as [Hk|Hk];
      repeat (destruct Hk as [<-|Hk]; [cbn; apply Hget; discriminate|]);
      destruct Hk. }
  (* the dispatcher *)
  destruct (execute_tool_ok w "flashcard_generator" (final_parameters d hist ctx)
              "http://localhost:8102/flashcards" eq_refl)
    as (r & t' & Hex).
  { apply (mock_response_flashcards _ 5%Z). unfold dict_get_or.
    rewrite Hget by discriminate. now rewrite Hcount. }
  pose proof (orchestrate_cases w msg hist ctx) as C.
  rewrite Hdec in C. cbv zeta in C. cbn [d d_tool] in C.
  rewrite Hs, Hscoped, Hex in C.
  eexists. unfold outcome, trace_of. rewrite C. cbn [fst snd o_tool o_parameters].
  repeat split.
  - now rewrite Hget by discriminate.
  - now rewrite Hget by discriminate.
  - now rewrite Hget by discriminate.
  - now rewrite Hget by discriminate.
  - apply in_or_app. right. simpl. auto.
Qed.

Lemma flashcard_scenario_defaults_witness :
  let w := {| model_reply :=
                Some (Json.dq "{'tool':'flashcard_generator','parameters':{'topic':'derivatives'}}");
              tool_reply := fun _ _ => None;
              set_iter := fun l => l |} in
  let ctx :=
    [("user_id", "student123"); ("name", "Student"); ("grade_level", "10");
     ("learning_style_summary", "Prefers visual explanations and structured notes");
     ("emotional_state_summary", "Confused");
     ("mastery_level_summary", "Level 4: Building foundational knowledge");
     ("preferred_teaching_style", "visual")] in
  exists o,
    outcome (orchestrate_with_gemini w "I need practice problems on derivatives"
               [] ctx) = Ok o
    /\ o_tool o = "flashcard_generator"
    /\ dict_get (o_parameters o) "topic" = Some (VStr "derivatives")
    /\ dict_get (o_parameters o) "count" = Some (VInt 5)
    /\ dict_get (o_parameters o) "difficulty" = Some (VStr "medium")
    /\ dict_get (o_parameters o) "subject" = Some (VStr "derivatives")
    /\ In (EvPost "flashcard_generator" (o_parameters o))
         (trace_of (orchestrate_with_gemini w
                      "I need practice problems on derivatives" [] ctx)).
Proof.
  intros w ctx.
  apply (flashcard_scenario_defaults w [] ctx ": Building foundational knowledge").
  - intros l. apply Permutation_refl.
  - reflexivity.
  - reflexivity.
  - reflexivity.
Defined.

(* ------------------------------------------------------------------ *)
(** * Further properties of the code *)

(* ------------------------------------------------------------------ *)
(** ** The decision step *)

Section DecisionFacts.
Variables (w : world) (msg : string) (hist : list value) (ctx : context).

(** The shapes a successful decision takes. *)
Lemma get_tool_decision_ok t d :
  get_tool_decision w msg hist ctx = (t, Ok d) ->
  exists s,
    assoc TOOL_PARAM_SCHEMAS (d_tool d) = Some s
    /\ validate (VDict (d_parameters d)) s = true
    /\ (t = [EvAsk; EvValidate (VDict (d_parameters d)) true]
        \/ exists missing,
             missing <> []
             /\ t = [EvAsk; EvInfer (d_tool d) missing;
                     EvValidate (VDict (d_parameters d)) true]).
Proof.
  unfold get_tool_decision, ask_gemini, validated, bind, emit, ret, raise.
  split_match; cbn [app]; intros [= <- <-]; cbn [d_tool d_parameters];
    eexists; (split; [eassumption|]); (split; [assumption|]).
  - now left.
  - right. eexists. split; [|reflexivity]. discriminate.
Qed.

Lemma get_tool_decision_counts :
  let t := trace_of (get_tool_decision w msg hist ctx) in
  count_events is_ask t = 1 /\ count_events is_infer t <= 1
  /\ count_events is_post t = 0 /\ count_events is_warn t = 0.
Proof.
  unfold get_tool_decision, ask_gemini, validated, bind, emit, ret, raise, trace_of.
  split_match; cbn; repeat split; lia.
Qed.

Lemma get_tool_decision_errors t e :
  get_tool_decision w msg hist ctx = (t, Err e) -> decision_error e = true.
Proof.
  unfold get_tool_decision, ask_gemini, validated, bind, emit, ret, raise.
  split_match; cbn [app]; intros [= <- <-]; reflexivity.
Qed.

End DecisionFacts.

(* ------------------------------------------------------------------ *)
(** ** The merge, the second defaulting pass and the last validation *)

Section MergeFacts.

Lemma registered_configured tool s :
  assoc TOOL_PARAM_SCHEMAS tool = Some s ->
  exists endpoint, assoc TOOL_ENDPOINTS tool = Some endpoint.
Proof.
  intros Hs. destruct (registered_tools _ _ Hs) as [->|[->| ->]];
    eexists; reflexivity.
Qed.

Lemma registered_aux_keys tool s :
  assoc TOOL_PARAM_SCHEMAS tool = Some s ->
  assoc (properties s) "user_info" = None
  /\ assoc (properties s) "chat_history" = None.
Proof.
  intros Hs. destruct (registered_tools _ _ Hs) as [->|[->| ->]];
    injection Hs as <-; split; reflexivity.
Qed.

Lemma check_tier_difficulty t :
  check_prop (p_enum_of ["easy"; "medium"; "hard"]) (VStr (difficulty_of t)) = true.
Proof. now destruct t. Qed.

Lemma check_tier_depth t :
  check_prop (p_enum_of ["basic"; "intermediate"; "advanced"; "comprehensive"])
    (VStr (depth_of t)) = true.
Proof. now destruct t. Qed.

Lemma setdefault_conform s d k v :
  fields_conform s d ->
  (dict_has d k = false ->
   forall ps, assoc (properties s) k = Some ps -> check_prop ps v = true) ->
  fields_conform s (dict_setdefault d k v).
Proof.
  intros Hc Hv k' ps x Hps. rewrite dict_get_setdefault.
  destruct (String.eqb_spec k k') as [<-|]; cbn [andb]; [|now apply Hc].
  destruct (dict_has d k) eqn:Hh; cbn [negb]; [now apply Hc|].
  intros [= <-]. now apply Hv.
Qed.

(** The second pass adds only values the schema accepts. *)
Lemma infer_defaults_conform tool s params ctx :
  assoc TOOL_PARAM_SCHEMAS tool = Some s ->
  fields_conform s params ->
  fields_conform s (_infer_defaults params tool ctx).
Proof.
  intros Hs Hc.
  destruct (registered_tools _ _ Hs) as [->|[->| ->]]; injection Hs as <-.
  - rewrite infer_defaults_note_maker. cbv zeta.
    repeat apply setdefault_conform; try assumption;
      intros Hh ps Hps; cbn in Hps; injection Hps as <-; try reflexivity.
    unfold dict_has in Hh. unfold dict_get_or.
    destruct (dict_get params "note_taking_style"); [discriminate|].
    now destruct (_ =? "visual")%string.
  - rewrite infer_defaults_flashcard.
    repeat apply setdefault_conform; try assumption;
      intros Hh ps Hps; cbn in Hps; injection Hps as <-; try reflexivity.
    apply check_tier_difficulty.
  - rewrite infer_defaults_explainer.
    repeat apply setdefault_conform; try assumption;
      intros Hh ps Hps; cbn in Hps; injection Hps as <-; try reflexivity.
    apply check_tier_depth.
Qed.

Lemma infer_defaults_has params tool ctx k :
  dict_has params k = true -> dict_has (_infer_defaults params tool ctx) k = true.
Proof.
  unfold dict_has. destruct (dict_get params k) as [v|] eqn:E; [|discriminate].
  intros _. now rewrite (infer_defaults_keeps params tool ctx k v E).
Qed.

(** The last validation reads the same fields with or without the filter. *)
Lemma tool_scoped_validate tool s d :
  assoc TOOL_PARAM_SCHEMAS tool = Some s ->
  validate (VDict (tool_scoped s d)) s = validate (VDict d) s.
Proof.
  intros Hs. apply validate_ext_on. intros k Hk.
  unfold tool_scoped. rewrite dict_get_filter.
  destruct Hk as [Hk|Hk].
  - destruct (registered_required tool s k Hs Hk) as [ps ->]. reflexivity.
  - apply in_map_iff in Hk as [[k' ps] [<- Hin]]. cbn [fst].
    now rewrite (registered_props tool s k' ps Hs Hin).
Qed.

Lemma final_parameters_aux d hist ctx :
  dict_get (final_parameters d hist ctx) "user_info" = Some (ctx_value ctx)
  /\ dict_get (final_parameters d hist ctx) "chat_history" = Some (VList hist).
Proof.
  unfold final_parameters. split; apply infer_defaults_keeps.
  - rewrite dict_get_set_ne by discriminate. apply dict_get_set_eq.
  - apply dict_get_set_eq.
Qed.

(** A valid decision stays valid through the merge and the second pass. *)
Lemma final_parameters_valid d hist ctx s :
  assoc TOOL_PARAM_SCHEMAS (d_tool d) = Some s ->
  validate (VDict (d_parameters d)) s = true ->
  validate (VDict (final_parameters d hist ctx)) s = true.
Proof.
  intros Hs Hv. apply validate_elim in Hv as [Hreq Hc].
  destruct (registered_aux_keys _ _ Hs) as [Hu Hh].
  apply validate_intro.
  - intros k Hk. unfold final_parameters. apply infer_defaults_has.
    rewrite !dict_has_set. rewrite (Hreq k Hk). now rewrite !orb_true_r.
  - unfold final_parameters. apply (infer_defaults_conform (d_tool d)); [assumption|].
    intros k ps v Hps. rewrite !dict_get_set.
    destruct (String.eqb_spec "chat_history" k) as [<-|]; [congruence|].
    destruct (String.eqb_spec "user_info" k) as [<-|]; [congruence|].
    now apply Hc.
  - intros k ps. now apply (registered_props (d_tool d)).
Qed.

Lemma valid_count_is_int d :
  validate (VDict d)
    {| required := ["topic"; "count"; "difficulty"; "subject"];
       properties :=
         [ ("topic", p_string); ("count", p_integer 1 20);
           ("difficulty", p_enum_of ["easy"; "medium"; "hard"]);
           ("include_examples", p_boolean); ("subject", p_string) ] |} = true ->
  exists n, dict_get d "count" = Some (VInt n) /\ (1 <= n <= 20)%Z.
Proof.
  intros Hv. apply validate_elim in Hv as [Hreq Hc].
  specialize (Hreq "count" ltac:(simpl; auto)). unfold dict_has in Hreq.
  destruct (dict_get d "count") as [v|] eqn:E; [|discriminate].
  specialize (Hc "count" (p_integer 1 20) v eq_refl E).
  destruct v; try discriminate. exists n. split; [reflexivity|].
  change ((1 <=? n)%Z && (n <=? 20)%Z = true) in Hc.
  apply andb_true_iff in Hc as [H1 H2].
  apply Z.leb_le in H1, H2. lia.
Qed.

(** With a valid decision the dispatcher cannot raise. *)
Lemma execute_tool_after_decision w d hist ctx s :
  assoc TOOL_PARAM_SCHEMAS (d_tool d) = Some s ->
  validate (VDict (d_parameters d)) s = true ->
  exists r t',
    execute_tool w (d_tool d) (final_parameters d hist ctx)
    = (EvPost (d_tool d) (final_parameters d hist ctx) :: t', Ok r)
    /\ (t' = [] \/ t' = [EvWarn (d_tool d)]).
Proof.
  intros Hs Hv.
  pose proof (final_parameters_valid d hist ctx s Hs Hv) as Hf.
  destruct (registered_configured _ _ Hs) as [endpoint He].
  destruct (configured_tools _ _ He) as [_ Hne].
  assert (Hm : exists mock,
             _mock_response (d_tool d) (final_parameters d hist ctx) = Ok mock).
  { destruct (String.eqb_spec (d_tool d) "flashcard_generator") as [E|E].
    - rewrite E in *. injection Hs as <-.
      destruct (valid_count_is_int _ Hf) as (n & Hn & _).
      apply (mock_response_flashcards _ n). unfold dict_get_or. now rewrite Hn.
    - now apply mock_response_others. }
  destruct Hm as [mock Hm].
  unfold execute_tool. rewrite He, Hne. cbn [bind emit ret app].
  destruct (tool_reply w endpoint _) as [response|].
  - exists response, []. split; [reflexivity|now left].
  - rewrite Hm. exists mock, [EvWarn (d_tool d)]. split; [reflexivity|now right].
Qed.

End MergeFacts.

(* ------------------------------------------------------------------ *)
(** ** Runs of the pipeline *)

Section RunFacts.
Variables (w : world) (msg : string) (hist : list value) (ctx : context).

(** What a run is once the decision is there. *)
Lemma orchestrate_after_ok t d :
  get_tool_decision w msg hist ctx = (t, Ok d) ->
  exists s r t',
    assoc TOOL_PARAM_SCHEMAS (d_tool d) = Some s
    /\ orchestrate_with_gemini w msg hist ctx
       = (t ++ [EvValidate (VDict (final_parameters d hist ctx)) true;
                EvValidate (VDict (final_parameters d hist ctx)) true;
                EvValidate (VDict (tool_scoped s (final_parameters d hist ctx))) true;
                EvPost (d_tool d) (final_parameters d hist ctx)] ++ t',
          Ok {| o_tool := d_tool d;
                o_parameters := final_parameters d hist ctx;
                o_result := r |})
    /\ (t' = [] \/ t' = [EvWarn (d_tool d)]).
Proof.
  intros Hd.
  destruct (get_tool_decision_ok w msg hist ctx t d Hd) as (s & Hs & Hv & _).
  destruct (execute_tool_after_decision w d hist ctx s Hs Hv) as (r & t' & Hex & Ht').
  pose proof (orchestrate_cases w msg hist ctx) as C.
  rewrite Hd in C. cbv zeta in C. rewrite Hs in C.
  rewrite (tool_scoped_validate (d_tool d) s _ Hs) in C.
  rewrite (final_parameters_valid d hist ctx s Hs Hv), Hex in C.
  exists s, r, t'. split; [assumption|]. split; [|assumption].
  rewrite C. reflexivity.
Qed.

Lemma orchestrate_after_err t e :
  get_tool_decision w msg hist ctx = (t, Err e) ->
  orchestrate_with_gemini w msg hist ctx = (t, Err e).
Proof.
  intros Hd. pose proof (orchestrate_cases w msg hist ctx) as C.
  now rewrite Hd in C.
Qed.

End RunFacts.

(** X1: a decision that succeeds always reaches the dispatcher.  The
    merged parameters satisfy the tool's schema, so the last validations
    pass; the tool has an endpoint; and the mock cannot raise.  The run
    returns the decision's tool, the merged parameters and the endpoint's
    answer, or the mock after a warning when the call failed; its trace is
    the decision's, the three validations and one post. *)
Theorem decision_always_dispatches :
  forall w msg hist ctx t d,
    get_tool_decision w msg hist ctx = (t, Ok d) ->
    let final := final_parameters d hist ctx in
    exists s endpoint r t',
      assoc TOOL_PARAM_SCHEMAS (d_tool d) = Some s
      /\ validate (VDict final) s = true
      /\ assoc TOOL_ENDPOINTS (d_tool d) = Some endpoint
      /\ match tool_reply w endpoint final with
         | Some response => r = response /\ t' = []
         | None => _mock_response (d_tool d) final = Ok r
                   /\ t' = [EvWarn (d_tool d)]
         end
      /\ orchestrate_with_gemini w msg hist ctx
         = (t ++ [EvValidate (VDict final) true;
                  EvValidate (VDict final) true;
                  EvValidate (VDict (tool_scoped s final)) true;
                  EvPost (d_tool d) final] ++ t',
            Ok {| o_tool := d_tool d; o_parameters := final; o_result := r |}).
Proof.
  intros w msg hist ctx t d Hd final.
  destruct (get_tool_decision_ok w msg hist ctx t d Hd) as (s & Hs & Hv & _).
  pose proof (final_parameters_valid d hist ctx s Hs Hv) as Hf. fold final in Hf.
  destruct (registered_configured _ _ Hs) as [endpoint He].
  destruct (configured_tools _ _ He) as [_ Hne].
  assert (Hm : exists mock, _mock_response (d_tool d) final = Ok mock).
  { destruct (String.eqb_spec (d_tool d) "flashcard_generator") as [E|E].
    - rewrite E in *. injection Hs as <-.
      destruct (valid_count_is_int _ Hf) as (n & Hn & _).
      apply (mock_response_flashcards _ n). unfold dict_get_or. now rewrite Hn.
    - now apply mock_response_others. }
  destruct Hm as [mock Hm].
  pose proof (orchestrate_cases w msg hist ctx) as C.
  rewrite Hd in C. cbv zeta in C. fold final in C. rewrite Hs in C.
  rewrite (tool_scoped_validate (d_tool d) s _ Hs), Hf in C.
  unfold execute_tool in C. rewrite He, Hne in C. cbn [bind emit ret app] in C.
  exists s, endpoint.
  destruct (tool_reply w endpoint final) as [response|].
  - exists response, [].
    split; [exact Hs|split; [exact Hf|split; [exact He|split; [now split|]]]].
    rewrite C. reflexivity.
  - rewrite Hm in C. exists mock, [EvWarn (d_tool d)].
    split; [exact Hs|split; [exact Hf|split; [exact He|split; [now split|]]]].
    rewrite C. reflexivity.
Qed.

Lemma decision_always_dispatches_witness :
  let w := {| model_reply :=
                Some (Json.dq "{'tool':'note_maker','parameters':{'topic':'osmosis'}}");
              tool_reply := fun _ _ => None;
              set_iter := fun l => l |} in
  let ctx := get_user_context "student123" in
  exists o,
    outcome (orchestrate_with_gemini w "tell me about osmosis" [] ctx) = Ok o
    /\ o_tool o = "note_maker".
Proof.
  intros w ctx.
  destruct (decision_always_dispatches w "tell me about osmosis" [] ctx
              [EvAsk; EvInfer "note_maker" ["subject"; "note_taking_style"];
               EvValidate
                 (VDict [("topic", VStr "osmosis"); ("subject", VStr "osmosis");
                         ("note_taking_style", VStr "structured")]) true]
              {| d_tool := "note_maker";
                 d_parameters :=
                   [("topic", VStr "osmosis"); ("subject", VStr "osmosis");
                    ("note_taking_style", VStr "structured")] |} eq_refl)
    as (s & endpoint & r & t' & _ & _ & _ & _ & E).
  eexists. unfold outcome. rewrite E. split; reflexivity.
Defined.

(** X2: every failure of a run is a failure of its decision step.  The
    run then ends with the decision's error and trace, before any tool
    endpoint is called; the errors of the dispatcher and of the last
    validations never come out of a run. *)
Theorem run_fails_only_in_decision :
  forall w msg hist ctx e,
    outcome (orchestrate_with_gemini w msg hist ctx) = Err e ->
    decision_error e = true
    /\ get_tool_decision w msg hist ctx
       = (trace_of (orchestrate_with_gemini w msg hist ctx), Err e)
    /\ forallb (fun ev => negb (is_post ev))
         (trace_of (orchestrate_with_gemini w msg hist ctx)) = true.
Proof.
  intros w msg hist ctx e He.
  pose proof (get_tool_decision_no_post w msg hist ctx) as NP.
  destruct (get_tool_decision w msg hist ctx) as [t [d|e0]] eqn:Hd.
  - destruct (orchestrate_after_ok w msg hist ctx t d Hd) as (s & r & t' & _ & E & _).
    rewrite E in He. discriminate He.
  - rewrite (orchestrate_after_err w msg hist ctx t e0 Hd) in *.
    cbn [outcome trace_of fst snd] in *. injection He as ->.
    split; [now apply (get_tool_decision_errors w msg hist ctx t)|].
    split; [reflexivity|assumption].
Qed.

Lemma run_fails_only_in_decision_witness :
  let w := {| model_reply :=
                Some (Json.dq "{'tool':'flashcard_generator','parameters':{'topic':'sets','count':50}}");
              tool_reply := fun _ _ => None;
              set_iter := fun l => l |} in
  decision_error InferenceInvalid = true
  /\ forallb (fun ev => negb (is_post ev))
       (trace_of (orchestrate_with_gemini w "quiz me on sets" [] [])) = true.
Proof.
  intros w.
  destruct (run_fails_only_in_decision w "quiz me on sets" [] [] InferenceInvalid
              eq_refl) as (H1 & _ & H3).
  split; assumption.
Defined.

(** X3: a decision that [get_tool_decision] returns names a registered
    tool and carries parameters that satisfy that tool's schema, whether
    they are the model's own or were completed by inference. *)
Theorem decision_is_registered_and_valid :
  forall w msg hist ctx t d,
    get_tool_decision w msg hist ctx = (t, Ok d) ->
    exists s,
      assoc TOOL_PARAM_SCHEMAS (d_tool d) = Some s
      /\ validate (VDict (d_parameters d)) s = true.
Proof.
  intros w msg hist ctx t d Hd.
  destruct (get_tool_decision_ok w msg hist ctx t d Hd) as (s & Hs & Hv & _).
  now exists s.
Qed.

Lemma decision_is_registered_and_valid_witness :
  let w := {| model_reply :=
                Some (Json.dq "Sure: {'tool':'concept_explainer','parameters':{'current_topic':'heat'}}");
              tool_reply := fun _ _ => None;
              set_iter := fun l => rev l |} in
  exists d s,
    outcome (get_tool_decision w "what is entropy?" [] []) = Ok d
    /\ assoc TOOL_PARAM_SCHEMAS (d_tool d) = Some s
    /\ validate (VDict (d_parameters d)) s = true.
Proof.
  intros w.
  destruct (get_tool_decision w "what is entropy?" [] []) as [t [d|e]] eqn:E;
    [|vm_compute in E; discriminate E].
  destruct (decision_is_registered_and_valid w "what is entropy?" [] [] t d E)
    as (s & Hs & Hv).
  exists d, s. repeat split; assumption.
Defined.

Lemma count_events_app p (t1 t2 : list event) :
  count_events p (t1 ++ t2) = count_events p t1 + count_events p t2.
Proof. unfold count_events. now rewrite filter_app, length_app. Qed.

Lemma no_post_count (t : list event) :
  forallb (fun ev => negb (is_post ev)) t = true -> count_events is_post t = 0.
Proof.
  unfold count_events. induction t as [|ev t IH]; simpl; [reflexivity|].
  intros H. apply andb_true_iff in H as [H1 H2]. apply negb_true_iff in H1.
  rewrite H1. auto.
Qed.

(** X4: a run asks the model once, infers at most once and posts to a
    tool endpoint at most once, with no retry of the tool call; a warning
    is only logged for a post that failed; and the run returns a result
    exactly when it posted. *)
Theorem run_calls_at_most_once :
  forall w msg hist ctx,
    let t := trace_of (orchestrate_with_gemini w msg hist ctx) in
    count_events is_ask t = 1
    /\ count_events is_infer t <= 1
    /\ count_events is_post t <= 1
    /\ count_events is_warn t <= count_events is_post t
    /\ ((exists o, outcome (orchestrate_with_gemini w msg hist ctx) = Ok o)
        <-> count_events is_post t = 1).
Proof.
  intros w msg hist ctx.
  destruct (get_tool_decision_counts w msg hist ctx) as (Ca & Ci & Cp & Cw).
  destruct (get_tool_decision w msg hist ctx) as [t0 [d|e]] eqn:Hd;
    unfold trace_of in Ca, Ci, Cp, Cw; cbn [fst] in Ca, Ci, Cp, Cw.
  - destruct (orchestrate_after_ok w msg hist ctx t0 d Hd)
      as (s & r & t' & _ & E & Ht').
    rewrite E. cbn [trace_of outcome fst snd].
    rewrite !count_events_app, Ca, Cp, Cw.
    destruct Ht' as [->| ->]; cbn; repeat split; try lia; eauto.
  - rewrite (orchestrate_after_err w msg hist ctx t0 e Hd).
    cbn [trace_of outcome fst snd]. rewrite Ca, Cp, Cw.
    repeat split; try lia; try (intros [o Ho]; discriminate Ho).
Qed.

(** X5: the parameters a run returns, which are the ones it posts, carry
    the caller's profile under user_info and the caller's history under
    chat_history, whatever the model put under those keys, and keep every
    other field of the decision. *)
Theorem run_attaches_profile_and_history :
  forall w msg hist ctx o,
    outcome (orchestrate_with_gemini w msg hist ctx) = Ok o ->
    dict_get (o_parameters o) "user_info" = Some (ctx_value ctx)
    /\ dict_get (o_parameters o) "chat_history" = Some (VList hist)
    /\ In (EvPost (o_tool o) (o_parameters o))
         (trace_of (orchestrate_with_gemini w msg hist ctx))
    /\ exists t d,
         get_tool_decision w msg hist ctx = (t, Ok d)
         /\ o_tool o = d_tool d
         /\ forall k v,
              k <> "user_info" -> k <> "chat_history" ->
              dict_get (d_parameters d) k = Some v ->
              dict_get (o_parameters o) k = Some v.
Proof.
  intros w msg hist ctx o Ho.
  destruct (get_tool_decision w msg hist ctx) as [t [d|e]] eqn:Hd.
  - destruct (orchestrate_after_ok w msg hist ctx t d Hd) as (s & r & t' & _ & E & _).
    rewrite E in *. cbn [outcome trace_of fst snd] in *. injection Ho as <-.
    cbn [o_parameters o_tool].
    destruct (final_parameters_aux d hist ctx) as [Hu Hh].
    split; [assumption|]. split; [assumption|]. split.
    + apply in_or_app. right. simpl. auto.
    + exists t, d. split; [reflexivity|]. split; [reflexivity|].
      intros k v H1 H2 Hk. unfold final_parameters. apply infer_defaults_keeps.
      rewrite !dict_get_set_ne by congruence. assumption.
  - rewrite (orchestrate_after_err w msg hist ctx t e Hd) in Ho. discriminate Ho.
Qed.

Lemma run_attaches_profile_and_history_witness :
  let w := {| model_reply :=
                Some (Json.dq "{'tool':'concept_explainer','parameters':{'concept_to_explain':'osmosis','current_topic':'biology','desired_depth':'basic','user_info':{'role':'admin'}}}");
              tool_reply := fun _ _ => Some (VDict []);
              set_iter := fun l => l |} in
  let ctx := get_user_context "student123" in
  exists o,
    outcome (orchestrate_with_gemini w "explain osmosis" [] ctx) = Ok o
    /\ dict_get (o_parameters o) "user_info" = Some (ctx_value ctx)
    /\ dict_get (o_parameters o) "chat_history" = Some (VList []).
Proof.
  intros w ctx.
  destruct (outcome (orchestrate_with_gemini w "explain osmosis" [] ctx))
    as [o|e] eqn:E; [|vm_compute in E; discriminate E].
  destruct (run_attaches_profile_and_history w "explain osmosis" [] ctx o E)
    as (H1 & H2 & _).
  exists o. repeat split; assumption.
Defined.

(** X6: the endpoint answers 200 with ok = true and the run's tool,
    parameters and result, the parameters carrying the stub profile of the
    request's user_id and the request's history as dicts, after exactly
    one post; or it answers 500 with an error of the decision step, and
    then no tool endpoint was called. *)
Theorem endpoint_answers :
  forall w payload,
    let (t, response) := orchestrate_endpoint w payload in
    match response with
    | Http200 body =>
        exists o,
          body = VDict [("ok", VBool true); ("data", orchestration_value o)]
          /\ dict_get (o_parameters o) "user_info"
             = Some (ctx_value (get_user_context (user_id payload)))
          /\ dict_get (o_parameters o) "chat_history"
             = Some (VList (map message_dict
                              (match chat_history payload with
                               | Some l => l
                               | None => []
                               end)))
          /\ count_events is_post t = 1
    | Http500 e =>
        decision_error e = true /\ count_events is_post t = 0
    end.
Proof.
  intros w payload. unfold orchestrate_endpoint. cbv zeta.
  set (ctx := get_user_context (user_id payload)).
  set (hist := map message_dict _).
  destruct (get_tool_decision_counts w (message payload) hist ctx) as (_ & _ & Cp & _).
  destruct (get_tool_decision w (message payload) hist ctx) as [t0 [d|e]] eqn:Hd;
    unfold trace_of in Cp; cbn [fst] in Cp.
  - destruct (orchestrate_after_ok w _ hist ctx t0 d Hd)
      as (s & r & t' & _ & E & Ht').
    rewrite E. eexists. split; [reflexivity|]. cbn [o_parameters].
    destruct (final_parameters_aux d hist ctx) as [Hu Hh].
    split; [assumption|]. split; [assumption|].
    rewrite !count_events_app, Cp. destruct Ht' as [->| ->]; reflexivity.
  - rewrite (orchestrate_after_err w _ hist ctx t0 e Hd).
    split; [now apply (get_tool_decision_errors w (message payload) hist ctx t0)|].
    assumption.
Qed.

Lemma run_calls_at_most_once_witness :
  let w := {| model_reply :=
                Some (Json.dq "{'tool':'note_maker','parameters':{'topic':'osmosis'}}");
              tool_reply := fun _ _ => None;
              set_iter := fun l => l |} in
  let t := trace_of (orchestrate_with_gemini w "tell me about osmosis" [] []) in
  count_events is_ask t = 1 /\ count_events is_post t <= 1
  /\ count_events is_warn t <= count_events is_post t.
Proof.
  intros w t.
  destruct (run_calls_at_most_once w "tell me about osmosis" [] [])
    as (H1 & _ & H3 & H4 & _).
  repeat split; assumption.
Defined.

Lemma endpoint_answers_witness :
  let w := {| model_reply := None;
              tool_reply := fun _ _ => None;
              set_iter := fun l => l |} in
  let payload := {| user_id := "student123"; message := "hello";
                    chat_history := None |} in
  orchestrate_endpoint w payload = ([EvAsk], Http500 ModelUnavailable)
  /\ decision_error ModelUnavailable = true.
Proof.
  intros w payload.
  pose proof (endpoint_answers w payload) as H.
  destruct (orchestrate_endpoint w payload) as [t [body|e]] eqn:E;
    vm_compute in E; [discriminate E|].
  injection E as <- <-. split; [reflexivity|]. apply H.
Defined.

(* ------------------------------------------------------------------ *)
(** ** The second defaulting pass inside a run *)

(** X7: in a run the second defaulting pass never chooses a required
    field.  A decision holds every required field of its tool, so of the
    pass's [setdefault] calls only those for [include_examples] and
    [include_analogies] can write: every other field of the parameters
    posted, [count], [difficulty], [desired_depth] and [note_taking_style]
    among them, is the decision's, and for the flashcard tool the pass
    changes nothing at all. *)
Theorem run_defaults_fill_only_optional :
  forall w msg hist ctx t d,
    get_tool_decision w msg hist ctx = (t, Ok d) ->
    let merged :=
      dict_set (dict_set (d_parameters d) "user_info" (ctx_value ctx))
        "chat_history" (VList hist) in
    (forall k, k <> "include_examples" -> k <> "include_analogies" ->
        dict_get (final_parameters d hist ctx) k = dict_get merged k)
    /\ (d_tool d = "flashcard_generator" -> final_parameters d hist ctx = merged).
Proof.
  intros w msg hist ctx t d Hd merged.
  destruct (get_tool_decision_ok w msg hist ctx t d Hd) as (s & Hs & Hv & _).
  apply validate_elim in Hv as [Hreq _].
  assert (Hm : forall k, In k (required s) -> dict_has merged k = true).
  { intros k Hk. unfold merged. rewrite !dict_has_set, (Hreq k Hk).
    now rewrite !orb_true_r. }
  unfold final_parameters. fold merged.
  destruct (registered_tools _ _ Hs) as [E|[E|E]]; rewrite E in *;
    injection Hs as <-; cbn [required] in Hm.
  - split; [|discriminate]. intros k H1 H2.
    rewrite infer_defaults_note_maker. cbv zeta.
    rewrite (dict_get_setdefault_ne _ _ _ _ (not_eq_sym H2)),
            (dict_get_setdefault_ne _ _ _ _ (not_eq_sym H1)).
    now rewrite dict_setdefault_has by (apply Hm; simpl; auto).
  - assert (F : _infer_defaults merged "flashcard_generator" ctx = merged).
    { rewrite infer_defaults_flashcard.
      rewrite (dict_setdefault_has merged "count") by (apply Hm; simpl; auto).
      apply dict_setdefault_has. apply Hm; simpl; auto. }
    split; [intros; now rewrite F|intros _; exact F].
  - split; [|discriminate]. intros k H1 H2.
    rewrite infer_defaults_explainer.
    rewrite (dict_get_setdefault_ne _ _ _ _ (not_eq_sym H1)).
    now rewrite dict_setdefault_has by (apply Hm; simpl; auto).
Qed.

Lemma run_defaults_fill_only_optional_witness :
  let w := {| model_reply :=
                Some (Json.dq "{'tool':'flashcard_generator','parameters':{'topic':'cells','count':3,'difficulty':'hard','subject':'biology'}}");
              tool_reply := fun _ _ => None;
              set_iter := fun l => l |} in
  let ctx := [("mastery_level_summary", "Level 2: Beginner")] in
  let params := [("topic", VStr "cells"); ("count", VInt 3);
                 ("difficulty", VStr "hard"); ("subject", VStr "biology")] in
  final_parameters {| d_tool := "flashcard_generator"; d_parameters := params |} [] ctx
  = params ++ [("user_info", ctx_value ctx); ("chat_history", VList [])].
Proof.
  intros w ctx params.
  apply (proj2 (run_defaults_fill_only_optional w "quiz me on cells" [] ctx
                  [EvAsk; EvValidate (VDict params) true]
                  {| d_tool := "flashcard_generator"; d_parameters := params |}
                  eq_refl)).
  reflexivity.
Defined.

(* ------------------------------------------------------------------ *)
(** ** The retry loop of the model gateway *)

Section GatewayFacts.
Variable post : nat -> http_outcome.

Lemma ask_loop_spec n :
  forall i,
    match ask_loop post i n with
    | (sent, Some text) =>
        i < sent <= i + n
        /\ attempt_text (post (sent - 1)) = Some text
        /\ forall j, i <= j < sent - 1 -> attempt_text (post j) = None
    | (sent, None) =>
        sent = i + n
        /\ forall j, i <= j < i + n -> attempt_text (post j) = None
    end.
Proof.
  induction n as [|n IH]; intros i.
  - simpl. split; [lia|]. intros j Hj. lia.
  - cbn [ask_loop].
    assert (Hnext : attempt_text (post i) = None ->
              match ask_loop post (S i) n with
              | (sent, Some text) =>
                  i < sent <= i + S n
                  /\ attempt_text (post (sent - 1)) = Some text
                  /\ forall j, i <= j < sent - 1 -> attempt_text (post j) = None
              | (sent, None) =>
                  sent = i + S n
                  /\ forall j, i <= j < i + S n -> attempt_text (post j) = None
              end).
    { intros Hi. specialize (IH (S i)).
      destruct (ask_loop post (S i) n) as [sent [text|]].
      - destruct IH as (Hs & Ht & Hj). split; [lia|]. split; [assumption|].
        intros j Hjr. destruct (Nat.eq_dec j i) as [->|]; [assumption|].
        apply Hj. lia.
      - destruct IH as (Hs & Hj). split; [lia|].
        intros j Hjr. destruct (Nat.eq_dec j i) as [->|]; [assumption|].
        apply Hj. lia. }
    destruct (post i) as [|data] eqn:Ep.
    + apply Hnext. reflexivity.
    + destruct (envelope_text data) as [text|] eqn:Et.
      * replace (S i - 1) with i by lia. rewrite Ep. cbn [attempt_text].
        split; [lia|]. split; [assumption|]. intros j Hj. lia.
      * apply Hnext. assumption.
Qed.

End GatewayFacts.

(** X8: [ask_gemini] sends at most [MAX_RETRIES + 1] requests, one after
    the other, and stops at the first attempt whose reply yields a text:
    it returns that text, every earlier attempt having failed.  It raises
    only after all [MAX_RETRIES + 1] attempts failed, which is at once
    when [MAX_RETRIES] is negative. *)
Theorem gateway_returns_first_text :
  forall MAX_RETRIES post,
    let attempts := Z.to_nat (MAX_RETRIES + 1) in
    match ask_gemini_attempts MAX_RETRIES post with
    | (sent, Some text) =>
        0 < sent <= attempts
        /\ attempt_text (post (sent - 1)) = Some text
        /\ forall j, j < sent - 1 -> attempt_text (post j) = None
    | (sent, None) =>
        sent = attempts
        /\ forall j, j < attempts -> attempt_text (post j) = None
    end.
Proof.
  intros R post attempts. unfold ask_gemini_attempts. fold attempts.
  pose proof (ask_loop_spec post attempts 0) as H.
  destruct (ask_loop post 0 attempts) as [sent [text|]].
  - destruct H as (Hs & Ht & Hj). split; [lia|]. split; [assumption|].
    intros j Hjr. apply Hj. lia.
  - destruct H as (Hs & Hj). split; [lia|]. intros j Hjr. apply Hj. lia.
Qed.

(** X9: a reply with status 200 is not always the end of the loop, and
    not always a model text.  An object without [candidates] ends it at
    the first request with the JSON text of the whole reply; an object
    whose [candidates] is the empty list raises inside the [try], so it is
    retried like a failed request, and when every reply is such the call
    fails after [MAX_RETRIES + 1] requests. *)
Theorem gateway_error_body_and_empty_candidates :
  forall MAX_RETRIES post d,
    (0 <= MAX_RETRIES)%Z ->
    (post 0 = HttpJson (VDict d) -> dict_has d "candidates" = false ->
       ask_gemini_attempts MAX_RETRIES post
       = (1, Some (VStr (json_dumps (VDict d)))))
    /\ ((forall i, post i = HttpJson (VDict d)) ->
        dict_get d "candidates" = Some (VList []) ->
        ask_gemini_attempts MAX_RETRIES post
        = (Z.to_nat (MAX_RETRIES + 1), None)).
Proof.
  intros R post d HR. split.
  - intros Hp Hc. unfold ask_gemini_attempts.
    destruct (Z.to_nat (R + 1)) as [|n] eqn:En; [lia|].
    cbn [ask_loop]. rewrite Hp.
    assert (E : envelope_text (VDict d) = Some (VStr (json_dumps (VDict d)))).
    { unfold envelope_text, py_get, dict_get_or.
      unfold dict_has in Hc.
      destruct (dict_get d "candidates"); [discriminate|]. reflexivity. }
    now rewrite E.
  - intros Hp Hc.
    assert (E : envelope_text (VDict d) = None).
    { unfold envelope_text, py_get, dict_get_or. now rewrite Hc. }
    unfold ask_gemini_attempts.
    pose proof (ask_loop_spec post (Z.to_nat (R + 1)) 0) as H.
    destruct (ask_loop post 0 (Z.to_nat (R + 1))) as [sent [text|]].
    + destruct H as (_ & Ht & _). rewrite Hp in Ht. cbn [attempt_text] in Ht.
      congruence.
    + destruct H as [-> _]. reflexivity.
Qed.

Lemma gateway_error_body_and_empty_candidates_witness :
  let body := [("error", VDict [("code", VInt 429)])] in
  ask_gemini_attempts 2 (fun _ => HttpJson (VDict body))
  = (1, Some (VStr (json_dumps (VDict body)))).
Proof.
  intros body.
  apply (proj1 (gateway_error_body_and_empty_candidates 2
                  (fun _ => HttpJson (VDict body)) body ltac:(lia)));
    reflexivity.
Defined.

(* ------------------------------------------------------------------ *)
(** ** What the extractor returns *)

Section ObjectFacts.
Import Json.

(** Every span opens with a brace. *)
Lemma spans_open (l : list ascii) :
  forall depth cur,
    match depth with
    | 0 => cur = []
    | S _ => exists c, rev cur = "{"%char :: c
    end ->
    Forall (fun s => exists r, chars s = "{"%char :: r) (spans depth cur l).
Proof.
  induction l as [|ch l IH]; intros depth cur Hcur; [constructor|].
  cbn [spans]. unfold is_open, is_close.
  destruct (Ascii.eqb_spec ch "{") as [->|Ho].
  - apply IH. destruct depth as [|depth].
    + subst cur. now exists [].
    + destruct Hcur as [c Hc]. exists (c ++ ["{"%char]). simpl. now rewrite Hc.
  - destruct (Ascii.eqb_spec ch "}") as [->|Hcl].
    + destruct depth as [|[|depth]].
      * now apply IH.
      * constructor; [|now apply IH].
        destruct Hcur as [c Hc]. exists (c ++ ["}"%char]).
        rewrite chars_str. simpl. now rewrite Hc.
      * apply IH. destruct Hcur as [c Hc]. exists (c ++ ["}"%char]).
        simpl. now rewrite Hc.
    + destruct depth as [|depth]; [now apply IH|].
      apply IH. destruct Hcur as [c Hc]. exists (c ++ [ch]). simpl. now rewrite Hc.
Qed.

(** The members of an object decode to an object. *)
Lemma parse_members_object (n : nat) :
  forall acc l v r, parse_members n acc l = Some (v, r) -> exists d, v = VDict d.
Proof.
  induction n as [|f IH]; intros acc l v r; [discriminate|].
  cbn [parse_members].
  destruct l as [|q l']; [discriminate|].
  destruct (negb (q =? dquote)%char); [discriminate|].
  destruct (scan_string [] l') as [[k r1]|]; [|discriminate].
  destruct (skip_ws r1) as [|colon r2]; [discriminate|].
  destruct (negb (colon =? ":")%char); [discriminate|].
  destruct (parse_value f (skip_ws r2)) as [[x r3]|]; [|discriminate].
  destruct (skip_ws r3) as [|sep r4]; [discriminate|].
  destruct (sep =? ",")%char; [apply IH|].
  destruct (sep =? "}")%char; [|discriminate].
  intros [= <- <-]. eexists; reflexivity.
Qed.

(** A text that opens with a brace decodes to an object, if it decodes. *)
Lemma loads_object (s : string) (rest : list ascii) (v : value) :
  chars s = "{"%char :: rest -> loads s = Some v -> exists d, v = VDict d.
Proof.
  intros Hs. unfold loads, loads_chars. rewrite Hs.
  cbn [skip_ws drop_while is_ws code]. 
  change (is_ws "{") with false. cbn [parse_value].
  change ("{" =? "{")%char with true. cbv iota.
  destruct (skip_ws rest) as [|c' r']; [discriminate|].
  destruct (c' =? "}")%char.
  - destruct (skip_ws r'); [|discriminate]. intros [= <-]. eexists; reflexivity.
  - destruct (parse_members _ [] (c' :: r')) as [[x r]|] eqn:E; [|discriminate].
    destruct (skip_ws r); [|discriminate]. intros [= <-].
    now apply parse_members_object in E.
Qed.

Lemma first_decoded_some decode (P : string -> Prop) l v :
  Forall P l -> first_decoded decode l = Some v ->
  exists s, P s /\ decode s = Some v.
Proof.
  induction 1 as [|s l Hs Hl IH]; [discriminate|]. simpl.
  destruct (decode s) eqn:E.
  - intros [= <-]. now exists s.
  - exact IH.
Qed.

End ObjectFacts.

(** X10: [_extract_first_json] returns JSON objects only.  What it returns
    is the decoding of one of the top-level spans of the text; a span
    opens with a brace, and a text that opens with a brace decodes to an
    object or not at all.  So the [isinstance(parsed, dict)] test of
    [get_tool_decision] never fails. *)
Theorem extract_first_json_returns_objects :
  forall text v,
    _extract_first_json text = Some v ->
    exists span rest d,
      In span (top_level_spans text)
      /\ chars span = "{"%char :: rest
      /\ Json.loads span = Some v
      /\ v = VDict d.
Proof.
  intros text v. unfold _extract_first_json. rewrite extract_with_spans.
  intros H.
  assert (Hopen : Forall (fun s => In s (top_level_spans text)
                                   /\ exists r, chars s = "{"%char :: r)
                    (top_level_spans text)).
  { apply Forall_forall. intros s Hin. split; [assumption|].
    pose proof (spans_open (chars text) 0 [] eq_refl) as F.
    apply (proj1 (Forall_forall _ _) F s Hin). }
  destruct (first_decoded_some _ _ _ _ Hopen H) as (s & (Hin & rest & Hs) & Hv).
  destruct (loads_object s rest v Hs Hv) as [d ->].
  exists s, rest, d. repeat split; assumption.
Qed.

Lemma extract_first_json_returns_objects_witness :
  exists span rest d,
    In span (top_level_spans (Json.dq "[1, {'tool': 'note_maker'}]"))
    /\ chars span = "{"%char :: rest
    /\ Json.loads span = Some (VDict [("tool", VStr "note_maker")])
    /\ VDict [("tool", VStr "note_maker")] = VDict d.
Proof.
  apply (extract_first_json_returns_objects
           (Json.dq "[1, {'tool': 'note_maker'}]")
           (VDict [("tool", VStr "note_maker")]) eq_refl).
Defined.

(* ------------------------------------------------------------------ *)
(** ** A reply without a JSON object *)

Lemma no_open_brace_spans (raw : string) :
  no_open_brace raw = true -> top_level_spans raw = [].
Proof.
  intros H. unfold top_level_spans.
  rewrite <- (app_nil_r (chars raw)). now rewrite spans_skip_prefix.
Qed.

Lemma get_tool_decision_no_json w msg hist ctx raw :
  model_reply w = Some raw ->
  (get_tool_decision w msg hist ctx = ([EvAsk], Err NoJsonFound)
   <-> _extract_first_json raw = None).
Proof.
  intros Hr.
  unfold get_tool_decision, ask_gemini, validated, bind, emit, ret, raise.
  rewrite Hr. split.
  - split_match; cbn [app]; try discriminate; reflexivity.
  - intros ->. reflexivity.
Qed.

Lemma no_close_brace_spans (raw : string) :
  no_close_brace raw = true -> top_level_spans raw = [].
Proof.
  unfold no_close_brace, top_level_spans.
  generalize (@nil ascii) as cur. generalize 0 as depth.
  induction (chars raw) as [|ch l IH]; intros depth cur H; [reflexivity|].
  simpl in H. apply andb_true_iff in H as [Hc Hl]. apply negb_true_iff in Hc.
  cbn [spans]. rewrite Hc.
  destruct (is_open ch); [now apply IH|].
  destruct depth; now apply IH.
Qed.

(** X11: a run ends right after the model call, with nothing validated
    and no tool called, when the model is unavailable and when its reply
    has no brace-balanced span for the extractor to decode: a reply with
    no opening brace, one with no closing brace (an object cut off before
    its end), and any other reply whose list of top-level spans is empty.
    The error is [ModelUnavailable] in the first case and [NoJsonFound] in
    the others; the decoder is not called at all. *)
Theorem run_without_json :
  forall w msg hist ctx,
    (model_reply w = None ->
     orchestrate_with_gemini w msg hist ctx = ([EvAsk], Err ModelUnavailable))
    /\ (forall raw,
          model_reply w = Some raw ->
          no_open_brace raw = true \/ no_close_brace raw = true
          \/ top_level_spans raw = [] ->
          orchestrate_with_gemini w msg hist ctx = ([EvAsk], Err NoJsonFound)).
Proof.
  intros w msg hist ctx. split.
  - intros Hr. apply orchestrate_after_err.
    unfold get_tool_decision, ask_gemini, bind, emit, raise. now rewrite Hr.
  - intros raw Hr H.
    assert (Hspans : top_level_spans raw = []).
    { destruct H as [H|[H|H]];
        [now apply no_open_brace_spans|now apply no_close_brace_spans|exact H]. }
    apply orchestrate_after_err.
    apply (get_tool_decision_no_json w msg hist ctx raw Hr).
    unfold _extract_first_json. rewrite extract_with_spans, Hspans. reflexivity.
Qed.

Lemma run_without_json_witness :
  let w := {| model_reply := Some "I think the note maker fits best.";
              tool_reply := fun _ _ => None;
              set_iter := fun l => l |} in
  let w' := {| model_reply := Some (Json.dq "{'tool': 'note_maker', 'parameters': {'topic': 'osm");
               tool_reply := fun _ _ => None;
               set_iter := fun l => l |} in
  orchestrate_with_gemini w "explain osmosis" [] (get_user_context "student123")
  = ([EvAsk], Err NoJsonFound)
  /\ orchestrate_with_gemini w' "explain osmosis" [] (get_user_context "student123")
     = ([EvAsk], Err NoJsonFound).
Proof.
  intros w w'. split.
  - apply (proj2 (run_without_json w "explain osmosis" []
                    (get_user_context "student123"))
             "I think the note maker fits best." eq_refl).
    left. reflexivity.
  - apply (proj2 (run_without_json w' "explain osmosis" []
                    (get_user_context "student123"))
             (Json.dq "{'tool': 'note_maker', 'parameters': {'topic': 'osm") eq_refl).
    right. left. reflexivity.
Defined.

(* ------------------------------------------------------------------ *)
(** ** The candidate topics *)

Section CandidateFacts.

Lemma mem_In (k : string) (l : list string) : mem k l = true <-> In k l.
Proof.
  unfold mem. rewrite existsb_exists. split.
  - intros (x & Hin & E). apply String.eqb_eq in E. now subst.
  - intros H. exists k. split; [assumption|apply String.eqb_refl].
Qed.

(** The [seen]/[out] loop keeps the first occurrence of every string. *)
Lemma dedupe_spec (l : list string) :
  forall seen,
    NoDup (dedupe seen l)
    /\ forall x, In x (dedupe seen l) <-> In x l /\ ~ In x seen.
Proof.
  induction l as [|c l IH]; intros seen; cbn [dedupe].
  - split; [constructor|]. intros x. simpl. tauto.
  - destruct (mem c seen) eqn:E.
    + destruct (IH seen) as [Hn Hi]. split; [assumption|].
      intros x. rewrite Hi. apply mem_In in E. simpl.
      split; [tauto|]. intros [[<-|H] Hs]; [contradiction|tauto].
    + destruct (IH (c :: seen)) as [Hn Hi].
      assert (Hc : ~ In c seen).
      { intros H. apply mem_In in H. congruence. }
      split.
      * constructor; [|assumption]. rewrite Hi. simpl. tauto.
      * intros x. simpl. rewrite Hi. simpl.
        destruct (string_dec c x) as [<-|Hne]; tauto.
Qed.

Lemma join_two_nonempty (sep a b : string) (l : list string) :
  sep <> "" -> join sep (a :: b :: l) <> "".
Proof.
  intros Hsep. cbn [join]. destruct a; [|discriminate].
  simpl. destruct sep; [contradiction|discriminate].
Qed.

End CandidateFacts.

(** X12: [_extract_candidates_for_concept] never returns an empty list and
    never the same candidate twice, and it returns the empty string only
    for a message that is blank.  So [candidates[0] if candidates else ...]
    in the inferencer always takes [candidates[0]]: its fallbacks, the
    whole message and ["general"], are never used. *)
Theorem candidates_nonempty_distinct :
  forall message,
    let candidates := _extract_candidates_for_concept message in
    (exists c rest,
        candidates = c :: rest
        /\ forall fallback, first_candidate candidates fallback = c)
    /\ NoDup candidates
    /\ (In "" candidates -> strip message = "").
Proof.
  intros message candidates. unfold candidates, _extract_candidates_for_concept.
  cbv zeta.
  set (msg := strip message).
  set (found := flat_map _ Patterns.patterns).
  set (pre := match found with [] => _ | _ :: _ => found end).
  assert (Hfound : ~ In "" found).
  { unfold found. rewrite in_flat_map. intros (pat & _ & Hin).
    destruct (Re.search_group1 pat (lower msg)) as [g|]; [|destruct Hin].
    destruct (String.eqb_spec (strip (Re.sub_trailing_punct (strip g))) "")
      as [E|E]; [destruct Hin|].
    destruct Hin as [Hin|[]]. congruence. }
  assert (Hpre : pre <> [] /\ (In "" pre -> msg = "")).
  { unfold pre. destruct found as [|c found'] eqn:Ef.
    - destruct (length (split msg) <=? 6)%nat eqn:El.
      + split; [discriminate|]. intros [H|[]]. now symmetry.
      + split; [discriminate|]. intros [H|[]]. exfalso.
        apply Nat.leb_gt in El.
        destruct (split msg) as [|a [|b l]]; simpl in El; try lia.
        apply (join_two_nonempty " " a b (firstn 4 l)); [discriminate|].
        exact H.
    - split; [discriminate|]. intros H. contradiction. }
  destruct Hpre as [Hne Hempty].
  destruct (dedupe_spec pre []) as [Hnd Hin].
  split; [|split].
  - destruct pre as [|c rest]; [contradiction|].
    cbn [dedupe mem existsb]. exists c, (dedupe [c] rest).
    split; reflexivity.
  - exact Hnd.
  - intros H. apply Hempty. now apply Hin in H.
Qed.

Lemma candidates_nonempty_distinct_witness :
  _extract_candidates_for_concept "   " = [""] /\ strip "   " = "".
Proof.
  split; [reflexivity|].
  apply (proj2 (proj2 (candidates_nonempty_distinct "   "))).
  left. reflexivity.
Defined.

(* ------------------------------------------------------------------ *)
(** ** The inferencer, field by field *)

Section InferenceByKey.
Variables (msg : string) (ctx : context) (tool : string).

Let C := VStr (first_candidate (_extract_candidates_for_concept msg) msg).

Lemma safety_item_get x kv k :
  dict_get (safety_item msg tool x kv) k
  = if (fst kv =? k)%string
    then match snd kv with
         | VNone => match null_fallback tool msg k with
                    | Some v' => Some v'
                    | None => dict_get x k
                    end
         | _ => dict_get x k
         end
    else dict_get x k.
Proof.
  unfold safety_item, null_fallback. destruct kv as [k' v]. cbn [fst snd].
  destruct (String.eqb_spec k' k) as [->|Hne].
  - destruct v; try reflexivity.
    destruct (option_map p_type (assoc (properties_of tool) k)) as [[]|];
      try reflexivity; apply dict_get_set_eq.
  - destruct v; try reflexivity.
    destruct (option_map p_type (assoc (properties_of tool) k')) as [[]|];
      try reflexivity; now apply dict_get_set_ne.
Qed.

(** The safety pass, field by field. *)
Lemma safety_get f k :
  wf_dict f ->
  dict_get (fold_left (safety_item msg tool) f f) k
  = option_map (without_null tool msg k) (dict_get f k).
Proof.
  intros Hwf.
  assert (G : forall snap x,
             NoDup (dict_keys snap) ->
             (forall k' v, In (k', v) snap -> dict_get x k' = Some v) ->
             dict_get (fold_left (safety_item msg tool) snap x) k
             = if mem k (dict_keys snap)
               then option_map (without_null tool msg k) (dict_get x k)
               else dict_get x k).
  { induction snap as [|[k1 v1] snap IH]; intros x Hnd Hx; [reflexivity|].
    cbn [fold_left]. inversion Hnd as [|? ? Hnotin Hnd']; subst.
    rewrite IH; [|assumption|].
    - rewrite safety_item_get. cbn [fst snd dict_keys map mem existsb].
      rewrite (String.eqb_sym k k1).
      destruct (String.eqb_spec k1 k) as [->|Hne].
      + assert (Hm : mem k (dict_keys snap) = false).
        { destruct (mem k (dict_keys snap)) eqn:E; [|reflexivity].
          apply existsb_exists in E as (y & Hy & Ey).
          apply String.eqb_eq in Ey. subst y. contradiction. }
        rewrite Hm. cbn [orb].
        rewrite (Hx k v1 (or_introl eq_refl)).
        destruct v1; cbn [option_map without_null]; try reflexivity.
        now destruct (null_fallback tool msg k).
      + reflexivity.
    - intros k' v Hin. rewrite safety_item_get. cbn [fst snd].
      destruct (String.eqb_spec k1 k') as [->|Hne].
      + exfalso. apply Hnotin. apply in_map_iff. now exists (k', v).
      + apply Hx. now right. }
  rewrite G; [|exact Hwf|intros k' v; now apply in_wf_dict_get].
  destruct (mem k (dict_keys f)) eqn:E; [reflexivity|].
  destruct (dict_get f k) as [v|] eqn:Eg; [|reflexivity].
  apply dict_get_in in Eg.
  assert (mem k (dict_keys f) = true); [|congruence].
  apply existsb_exists. exists k. split; [|apply String.eqb_refl].
  apply in_map_iff. now exists (k, v).
Qed.

(** A rule writes nothing, or a value that depends on the mapping through
    the concept field alone. *)
Lemma infer_key_rule key :
  (forall f, infer_key msg ctx tool f key = f)
  \/ exists g, forall f,
       infer_key msg ctx tool f key
       = dict_set f key (g (dict_get_or f "concept_to_explain" C)).
Proof.
  unfold infer_key. cbv beta zeta. fold C. split_ifs; try subst key;
    first [ left; intros f; reflexivity
          | right; exists (fun v => v); intros f; reflexivity
          | right; eexists (fun _ => _); intros f; reflexivity ].
Qed.

Lemma infer_key_concept f :
  dict_get f "concept_to_explain" = None ->
  dict_get_or (infer_key msg ctx tool f "concept_to_explain") "concept_to_explain" C
  = C.
Proof.
  intros Hf. unfold infer_key. cbv beta zeta. fold C.
  cbn [String.eqb Ascii.eqb Bool.eqb].
  split_ifs; unfold dict_get_or; rewrite ?dict_get_set_eq, ?Hf; reflexivity.
Qed.

(** Each missing key gets the value its rule gives on the model's mapping. *)
Lemma fold_infer_closed params missing :
  (forall k, In k missing -> dict_get params k = None) ->
  forall k, In k missing ->
    dict_get (fold_left (infer_key msg ctx tool) missing params) k
    = dict_get (infer_key msg ctx tool params k) k.
Proof.
  induction missing as [|a l IH] using rev_ind; intros Habs k Hin; [destruct Hin|].
  rewrite fold_left_app. cbn [fold_left].
  set (F := fold_left (infer_key msg ctx tool) l params).
  assert (Hl : forall k, In k l -> dict_get F k = dict_get (infer_key msg ctx tool params k) k).
  { intros k' Hk'. apply IH; [|assumption].
    intros k'' H''. apply Habs. apply in_or_app. now left. }
  assert (Hout : forall k, ~ In k l -> dict_get F k = dict_get params k).
  { intros k' Hk'. now apply fold_infer_get_other. }
  destruct (string_dec a k) as [<-|Hne].
  - destruct (infer_key_rule a) as [Hno|[g Hg]].
    + rewrite !Hno. destruct (in_dec string_dec a l) as [Hal|Hal].
      * rewrite (Hl a Hal). now rewrite Hno.
      * now apply Hout.
    + rewrite !Hg, !dict_get_set_eq. do 2 f_equal.
      destruct (in_dec string_dec "concept_to_explain" l) as [Hc|Hc].
      * unfold dict_get_or at 1. rewrite (Hl _ Hc).
        assert (Hp : dict_get params "concept_to_explain" = None).
        { apply Habs. apply in_or_app. now left. }
        pose proof (infer_key_concept params Hp) as E.
        unfold dict_get_or in E at 1. rewrite E.
        unfold dict_get_or. now rewrite Hp.
      * unfold dict_get_or. now rewrite (Hout _ Hc).
  - rewrite infer_key_get_other by assumption.
    apply Hl. apply in_app_or in Hin as [H|[H|[]]]; [assumption|contradiction].
Qed.

(** The inferencer's output, field by field. *)
Lemma infer_by_key params missing k :
  wf_dict params ->
  (forall k, In k missing -> dict_has params k = false) ->
  dict_get (_infer_missing_parameters msg ctx tool missing params) k
  = option_map (without_null tool msg k)
      (if mem k missing then dict_get (infer_key msg ctx tool params k) k
       else dict_get params k).
Proof.
  intros Hwf Habs. unfold _infer_missing_parameters. cbv zeta.
  rewrite safety_get by now apply fold_infer_wf.
  f_equal. destruct (mem k missing) eqn:E.
  - apply fold_infer_closed.
    + intros k' Hk'. specialize (Habs k' Hk'). unfold dict_has in Habs.
      now destruct (dict_get params k').
    + apply existsb_exists in E as (y & Hy & Ey).
      apply String.eqb_eq in Ey. now subst.
  - apply fold_infer_get_other. intros Hin.
    assert (mem k missing = true); [|congruence].
    apply existsb_exists. exists k. split; [assumption|apply String.eqb_refl].
Qed.

End InferenceByKey.

(** X13: the output of [_infer_missing_parameters], field by field.  A key
    that is not in [missing] keeps what the model gave it, a null replaced
    by the safety pass ([user_message], [True] or [1] by the type the
    schema gives the key, kept when the schema does not name it), and a
    key the model did not give stays absent.  When the keys of [missing]
    are absent from the model's mapping, as they are in
    [get_tool_decision], each of them gets the value its own rule gives on
    the model's mapping, whatever else is missing. *)
Theorem inference_field_by_field :
  forall msg ctx tool missing params k,
    wf_dict params ->
    (~ In k missing ->
     dict_get (_infer_missing_parameters msg ctx tool missing params) k
     = option_map (without_null tool msg k) (dict_get params k))
    /\ ((forall k', In k' missing -> dict_has params k' = false) ->
        In k missing ->
        dict_get (_infer_missing_parameters msg ctx tool missing params) k
        = option_map (without_null tool msg k)
            (dict_get (infer_key msg ctx tool params k) k)).
Proof.
  intros msg ctx tool missing params k Hwf.
  unfold _infer_missing_parameters. cbv zeta.
  rewrite safety_get by now apply fold_infer_wf.
  split.
  - intros Hk. now rewrite fold_infer_get_other.
  - intros Habs Hk. f_equal. apply fold_infer_closed; [|assumption].
    intros k' Hk'. specialize (Habs k' Hk'). unfold dict_has in Habs.
    now destruct (dict_get params k').
Qed.

Lemma inference_field_by_field_witness :
  let msg := "explain photosynthesis" in
  let params := [("concept_to_explain", VNone); ("note", VNone)] in
  let inferred :=
    _infer_missing_parameters msg [] "concept_explainer"
      ["current_topic"; "desired_depth"] params in
  dict_get inferred "concept_to_explain" = Some (VStr msg)
  /\ dict_get inferred "note" = Some VNone
  /\ dict_get inferred "current_topic" = Some (VStr msg).
Proof.
  intros msg params inferred.
  assert (Hwf : wf_dict params).
  { repeat constructor; simpl; intuition discriminate. }
  split; [|split].
  - apply (proj1 (inference_field_by_field msg [] "concept_explainer"
                    ["current_topic"; "desired_depth"] params
                    "concept_to_explain" Hwf)).
    simpl. intuition discriminate.
  - apply (proj1 (inference_field_by_field msg [] "concept_explainer"
                    ["current_topic"; "desired_depth"] params "note" Hwf)).
    simpl. intuition discriminate.
  - apply (proj2 (inference_field_by_field msg [] "concept_explainer"
                    ["current_topic"; "desired_depth"] params
                    "current_topic" Hwf)).
    + simpl. intros k' [<-|[<-|[]]]; reflexivity.
    + simpl. auto.
Defined.

(* ------------------------------------------------------------------ *)
(** ** Decoded values have no key twice *)

Section DecodedFacts.
Import Json.

Lemma wf_value_list (l : list value) :
  wf_value (VList l) <-> Forall wf_value l.
Proof.
  induction l as [|x l IH].
  - split; [constructor|reflexivity].
  - change (wf_value (VList (x :: l))) with (wf_value x /\ wf_value (VList l)).
    rewrite IH. split; [intros [H1 H2]; now constructor|].
    intros H. now inversion H.
Qed.

Lemma wf_value_dict (d : dict) :
  wf_value (VDict d) <-> wf_dict d /\ Forall (fun kv => wf_value (snd kv)) d.
Proof.
  cbn [wf_value]. apply and_iff_compat_l.
  induction d as [|[k x] d IH].
  - split; [constructor|reflexivity].
  - rewrite IH. split; [intros [H1 H2]; now constructor|].
    intros H. now inversion H.
Qed.

Lemma dict_of_pairs_wf (pairs : list (string * value)) :
  Forall (fun kv => wf_value (snd kv)) pairs ->
  wf_value (VDict (dict_of_pairs pairs)).
Proof.
  intros H. apply wf_value_dict. unfold dict_of_pairs.
  assert (G : forall d,
             wf_dict d /\ Forall (fun kv => wf_value (snd kv)) d ->
             wf_dict (fold_left (fun d kv => dict_set d (fst kv) (snd kv)) pairs d)
             /\ Forall (fun kv => wf_value (snd kv))
                  (fold_left (fun d kv => dict_set d (fst kv) (snd kv)) pairs d)).
  { induction H as [|kv pairs Hkv Hp IH]; intros d Hd; [assumption|].
    cbn [fold_left]. apply IH. destruct Hd as [Hw Hf]. split.
    - now apply wf_dict_set.
    - now apply Forall_dict_set. }
  apply G. split; constructor.
Qed.

Lemma scan_literal_wf (l : list ascii) v r :
  scan_literal l = Some (v, r) -> wf_value v.
Proof.
  unfold scan_literal, scan_number.
  destruct (strip_prefix (chars "null") l); [now intros [= <- <-]|].
  destruct (strip_prefix (chars "true") l); [now intros [= <- <-]|].
  destruct (strip_prefix (chars "false") l); [now intros [= <- <-]|].
  destruct (match l with [] => None | _ => _ end) as [[n r']|]; [|discriminate].
  destruct (starts_float r'); [discriminate|]. now intros [= <- <-].
Qed.

(** The decoder builds its objects with [dict_of_pairs]. *)
Lemma parse_wf (n : nat) :
  (forall l v r, parse_value n l = Some (v, r) -> wf_value v)
  /\ (forall acc l v r,
        Forall (fun kv => wf_value (snd kv)) acc ->
        parse_members n acc l = Some (v, r) -> wf_value v)
  /\ (forall acc l v r,
        Forall wf_value acc ->
        parse_elements n acc l = Some (v, r) -> wf_value v).
Proof.
  induction n as [|f (IHv & IHm & IHe)]; [repeat split; discriminate|].
  split; [|split].
  - intros l v r. cbn [parse_value].
    destruct l as [|c l']; [discriminate|].
    destruct (c =? "{")%char.
    { destruct (skip_ws l') as [|c' r']; [discriminate|].
      destruct (c' =? "}")%char.
      - intros [= <- <-]. apply wf_value_dict. split; constructor.
      - apply IHm. constructor. }
    destruct (c =? "[")%char.
    { destruct (skip_ws l') as [|c' r']; [discriminate|].
      destruct (c' =? "]")%char.
      - intros [= <- <-]. exact I.
      - apply IHe. constructor. }
    destruct (c =? dquote)%char.
    { destruct (scan_string [] l') as [[s r']|]; [|discriminate].
      now intros [= <- <-]. }
    apply scan_literal_wf.
  - intros acc l v r Hacc. cbn [parse_members].
    destruct l as [|q l']; [discriminate|].
    destruct (negb (q =? dquote)%char); [discriminate|].
    destruct (scan_string [] l') as [[k r1]|]; [|discriminate].
    destruct (skip_ws r1) as [|colon r2]; [discriminate|].
    destruct (negb (colon =? ":")%char); [discriminate|].
    destruct (parse_value f (skip_ws r2)) as [[x r3]|] eqn:Ex; [|discriminate].
    apply IHv in Ex.
    destruct (skip_ws r3) as [|sep r4]; [discriminate|].
    destruct (sep =? ",")%char; [apply IHm; now constructor|].
    destruct (sep =? "}")%char; [|discriminate].
    intros [= <- <-]. apply dict_of_pairs_wf.
    apply (Forall_rev (l := (k, x) :: acc)). now constructor.
  - intros acc l v r Hacc. cbn [parse_elements].
    destruct (parse_value f l) as [[x r1]|] eqn:Ex; [|discriminate].
    apply IHv in Ex.
    destruct (skip_ws r1) as [|sep r2]; [discriminate|].
    destruct (sep =? ",")%char; [apply IHe; now constructor|].
    destruct (sep =? "]")%char; [|discriminate].
    intros [= <- <-]. apply wf_value_list.
    apply (Forall_rev (l := x :: acc)). now constructor.
Qed.

Lemma loads_wf (s : string) (v : value) : loads s = Some v -> wf_value v.
Proof.
  unfold loads, loads_chars.
  destruct (parse_value _ (skip_ws (chars s))) as [[x r]|] eqn:E; [|discriminate].
  destruct (skip_ws r); [|discriminate]. intros [= <-].
  now apply (proj1 (parse_wf _)) in E.
Qed.

End DecodedFacts.

(* ------------------------------------------------------------------ *)
(** ** The decision and the order of set iteration *)

Section OrderFacts.

Lemma mem_permutation (k : string) (l l' : list string) :
  Permutation l l' -> mem k l = mem k l'.
Proof.
  intros H. destruct (mem k l') eqn:E.
  - apply mem_In. apply mem_In in E. now apply (Permutation_in k (Permutation_sym H)).
  - destruct (mem k l) eqn:E'; [|reflexivity].
    apply mem_In in E'. apply (Permutation_in k H) in E'.
    apply mem_In in E'. congruence.
Qed.

(** What the extractor returns has no key twice, at any depth. *)
Lemma extract_first_json_wf (raw : string) (v : value) :
  _extract_first_json raw = Some v -> wf_value v.
Proof.
  unfold _extract_first_json. rewrite extract_with_spans. intros H.
  assert (F : Forall (fun _ : string => True) (top_level_spans raw)).
  { apply Forall_forall. auto. }
  destruct (first_decoded_some _ _ _ _ F H) as (s & _ & Hs).
  now apply loads_wf in Hs.
Qed.

Lemma wf_value_field (d : dict) k v :
  wf_value (VDict d) -> dict_get d k = Some v -> wf_value v.
Proof.
  intros H Hg. apply wf_value_dict in H as [_ F].
  apply dict_get_in in Hg.
  apply (proj1 (Forall_forall _ _) F _ Hg).
Qed.

(** The missing keys, in whatever order the set gives them, are absent
    from the model's mapping. *)
Lemma missing_absent (w : world) (s : schema) (ps : dict) k :
  world_ok w ->
  In k (set_iter w (filter (fun k => negb (dict_has ps k)) (required s))) ->
  dict_has ps k = false.
Proof.
  intros Hw Hin. apply (Permutation_in k (Hw _)) in Hin.
  apply filter_In in Hin as [_ Hn]. now apply negb_true_iff in Hn.
Qed.

End OrderFacts.

(** X14: the decision does not depend on the order in which the
    interpreter iterates over the set of missing keys.  Two runs of
    [get_tool_decision] on the same reply, under any two iteration orders,
    fail with the same error or return the same tool and parameters that
    are equal as dicts (the same value under every key; the keys inferred
    may have been inserted in another order). *)
Theorem decision_ignores_set_order :
  forall w w' msg hist ctx,
    world_ok w -> world_ok w' ->
    model_reply w = model_reply w' ->
    match outcome (get_tool_decision w msg hist ctx),
          outcome (get_tool_decision w' msg hist ctx) with
    | Ok d, Ok d' =>
        d_tool d = d_tool d' /\ dict_equiv (d_parameters d) (d_parameters d')
    | Err e, Err e' => e = e'
    | _, _ => False
    end.
Proof.
  intros w w' msg hist ctx Hw Hw' Hr.
  unfold get_tool_decision, ask_gemini, validated, bind, emit, ret, raise, outcome.
  rewrite <- Hr.
  destruct (model_reply w) as [raw|]; cbn [snd]; [|reflexivity].
  destruct (_extract_first_json raw) as [parsed|] eqn:Ex; cbn [snd]; [|reflexivity].
  apply extract_first_json_wf in Ex.
  destruct parsed as [| | | | |p]; cbn [snd]; try reflexivity.
  destruct (dict_get p "tool") as [tool|]; cbn [snd]; [|reflexivity].
  destruct (dict_get p "parameters") as [params|] eqn:Ep; cbn [snd]; [|reflexivity].
  apply (wf_value_field p _ _ Ex) in Ep.
  destruct tool as [| | |name| |]; cbn [snd]; try reflexivity.
  destruct (assoc TOOL_PARAM_SCHEMAS name) as [s|]; cbn [snd]; [|reflexivity].
  destruct params as [| | | | |ps]; cbn [snd]; try reflexivity.
  apply wf_value_dict in Ep as [Hwf _].
  set (base := filter (fun k => negb (dict_has ps k)) (required s)).
  pose proof (Hw base) as P. pose proof (Hw' base) as P'.
  assert (PP : Permutation (set_iter w base) (set_iter w' base)).
  { eapply Permutation_trans; [exact P|]. now apply Permutation_sym. }
  assert (E : dict_equiv
                (_infer_missing_parameters msg ctx name (set_iter w base) ps)
                (_infer_missing_parameters msg ctx name (set_iter w' base) ps)).
  { intros k.
    rewrite !infer_by_key;
      try assumption;
      try (intros k' Hk'; now apply (missing_absent _ s ps k') in Hk').
    now rewrite (mem_permutation k _ _ PP). }
  destruct (set_iter w base) as [|a m] eqn:Em;
    destruct (set_iter w' base) as [|a' m'] eqn:Em'.
  - destruct (validate (VDict ps) s); cbn; [|reflexivity].
    split; [reflexivity|]. intros k. reflexivity.
  - apply Permutation_nil in PP. discriminate.
  - apply Permutation_sym, Permutation_nil in PP. discriminate.
  - pose proof E as V. unfold dict_equiv in V.
    apply (validate_ext s) in V. rewrite V. clear V.
    destruct (validate _ s); cbn; [|reflexivity].
    split; [reflexivity|exact E].
Qed.

Lemma decision_ignores_set_order_witness :
  let reply := Json.dq "{'tool': 'concept_explainer', 'parameters': {}}" in
  let w := {| model_reply := Some reply;
              tool_reply := fun _ _ => None;
              set_iter := fun l => l |} in
  let w' := {| model_reply := Some reply;
               tool_reply := fun _ _ => None;
               set_iter := fun l => rev l |} in
  match outcome (get_tool_decision w "explain osmosis" [] []),
        outcome (get_tool_decision w' "explain osmosis" [] []) with
  | Ok d, Ok d' =>
      d_tool d = d_tool d' /\ dict_equiv (d_parameters d) (d_parameters d')
  | Err e, Err e' => e = e'
  | _, _ => False
  end.
Proof.
  intros reply w w'.
  apply (decision_ignores_set_order w w' "explain osmosis" [] []).
  - intros l. apply Permutation_refl.
  - intros l. apply Permutation_sym, Permutation_rev.
  - reflexivity.
Defined.

(** X15: a decision keeps what the model chose.  Its tool is the model's;
    every field the model gave with a value other than null is in the
    decision's parameters with that value; and a key of the decision's
    parameters is a key of the model's parameters or a required key of the
    tool: nothing else is ever added. *)
Theorem decision_keeps_model_fields :
  forall w msg hist ctx raw p ps t d,
    world_ok w ->
    model_reply w = Some raw ->
    _extract_first_json raw = Some (VDict p) ->
    dict_get p "parameters" = Some (VDict ps) ->
    get_tool_decision w msg hist ctx = (t, Ok d) ->
    dict_get p "tool" = Some (VStr (d_tool d))
    /\ (forall k v, dict_get ps k = Some v -> v <> VNone ->
                    dict_get (d_parameters d) k = Some v)
    /\ (forall k, dict_has (d_parameters d) k = true ->
                  dict_has ps k = true
                  \/ exists s, assoc TOOL_PARAM_SCHEMAS (d_tool d) = Some s
                               /\ In k (required s)).
Proof.
  intros w msg hist ctx raw p ps t d Hw Hr Hx Hp.
  pose proof (extract_first_json_wf raw _ Hx) as Hwf.
  apply (wf_value_field p _ _ Hwf) in Hp as Hps.
  apply wf_value_dict in Hps as [Hps _].
  unfold get_tool_decision, ask_gemini, validated, bind, emit, ret, raise.
  rewrite Hr, Hx, Hp.
  destruct (dict_get p "tool") as [tool|]; [|discriminate].
  destruct tool as [| | |name| |]; try discriminate.
  destruct (assoc TOOL_PARAM_SCHEMAS name) as [s|] eqn:Hs; [|discriminate].
  set (base := filter (fun k => negb (dict_has ps k)) (required s)).
  destruct (set_iter w base) as [|a m] eqn:Em.
  - destruct (validate (VDict ps) s); [|discriminate].
    intros [= <- <-]. cbn [d_tool d_parameters].
    split; [reflexivity|]. split; [auto|]. intros k Hk. now left.
  - rewrite <- Em.
    destruct (validate _ s); [|discriminate].
    intros [= <- <-]. cbn [d_tool d_parameters].
    assert (Habs : forall k, In k (set_iter w base) -> dict_has ps k = false).
    { intros k Hk. now apply (missing_absent w s ps k Hw). }
    split; [reflexivity|]. split.
    + intros k v Hg Hv. rewrite infer_by_key by assumption.
      destruct (mem k (set_iter w base)) eqn:E.
      * apply mem_In, Habs in E. unfold dict_has in E. now rewrite Hg in E.
      * rewrite Hg. cbn [option_map]. f_equal. now destruct v.
    + intros k Hk. unfold dict_has in Hk.
      rewrite infer_by_key in Hk by assumption.
      destruct (mem k (set_iter w base)) eqn:E.
      * right. exists s. split; [exact Hs|].
        apply mem_In in E. apply (Permutation_in k (Hw base)) in E.
        now apply filter_In in E as [E _].
      * left. unfold dict_has. now destruct (dict_get ps k).
Qed.

Lemma decision_keeps_model_fields_witness :
  let w := {| model_reply :=
                Some (Json.dq "{'tool': 'note_maker', 'parameters': {'topic': 'osmosis', 'source': 'chapter 3'}}");
              tool_reply := fun _ _ => None;
              set_iter := fun l => l |} in
  match get_tool_decision w "notes on osmosis please" [] [] with
  | (_, Ok d) => dict_get (d_parameters d) "source" = Some (VStr "chapter 3")
  | (_, Err _) => False
  end.
Proof.
  intros w.
  destruct (get_tool_decision w "notes on osmosis please" [] []) as [t [d|e]] eqn:Hd.
  - apply (proj1 (proj2 (decision_keeps_model_fields w "notes on osmosis please" [] []
                           (Json.dq "{'tool': 'note_maker', 'parameters': {'topic': 'osmosis', 'source': 'chapter 3'}}")
                           [("tool", VStr "note_maker");
                            ("parameters",
                             VDict [("topic", VStr "osmosis");
                                    ("source", VStr "chapter 3")])]
                           [("topic", VStr "osmosis"); ("source", VStr "chapter 3")]
                           t d
                           (fun l => Permutation_refl l) eq_refl eq_refl eq_refl Hd)));
      [reflexivity|discriminate].
  - vm_compute in Hd. discriminate Hd.
Defined.

(* ------------------------------------------------------------------ *)
(** ** The second defaulting pass, applied twice *)

Section IdempotenceFacts.

Lemma dict_has_setdefault (d : dict) k v : dict_has (dict_setdefault d k v) k = true.
Proof.
  unfold dict_setdefault. destruct (dict_has d k) eqn:E; [assumption|].
  rewrite dict_has_set, String.eqb_refl. reflexivity.
Qed.

Lemma dict_has_setdefault_kept (d : dict) k v k' :
  dict_has d k' = true -> dict_has (dict_setdefault d k v) k' = true.
Proof.
  intros H. unfold dict_setdefault. destruct (dict_has d k); [assumption|].
  rewrite dict_has_set, H. apply orb_true_r.
Qed.

End IdempotenceFacts.

(** X16: [_infer_defaults] is idempotent, and the first profile wins:
    applied to its own output it changes nothing, also when the second
    call is given another user context.  After one pass every field the
    pass could set for the tool is present, so no [setdefault] of a second
    pass writes. *)
Theorem infer_defaults_idempotent :
  forall params tool ctx ctx',
    _infer_defaults (_infer_defaults params tool ctx) tool ctx'
    = _infer_defaults params tool ctx.
Proof.
  intros params tool ctx ctx'.
  destruct (String.eqb_spec tool "flashcard_generator") as [->|H1].
  { rewrite !infer_defaults_flashcard.
    set (v := VStr _).
    rewrite (dict_setdefault_has _ "count");
      [|apply dict_has_setdefault_kept, dict_has_setdefault].
    apply dict_setdefault_has, dict_has_setdefault. }
  destruct (String.eqb_spec tool "note_maker") as [->|H2].
  { rewrite !infer_defaults_note_maker. cbv zeta.
    set (visual := (_ =? "visual")%string).
    set (v := if visual then _ else _).
    set (p1 := dict_setdefault params "note_taking_style" v).
    set (p2 := dict_setdefault p1 "include_examples" (VBool true)).
    set (p3 := dict_setdefault p2 "include_analogies" (VBool visual)).
    assert (H3 : dict_has p3 "note_taking_style" = true).
    { unfold p3, p2, p1.
      do 2 apply dict_has_setdefault_kept. apply dict_has_setdefault. }
    assert (H4 : dict_has p3 "include_examples" = true).
    { unfold p3, p2. apply dict_has_setdefault_kept, dict_has_setdefault. }
    assert (H5 : dict_has p3 "include_analogies" = true).
    { unfold p3. apply dict_has_setdefault. }
    rewrite (dict_setdefault_has p3 "note_taking_style") by assumption.
    rewrite (dict_setdefault_has p3 "include_examples") by assumption.
    now apply dict_setdefault_has. }
  destruct (String.eqb_spec tool "concept_explainer") as [->|H3].
  { rewrite !infer_defaults_explainer.
    set (v := VStr _).
    rewrite (dict_setdefault_has _ "desired_depth");
      [|apply dict_has_setdefault_kept, dict_has_setdefault].
    apply dict_setdefault_has, dict_has_setdefault. }
  now rewrite !infer_defaults_other.
Qed.

(* ------------------------------------------------------------------ *)
(** ** The mock of the flashcard tool inside a run *)

Lemma final_parameters_keeps d hist ctx k v :
  k <> "user_info" -> k <> "chat_history" ->
  dict_get (d_parameters d) k = Some v ->
  dict_get (final_parameters d hist ctx) k = Some v.
Proof.
  intros H1 H2 Hg. unfold final_parameters. apply infer_defaults_keeps.
  rewrite !dict_get_set_ne by congruence. exact Hg.
Qed.

(** X17: when the flashcard endpoint cannot be reached, a run answers
    with the mock built from the parameters it posted: the decision's
    [count] is an integer from 1 to 20, and the mock holds exactly that
    many flashcards and echoes the decision's [topic] and [difficulty]. *)
Theorem run_mock_flashcards :
  forall w msg hist ctx t d,
    get_tool_decision w msg hist ctx = (t, Ok d) ->
    d_tool d = "flashcard_generator" ->
    tool_reply w "http://localhost:8102/flashcards" (final_parameters d hist ctx)
    = None ->
    exists n cards m,
      dict_get (d_parameters d) "count" = Some (VInt n) /\ (1 <= n <= 20)%Z
      /\ outcome (orchestrate_with_gemini w msg hist ctx)
         = Ok {| o_tool := "flashcard_generator";
                 o_parameters := final_parameters d hist ctx;
                 o_result := VDict m |}
      /\ dict_get m "flashcards" = Some (VList cards)
      /\ length cards = Z.to_nat n
      /\ dict_get m "topic" = dict_get (d_parameters d) "topic"
      /\ dict_get m "difficulty" = dict_get (d_parameters d) "difficulty".
Proof.
  intros w msg hist ctx t d Hd Htool Hreply.
  destruct (get_tool_decision_ok w msg hist ctx t d Hd) as (s & Hs & Hv & _).
  pose proof (final_parameters_valid d hist ctx s Hs Hv) as Hf.
  pose proof (orchestrate_cases w msg hist ctx) as C.
  rewrite Hd in C. cbv zeta in C. rewrite Hs in C.
  rewrite (tool_scoped_validate (d_tool d) s _ Hs), Hf in C.
  set (final := final_parameters d hist ctx) in *.
  rewrite Htool in *. injection Hs as <-.
  destruct (valid_count_is_int _ Hv) as (n & Hn & Hrange).
  apply validate_elim in Hv as [Hreq _].
  assert (Htopic : exists v, dict_get (d_parameters d) "topic" = Some v).
  { specialize (Hreq "topic" ltac:(simpl; auto)). unfold dict_has in Hreq.
    destruct (dict_get (d_parameters d) "topic") as [v|]; [now exists v|discriminate]. }
  assert (Hdiff : exists v, dict_get (d_parameters d) "difficulty" = Some v).
  { specialize (Hreq "difficulty" ltac:(simpl; auto)). unfold dict_has in Hreq.
    destruct (dict_get (d_parameters d) "difficulty") as [v|];
      [now exists v|discriminate]. }
  destruct Htopic as [vt Ht]. destruct Hdiff as [vd Hdf].
  assert (Fn : dict_get final "count" = Some (VInt n)).
  { apply final_parameters_keeps; [discriminate|discriminate|exact Hn]. }
  assert (Ft : dict_get final "topic" = Some vt).
  { apply final_parameters_keeps; [discriminate|discriminate|exact Ht]. }
  assert (Fd : dict_get final "difficulty" = Some vd).
  { apply final_parameters_keeps; [discriminate|discriminate|exact Hdf]. }
  unfold execute_tool in C. cbn [assoc TOOL_ENDPOINTS String.eqb Ascii.eqb Bool.eqb] in C.
  rewrite Hreply in C.
  unfold _mock_response, dict_get_or in C.
  cbn [String.eqb Ascii.eqb Bool.eqb] in C.
  rewrite Fn, Ft, Fd in C. cbn [to_int bind emit ret lift app] in C.
  exists n. eexists. eexists.
  split; [exact Hn|]. split; [exact Hrange|].
  split; [unfold outcome; rewrite C; reflexivity|].
  split; [reflexivity|]. split; [|split].
  - rewrite length_map, length_seq. f_equal. lia.
  - rewrite Ht. reflexivity.
  - rewrite Hdf. reflexivity.
Qed.

Lemma run_mock_flashcards_witness :
  let w := {| model_reply :=
                Some (Json.dq "{'tool':'flashcard_generator','parameters':{'topic':'cells','count':3,'difficulty':'hard','subject':'biology'}}");
              tool_reply := fun _ _ => None;
              set_iter := fun l => l |} in
  let params := [("topic", VStr "cells"); ("count", VInt 3);
                 ("difficulty", VStr "hard"); ("subject", VStr "biology")] in
  let d := {| d_tool := "flashcard_generator"; d_parameters := params |} in
  exists n cards m,
    dict_get params "count" = Some (VInt n) /\ (1 <= n <= 20)%Z
    /\ outcome (orchestrate_with_gemini w "quiz me on cells" [] [])
       = Ok {| o_tool := "flashcard_generator";
               o_parameters := final_parameters d [] [];
               o_result := VDict m |}
    /\ dict_get m "flashcards" = Some (VList cards)
    /\ length cards = Z.to_nat n
    /\ dict_get m "topic" = dict_get params "topic"
    /\ dict_get m "difficulty" = dict_get params "difficulty".
Proof.
  intros w params d.
  apply (run_mock_flashcards w "quiz me on cells" [] []
           [EvAsk; EvValidate (VDict params) true] d eq_refl eq_refl eq_refl).
Defined.

(* ------------------------------------------------------------------ *)
(** ** The mastery level the inferencer reads *)

Section LevelFacts.

Lemma drop_while_head (p : ascii -> bool) (l : list ascii) c l' :
  drop_while p l = c :: l' -> p c = false.
Proof.
  induction l as [|a l IH]; simpl; [discriminate|].
  destruct (p a) eqn:E; [assumption|]. now intros [= <- <-].
Qed.

Lemma int_digits_run (l : list ascii) :
  forallb is_digit l = true ->
  forall acc prev,
    l <> [] \/ prev = true ->
    int_digits acc prev l
    = Some (fold_left (fun a c => (a * 10 + digit_val c)%Z) l acc).
Proof.
  induction l as [|c l IH]; intros H acc prev Hne.
  - destruct Hne as [Hne| ->]; [congruence|reflexivity].
  - simpl in H. apply andb_true_iff in H as [Hc Hl].
    cbn [int_digits fold_left]. rewrite Hc. apply IH; auto.
Qed.

Lemma digits_fold_nonneg (l : list ascii) :
  forall acc, (0 <= acc)%Z ->
    (0 <= fold_left (fun a c => (a * 10 + digit_val c)%Z) l acc)%Z.
Proof.
  induction l as [|c l IH]; intros acc H; [assumption|].
  cbn [fold_left]. apply IH. unfold digit_val. lia.
Qed.

Lemma forallb_impl (p q : ascii -> bool) (l : list ascii) :
  (forall c, p c = true -> q c = true) ->
  forallb p l = true -> forallb q l = true.
Proof.
  intros Hpq. induction l as [|c l IH]; simpl; [reflexivity|].
  intros H. apply andb_true_iff in H as [Hc Hl].
  now rewrite (Hpq c Hc), IH.
Qed.

Lemma length_chars (s : string) : length (chars s) = String.length s.
Proof. induction s as [|c s IH]; simpl; [reflexivity|]. now f_equal. Qed.

Lemma take_while_length (p : ascii -> bool) (l : list ascii) :
  length (take_while p l) <= length l.
Proof.
  induction l as [|c l IH]; simpl; [lia|]. destruct (p c); simpl; lia.
Qed.

Lemma filter_all (p : ascii -> bool) (l : list ascii) :
  forallb p l = true -> filter p l = l.
Proof.
  induction l as [|c l IH]; simpl; [reflexivity|].
  intros H. apply andb_true_iff in H as [Hc Hl]. now rewrite Hc, IH.
Qed.

(** [int] on a run of digits: its decimal value, within the digit limit. *)
Lemma int_of_str_digit_run (ds : list ascii) :
  ds <> [] -> forallb is_digit ds = true ->
  int_of_str (str ds)
  = if (length ds <=? max_str_digits)%nat then Some (Json.digits_value ds) else None.
Proof.
  intros Hne Hds. unfold int_of_str, within_digit_limit. cbv zeta.
  rewrite chars_str, strip_chars_no_space, (filter_all _ _ Hds).
  - destruct (length ds <=? max_str_digits)%nat; [|reflexivity]. cbn [negb].
    destruct ds as [|c ds]; [congruence|].
    simpl in Hds. apply andb_true_iff in Hds as [Hc Hds].
    destruct (digit_not_sign c Hc) as [-> ->].
    apply int_digits_run; [simpl; now rewrite Hc|]. left. discriminate.
  - apply (forallb_impl is_digit); [|assumption].
    intros a Ha. now rewrite (digit_not_space a Ha).
Qed.

End LevelFacts.

(** X18: [_get_mastery_level_int] reads the first run of decimal digits of
    the mastery summary, wherever it stands, as a decimal number, and gives
    4 when the summary has no digit or is absent.  The level is never
    negative: a sign before the digits is not read.  The summary is taken
    to be at most 4300 characters long, the interpreter's cap on the digits
    [int] converts. *)
Theorem mastery_level_is_first_digit_run :
  forall ctx,
    let summary := ctx_get_or ctx "mastery_level_summary" "" in
    let run :=
      take_while is_digit
        (drop_while (fun c => negb (is_digit c)) (chars summary)) in
    String.length summary <= 4300 ->
    _get_mastery_level_int ctx
    = match run with
      | [] => 4%Z
      | _ :: _ => Json.digits_value run
      end
    /\ (0 <= _get_mastery_level_int ctx)%Z.
Proof.
  intros ctx summary run Hlen.
  unfold _get_mastery_level_int, first_digit_run. fold summary.
  unfold run.
  pose proof (drop_while_length (fun c => negb (is_digit c)) (chars summary)) as Hdrop.
  rewrite length_chars in Hdrop.
  destruct (drop_while (fun c => negb (is_digit c)) (chars summary))
    as [|c l] eqn:E.
  - cbn [take_while]. split; [reflexivity|lia].
  - apply drop_while_head in E. apply negb_false_iff in E.
    cbn [take_while]. rewrite E.
    set (ds := c :: take_while is_digit l).
    assert (Hds : forallb is_digit ds = true).
    { unfold ds. cbn [forallb]. rewrite E. apply take_while_all. }
    assert (Hshort : (length ds <=? max_str_digits)%nat = true).
    { apply Nat.leb_le. unfold ds, max_str_digits.
      pose proof (take_while_length is_digit l). simpl in Hdrop |- *. lia. }
    assert (Hint : int_of_str (str ds) = Some (Json.digits_value ds)).
    { rewrite int_of_str_digit_run, Hshort; [reflexivity|discriminate|assumption]. }
    rewrite Hint. split; [reflexivity|].
    unfold Json.digits_value. apply digits_fold_nonneg. lia.
Qed.

Lemma mastery_level_is_first_digit_run_witness :
  _get_mastery_level_int [("mastery_level_summary", "Mastery: -12 of 20")] = 12%Z.
Proof.
  apply (proj1 (mastery_level_is_first_digit_run
                  [("mastery_level_summary", "Mastery: -12 of 20")]
                  ltac:(vm_compute; lia))).
Defined.

(* ------------------------------------------------------------------ *)
(** ** A null in a field the schema names *)

Lemma registered_fallback tool s k pk msg :
  assoc TOOL_PARAM_SCHEMAS tool = Some s ->
  assoc (properties s) k = Some pk ->
  exists v, null_fallback tool msg k = Some v /\ v <> VNone.
Proof.
  intros Hs Hk. unfold null_fallback, properties_of. rewrite Hs, Hk.
  cbn [option_map].
  assert (Ht : p_type pk <> TObject).
  { apply assoc_in in Hk.
    destruct (registered_tools _ _ Hs) as [->|[->| ->]];
      injection Hs as <-; simpl in Hk;
      repeat (destruct Hk as [[= <- <-]|Hk]; [discriminate|]); destruct Hk. }
  destruct (p_type pk); try congruence; eexists; split;
    try reflexivity; discriminate.
Qed.

(** X19: a null that the model puts in a field the schema names is
    repaired only when a required key is missing.  With every required key
    present the inferencer is not called and the decision fails with
    "Gemini parameters failed validation".  A decision that succeeds had a
    required key missing, and holds in the place of the null the fallback
    of the safety pass ([user_message], [True] or [1] by the type of the
    field). *)
Theorem null_field_needs_a_missing_key :
  forall w msg hist ctx raw p name s ps k pk,
    world_ok w ->
    model_reply w = Some raw ->
    _extract_first_json raw = Some (VDict p) ->
    dict_get p "tool" = Some (VStr name) ->
    dict_get p "parameters" = Some (VDict ps) ->
    assoc TOOL_PARAM_SCHEMAS name = Some s ->
    assoc (properties s) k = Some pk ->
    dict_get ps k = Some VNone ->
    ((forall k', In k' (required s) -> dict_has ps k' = true) ->
     get_tool_decision w msg hist ctx
     = ([EvAsk; EvValidate (VDict ps) false], Err ValidationFailed))
    /\ (forall t d,
          get_tool_decision w msg hist ctx = (t, Ok d) ->
          (exists k', In k' (required s) /\ dict_has ps k' = false)
          /\ dict_get (d_parameters d) k = null_fallback name msg k
          /\ dict_get (d_parameters d) k <> Some VNone).
Proof.
  intros w msg hist ctx raw p name s ps k pk Hw Hr Hx Ht Hp Hs Hk Hnull.
  pose proof (extract_first_json_wf raw _ Hx) as Hwf.
  apply (wf_value_field p _ _ Hwf) in Hp as Hps.
  apply wf_value_dict in Hps as [Hps _].
  assert (Hbad : validate (VDict ps) s = false).
  { destruct (validate (VDict ps) s) eqn:E; [|reflexivity].
    apply validate_elim in E as [_ Hc].
    specialize (Hc k pk VNone Hk Hnull). now rewrite check_prop_none in Hc. }
  set (base := filter (fun k => negb (dict_has ps k)) (required s)).
  unfold get_tool_decision, ask_gemini, validated, bind, emit, ret, raise.
  rewrite Hr, Hx, Ht, Hp, Hs. fold base.
  split.
  - intros Hall.
    assert (Hb : base = []).
    { unfold base. destruct (filter _ (required s)) as [|a l] eqn:E; [reflexivity|].
      assert (Ha : In a (filter (fun k => negb (dict_has ps k)) (required s))).
      { rewrite E. now left. }
      apply filter_In in Ha as [Ha Hn]. rewrite (Hall a Ha) in Hn. discriminate. }
    rewrite Hb. pose proof (Hw []) as P. apply Permutation_sym, Permutation_nil in P.
    rewrite P, Hbad. reflexivity.
  - intros t d.
    destruct (set_iter w base) as [|a m] eqn:Em.
    + rewrite Hbad. intros H. cbn in H. unfold M in H. discriminate H.
    + rewrite <- Em.
      destruct (validate
                  (VDict (_infer_missing_parameters msg ctx name (set_iter w base) ps))
                  s);
        [|intros H; cbn in H; unfold M in H; discriminate H].
      intros H. cbn [app] in H. unfold M in H. injection H as <- <-.
      cbn [d_parameters].
      assert (Habs : forall k, In k (set_iter w base) -> dict_has ps k = false).
      { intros k' Hk'. now apply (missing_absent w s ps k' Hw). }
      split.
      * exists a. assert (Ha : In a (set_iter w base)) by (rewrite Em; now left).
        split; [|now apply Habs].
        apply (Permutation_in a (Hw base)) in Ha.
        now apply filter_In in Ha as [Ha _].
      * rewrite infer_by_key by assumption.
        destruct (mem k (set_iter w base)) eqn:E.
        { apply mem_In, Habs in E. unfold dict_has in E. now rewrite Hnull in E. }
        rewrite Hnull. cbn [option_map without_null].
        destruct (registered_fallback name s k pk msg Hs Hk) as (v & -> & Hv).
        split; [reflexivity|congruence].
Qed.

Lemma null_field_needs_a_missing_key_witness :
  let w := {| model_reply :=
                Some (Json.dq "{'tool': 'note_maker', 'parameters': {'topic': null, 'subject': 'biology', 'note_taking_style': 'outline'}}");
              tool_reply := fun _ _ => None;
              set_iter := fun l => l |} in
  outcome (get_tool_decision w "notes on osmosis please" [] [])
  = Err ValidationFailed.
Proof.
  intros w. unfold outcome.
  rewrite (proj1 (null_field_needs_a_missing_key w "notes on osmosis please" [] []
                    (Json.dq "{'tool': 'note_maker', 'parameters': {'topic': null, 'subject': 'biology', 'note_taking_style': 'outline'}}")
                    [("tool", VStr "note_maker");
                     ("parameters",
                      VDict [("topic", VNone); ("subject", VStr "biology");
                             ("note_taking_style", VStr "outline")])]
                    "note_maker"
                    {| required := ["topic"; "subject"; "note_taking_style"];
                       properties :=
                         [ ("topic", p_string);
                           ("subject", p_string);
                           ("note_taking_style",
                            p_enum_of ["outline"; "bullet_points"; "narrative"; "structured"]);
                           ("include_examples", p_boolean);
                           ("include_analogies", p_boolean) ] |}
                    [("topic", VNone); ("subject", VStr "biology");
                     ("note_taking_style", VStr "outline")]
                    "topic" p_string
                    (fun l => Permutation_refl l)
                    eq_refl eq_refl eq_refl eq_refl eq_refl eq_refl eq_refl)).
  - reflexivity.
  - intros k' [<-|[<-|[<-|[]]]]; reflexivity.
Defined.

(* ------------------------------------------------------------------ *)
(** ** The topic patterns on a message that opens with one of them *)

Section PatternFacts.
Import Re.
Variable R : Type.

(** A greedy repetition of a class takes the whole run. *)
Lemma rep_cls_greedy (p : ascii -> bool) (min : nat)
  (k : list ascii -> option (list ascii) -> option R) (run rest : list ascii)
  (cap : option (list ascii)) (v : R) :
  forallb p run = true ->
  match rest with [] => True | c :: _ => p c = false end ->
  min <= length run ->
  k rest cap = Some v ->
  rmatch (Rep min (Cls p)) (run ++ rest) cap k = Some v.
Proof.
  intros Hrun Hrest Hmin Hk. cbn [rmatch].
  assert (Hfuel : length run <= length (run ++ rest)).
  { rewrite length_app. lia. }
  revert Hfuel. generalize (length (run ++ rest)) as fuel.
  assert (Hn : min <= 0 + length run) by lia.
  clear Hmin. revert Hn. generalize 0 as n.
  induction run as [|c run IH]; intros n Hn fuel Hfuel.
  - cbn [app]. simpl in Hn.
    assert (Hstop : (if (min <=? n)%nat then k rest cap else None) = Some v).
    { replace (min <=? n)%nat with true; [assumption|].
      symmetry. apply Nat.leb_le. lia. }
    destruct fuel as [|f]; [exact Hstop|].
    destruct rest as [|c rest']; [exact Hstop|].
    rewrite Hrest. exact Hstop.
  - simpl in Hrun. apply andb_true_iff in Hrun as [Hc Hrun].
    destruct fuel as [|f]; [simpl in Hfuel; lia|].
    cbn [app]. rewrite Hc.
    replace (length (run ++ rest) <? length (c :: run ++ rest))%nat with true.
    + rewrite IH; [reflexivity|assumption| |].
      * simpl in Hn. lia.
      * simpl in Hfuel. lia.
    + symmetry. apply Nat.ltb_lt. simpl. lia.
Qed.

End PatternFacts.

Section TopicFacts.
Import Re.

Lemma topic_text_chars (x : string) :
  topic_text x = true ->
  forallb Patterns.topic_char (chars x) = true
  /\ 2 <= length (chars x)
  /\ (exists c l, chars x = c :: l /\ is_space c = false)
  /\ (exists c l, rev (chars x) = c :: l /\ is_space c = false).
Proof.
  unfold topic_text. cbv zeta. intros H.
  apply andb_true_iff in H as [H H4]. apply andb_true_iff in H as [H H3].
  apply andb_true_iff in H as [H1 H2]. apply Nat.leb_le in H2.
  repeat split; try assumption.
  - destruct (chars x) as [|c l]; [discriminate|].
    exists c, l. split; [reflexivity|]. now apply negb_true_iff.
  - destruct (rev (chars x)) as [|c l]; [discriminate|].
    exists c, l. split; [reflexivity|]. now apply negb_true_iff.
Qed.

Lemma ends_topic_chars (tail : string) :
  ends_topic tail = true ->
  match chars tail with [] => True | c :: _ => Patterns.topic_char c = false end.
Proof.
  unfold ends_topic. destruct (chars tail); [trivial|]. apply negb_true_iff.
Qed.

(** The group takes the topic and stops where it ends. *)
Lemma topic_match (x tail : list ascii) cap
  (k : list ascii -> option (list ascii) -> option (option (list ascii))) :
  (forall rest c, k rest c = Some c) ->
  forallb Patterns.topic_char x = true -> 2 <= length x ->
  match tail with [] => True | c :: _ => Patterns.topic_char c = false end ->
  rmatch Patterns.topic (x ++ tail) cap k = Some (Some x).
Proof.
  intros Hk Hx Hlen Htail. unfold Patterns.topic. cbn [rmatch].
  apply rep_cls_greedy; try assumption.
  rewrite Hk. do 2 f_equal.
  rewrite length_app. replace (length x + length tail - length tail) with (length x) by lia.
  rewrite firstn_app, firstn_all, Nat.sub_diag. cbn [firstn]. apply app_nil_r.
Qed.

(** One space, then the topic. *)
Lemma spaces_then (x : list ascii) cap
  (k : list ascii -> option (list ascii) -> option (option (list ascii))) v :
  match x with [] => True | c :: _ => is_space c = false end ->
  k x cap = Some v ->
  rmatch Patterns.spaces (" "%char :: x) cap k = Some v.
Proof.
  intros Hx Hk. unfold Patterns.spaces.
  apply (rep_cls_greedy _ is_space 1 k [" "%char] x cap v); auto.
Qed.

End TopicFacts.

Section PatternHits.
Import Re.
Variable R : Type.
Implicit Types (k : list ascii -> option (list ascii) -> option R).

Lemma seq_hit r1 r2 l cap k v :
  rmatch r1 l cap (fun rest cap' => rmatch r2 rest cap' k) = Some v ->
  rmatch (Seq r1 r2) l cap k = Some v.
Proof. exact (fun H => H). Qed.

Lemma lit_hit s l rest cap k v :
  Json.strip_prefix (chars s) l = Some rest ->
  k rest cap = Some v ->
  rmatch (Lit s) l cap k = Some v.
Proof. intros H Hk. cbn [rmatch]. now rewrite H. Qed.

Lemma lit_miss s l cap k :
  Json.strip_prefix (chars s) l = None -> rmatch (Lit s) l cap k = None.
Proof. intros H. cbn [rmatch]. now rewrite H. Qed.

Lemma alt_first r1 r2 l cap k v :
  rmatch r1 l cap k = Some v -> rmatch (Alt r1 r2) l cap k = Some v.
Proof. intros H. cbn [rmatch]. now rewrite H. Qed.

Lemma alt_second r1 r2 l cap k v :
  rmatch r1 l cap k = None ->
  rmatch r2 l cap k = Some v ->
  rmatch (Alt r1 r2) l cap k = Some v.
Proof. intros H1 H2. cbn [rmatch]. now rewrite H1. Qed.

End PatternHits.

Lemma opt_lit_end (s : string) (l : list ascii) (cap : option (list ascii)) :
  Re.rmatch (Re.Opt (Re.Lit s)) l cap (fun _ c => Some c) = Some cap.
Proof.
  cbn [Re.rmatch]. now destruct (Json.strip_prefix (chars s) l).
Qed.



Ltac lit_compute :=
  cbn [Json.strip_prefix chars list_ascii_of_string Ascii.eqb Bool.eqb]; reflexivity.

(** Follow a pattern along a text that starts with one of its openings. *)
Ltac hit :=
  cbv beta;
  lazymatch goal with
  | |- Re.rmatch (Re.Seq _ _) _ _ _ = Some _ => apply seq_hit; hit
  | |- Re.rmatch (Re.Lit _) _ _ _ = Some _ => eapply lit_hit; [lit_compute|hit]
  | |- Re.rmatch (Re.Alt _ _) _ _ _ = Some _ =>
      first [ apply alt_first; hit
            | apply alt_second; [apply lit_miss; lit_compute|hit] ]
  | |- Re.rmatch Patterns.spaces _ _ _ = Some _ => apply spaces_then; [|hit]
  | |- Re.rmatch Patterns.topic _ _ _ = Some _ =>
      apply topic_match;
      [first [intros; reflexivity | intros; apply opt_lit_end]| | |]
  | _ => idtac
  end.

Section CandidateHits.

Lemma search_hit (r : Re.regex) (l : list ascii) c :
  Re.rmatch r l None (fun _ cap => Some cap) = Some c ->
  Re.search_chars r l = Some c.
Proof. intros H. destruct l; cbn [Re.search_chars]; now rewrite H. Qed.

(** Each opening is matched by one of the patterns, which captures the
    topic that follows. *)
Lemma prefix_pattern (prefix : string) (x tail : list ascii) :
  In prefix topic_prefixes ->
  forallb Patterns.topic_char x = true -> 2 <= length x ->
  match x with [] => True | c :: _ => is_space c = false end ->
  match tail with [] => True | c :: _ => Patterns.topic_char c = false end ->
  exists pat,
    In pat Patterns.patterns
    /\ (prefix = "explain " -> exists others, Patterns.patterns = pat :: others)
    /\ Re.rmatch pat (chars prefix ++ x ++ tail) None (fun _ cap => Some cap)
       = Some (Some x).
Proof.
  intros Hin Hx Hlen Hhead Htail.
  assert (Hhead' : match x ++ tail with [] => True | c :: _ => is_space c = false end).
  { destruct x; [simpl in Hlen; lia|exact Hhead]. }
  unfold topic_prefixes in Hin.
  repeat (destruct Hin as [<-|Hin];
          [match goal with
           | |- context [chars "explain "] => exists (nth 0 Patterns.patterns (Re.Lit ""))
           | |- context [chars "what's "] => exists (nth 1 Patterns.patterns (Re.Lit ""))
           | |- context [chars "what is "] => exists (nth 1 Patterns.patterns (Re.Lit ""))
           | |- context [chars "what are "] => exists (nth 1 Patterns.patterns (Re.Lit ""))
           | |- context [chars "tell me about "] => exists (nth 2 Patterns.patterns (Re.Lit ""))
           | |- context [chars "struggling with "] => exists (nth 3 Patterns.patterns (Re.Lit ""))
           | |- context [chars "practice problems on "] => exists (nth 4 Patterns.patterns (Re.Lit ""))
           | |- context [chars "practice problems for "] => exists (nth 4 Patterns.patterns (Re.Lit ""))
           | |- context [chars "need help with "] => exists (nth 5 Patterns.patterns (Re.Lit ""))
           | |- context [chars "need help on "] => exists (nth 5 Patterns.patterns (Re.Lit ""))
           | |- context [chars "need practice with "] => exists (nth 5 Patterns.patterns (Re.Lit ""))
           | |- context [chars "need practice on "] => exists (nth 5 Patterns.patterns (Re.Lit ""))
           end;
           (split; [simpl; tauto|]);
           (split; [first [discriminate | intros _; eexists; reflexivity]|]);
           cbn [nth Patterns.patterns chars list_ascii_of_string app];
           hit; assumption|]).
  destruct Hin.
Qed.

Lemma strip_ends (s : string) c l c' l' :
  chars s = c :: l -> is_space c = false ->
  rev (chars s) = c' :: l' -> is_space c' = false ->
  strip s = s.
Proof.
  intros Hs Hc Hr Hc'. unfold strip, strip_chars.
  rewrite Hs, (drop_while_none _ c l Hc), <- Hs, Hr, (drop_while_none _ c' l' Hc').
  rewrite <- Hr, rev_involutive. apply str_chars.
Qed.

Lemma topic_char_not_punct (c : ascii) :
  Patterns.topic_char c = true -> Re.is_trail_punct c = false.
Proof.
  intros H. unfold Re.is_trail_punct.
  destruct (Ascii.eqb_spec c ".") as [->|_]; [discriminate|].
  destruct (Ascii.eqb_spec c "?") as [->|_]; [discriminate|].
  destruct (Ascii.eqb_spec c ",") as [->|_]; [discriminate|].
  destruct (Ascii.eqb_spec c "!") as [->|_]; [discriminate|].
  reflexivity.
Qed.

Lemma newline_is_space (c : ascii) : (code c =? 10)%nat = true -> is_space c = true.
Proof.
  intros H. apply Nat.eqb_eq in H. unfold is_space, in_range. now rewrite H.
Qed.

(** A captured topic goes through the clean-up as it is. *)
Lemma topic_text_clean (x : string) :
  topic_text x = true ->
  strip (Re.sub_trailing_punct (strip x)) = x /\ x <> "".
Proof.
  intros H. destruct (topic_text_chars x H) as (Hall & Hlen & (c & l & Hs & Hc)
                                                 & (c' & l' & Hr & Hc')).
  rewrite (strip_ends x c l c' l' Hs Hc Hr Hc').
  assert (Hsub : Re.sub_trailing_punct x = x).
  { unfold Re.sub_trailing_punct. rewrite Hr.
    destruct (code c' =? 10)%nat eqn:En.
    - apply newline_is_space in En. congruence.
    - assert (Ht : Patterns.topic_char c' = true).
      { apply (proj1 (forallb_forall _ _) Hall). apply in_rev. rewrite Hr. now left. }
      cbn [drop_while]. rewrite (topic_char_not_punct c' Ht).
      rewrite <- Hr, rev_involutive. apply str_chars. }
  rewrite Hsub, (strip_ends x c l c' l' Hs Hc Hr Hc').
  split; [reflexivity|]. intros ->. discriminate.
Qed.

(** The clause of the candidate loop for the pattern that matches. *)
Lemma pattern_clause (message prefix x tail : string) :
  In prefix topic_prefixes ->
  lower (strip message) = (prefix ++ x ++ tail)%string ->
  topic_text x = true ->
  ends_topic tail = true ->
  exists pat,
    In pat Patterns.patterns
    /\ (prefix = "explain " -> exists others, Patterns.patterns = pat :: others)
    /\ match Re.search_group1 pat (lower (strip message)) with
       | Some g =>
           let cand := strip (Re.sub_trailing_punct (strip g)) in
           if (cand =? "")%string then [] else [cand]
       | None => []
       end = [x].
Proof.
  intros Hin Hlow Hx Htail.
  destruct (topic_text_chars x Hx) as (Hall & Hlen & (c & l & Hs & Hc) & _).
  destruct (topic_text_clean x Hx) as [Hclean Hne].
  destruct (prefix_pattern prefix (chars x) (chars tail) Hin Hall Hlen)
    as (pat & Hpat & Hfirst & Hm).
  { now rewrite Hs. }
  { now apply ends_topic_chars. }
  apply search_hit in Hm.
  exists pat. split; [assumption|]. split; [assumption|].
  unfold Re.search_group1. rewrite Hlow, !chars_app, Hm, str_chars.
  cbv zeta. rewrite Hclean.
  destruct (String.eqb_spec x ""); [contradiction|reflexivity].
Qed.

(** After [explain], the topic is the first candidate. *)
Lemma explain_candidates_head (message x tail : string) :
  lower (strip message) = ("explain " ++ x ++ tail)%string ->
  topic_text x = true ->
  ends_topic tail = true ->
  exists rest, _extract_candidates_for_concept message = x :: rest.
Proof.
  intros Hlow Hx Htail.
  destruct (pattern_clause message "explain " x tail) as (pat & _ & Hfirst & Heach);
    try assumption; [simpl; tauto|].
  destruct (Hfirst eq_refl) as [others Ho].
  unfold _extract_candidates_for_concept. cbv zeta.
  rewrite Ho. cbn [flat_map]. cbv zeta in Heach. rewrite Heach.
  cbn [app dedupe mem existsb]. eexists. reflexivity.
Qed.

End CandidateHits.

(** X20: what the patterns capture.  When the stripped, lowercased
    message opens with one of the openings of the six patterns and goes on
    with a topic (two or more characters of the topic class, no space at
    either end) followed by nothing or by a character outside the class,
    that topic is one of the candidates; after [explain] it is the first
    candidate.  A candidate found by a pattern is in lower case. *)
Theorem pattern_topic_is_candidate :
  forall message prefix x tail,
    In prefix topic_prefixes ->
    lower (strip message) = (prefix ++ x ++ tail)%string ->
    topic_text x = true ->
    ends_topic tail = true ->
    In x (_extract_candidates_for_concept message)
    /\ (prefix = "explain " ->
        exists rest, _extract_candidates_for_concept message = x :: rest).
Proof.
  intros message prefix x tail Hin Hlow Hx Htail. split.
  - destruct (pattern_clause message prefix x tail Hin Hlow Hx Htail)
      as (pat & Hpat & _ & Heach).
    unfold _extract_candidates_for_concept. cbv zeta.
    set (each := fun pat : Re.regex => match Re.search_group1 pat _ with
                                       | Some g => _ | None => [] end).
    assert (Hfound : In x (flat_map each Patterns.patterns)).
    { apply in_flat_map. exists pat. split; [assumption|].
      unfold each. cbv zeta in Heach. rewrite Heach. now left. }
    destruct (flat_map each Patterns.patterns) as [|y found] eqn:Ef;
      [destruct Hfound|].
    apply (proj2 (dedupe_spec (y :: found) [])). split; [assumption|]. intros [].
  - intros ->. now apply (explain_candidates_head message x tail).
Qed.

Lemma pattern_topic_is_candidate_witness :
  In "cell division"
    (_extract_candidates_for_concept "  Struggling with Cell Division! ")
  /\ exists rest,
       _extract_candidates_for_concept "Explain recursion, please" = "recursion" :: rest.
Proof.
  split.
  - apply (proj1 (pattern_topic_is_candidate "  Struggling with Cell Division! "
                    "struggling with " "cell division" "!"
                    ltac:(simpl; tauto) eq_refl eq_refl eq_refl)).
  - apply (proj2 (pattern_topic_is_candidate "Explain recursion, please"
                    "explain " "recursion" ", please"
                    ltac:(simpl; tauto) eq_refl eq_refl eq_refl)).
    reflexivity.
Defined.


(** X21: the topic the inferencer fills in.  For a message that opens with
    [explain] and a topic, a missing [concept_to_explain], [topic] or
    [subject] gets that topic, in lower case, whatever else is missing and
    whatever the model's other fields are. *)
Theorem inferred_topic_is_explained :
  forall msg ctx tool key missing params x tail,
    In (tool, key) topic_fields ->
    lower (strip msg) = ("explain " ++ x ++ tail)%string ->
    topic_text x = true ->
    ends_topic tail = true ->
    wf_dict params ->
    (forall k, In k missing -> dict_has params k = false) ->
    In key missing ->
    dict_get (_infer_missing_parameters msg ctx tool missing params) key
    = Some (VStr x).
Proof.
  intros msg ctx tool key missing params x tail Hf Hlow Hx Htail Hwf Habs Hkey.
  destruct (explain_candidates_head msg x tail Hlow Hx Htail) as [rest Hc].
  rewrite infer_by_key by assumption.
  apply mem_In in Hkey. rewrite Hkey.
  unfold topic_fields in Hf.
  repeat (destruct Hf as [[= <- <-]|Hf];
          [unfold infer_key; cbv zeta; cbn [String.eqb Ascii.eqb Bool.eqb];
           rewrite Hc, dict_get_set_eq; reflexivity|]).
  destruct Hf.
Qed.

Lemma inferred_topic_is_explained_witness :
  dict_get
    (_infer_missing_parameters "Explain Photosynthesis?" [] "note_maker"
       ["topic"; "note_taking_style"] [("subject", VStr "biology")])
    "topic"
  = Some (VStr "photosynthesis").
Proof.
  apply (inferred_topic_is_explained "Explain Photosynthesis?" [] "note_maker"
           "topic" ["topic"; "note_taking_style"] [("subject", VStr "biology")]
           "photosynthesis" "?").
  - simpl. tauto.
  - reflexivity.
  - reflexivity.
  - reflexivity.
  - repeat constructor. simpl. tauto.
  - intros k [<-|[<-|[]]]; reflexivity.
  - simpl. tauto.
Defined.

(* ------------------------------------------------------------------ *)
(** ** The mastery tiers, layer by layer *)



